(** * webvtt-py: the caption parsers of [webvtt/parsers.py]

    A shallow embedding of the parser classes of [webvtt/parsers.py]
    ([TextBasedParser], [SRTParser], [SBVParser], [WebVTTParser],
    [WebVTTParserCDP]) and of the fragment of Python's [re] and [str] they
    rely on, followed by theorems about them.

    Python strings are modelled by [string]; a character is a code point
    below 256.  An exception that leaves a method is modelled by the
    [Raise] outcome of a small state-and-exception monad over the parser
    instance, so that what an instance holds after an exception, or after
    a second call, can be stated. *)

From Stdlib Require Import List String Ascii Arith Bool Lia.
From Stdlib Require Import Decimal DecimalString.
Import ListNotations.

Local Open Scope string_scope.
Local Open Scope list_scope.
Local Open Scope nat_scope.

(* ------------------------------------------------------------------ *)
(** ** Python [str] operations used by the parsers *)

Module PyStr.

(** [bool(s)]: a string is true when it is not empty. *)
Definition truthy (s : string) : bool :=
  match s with
  | EmptyString => false
  | String _ _ => true
  end.

(** [s.startswith(p)]. *)
Fixpoint startswith (p s : string) : bool :=
  match p, s with
  | EmptyString, _ => true
  | String a p', String b s' => Ascii.eqb a b && startswith p' s'
  | String _ _, EmptyString => false
  end.

(** [needle in hay]. *)
Fixpoint contains (needle hay : string) : bool :=
  startswith needle hay ||
  match hay with
  | EmptyString => false
  | String _ hay' => contains needle hay'
  end.

Definition code (c : ascii) : nat := nat_of_ascii c.

(** [c.isdigit()] on one character: the ASCII digits and, below 256,
    the superscripts U+00B2, U+00B3 and U+00B9. *)
Definition char_isdigit (c : ascii) : bool :=
  ((48 <=? code c) && (code c <=? 57))
  || (code c =? 178) || (code c =? 179) || (code c =? 185).

Fixpoint all_chars (p : ascii -> bool) (s : string) : bool :=
  match s with
  | EmptyString => true
  | String c s' => p c && all_chars p s'
  end.

(** [s.isdigit()]: at least one character, and all of them digits. *)
Definition isdigit (s : string) : bool :=
  truthy s && all_chars char_isdigit s.

(** [sep.join(xs)]. *)
Fixpoint join (sep : string) (xs : list string) : string :=
  match xs with
  | [] => ""
  | [x] => x
  | x :: xs' => x ++ sep ++ join sep xs'
  end.

(** [str(n)] / ['{}'.format(n)] for a non-negative integer. *)
Definition of_nat (n : nat) : string :=
  NilZero.string_of_uint (Nat.to_uint n).

(** The first [n] characters of [s]. *)
Fixpoint take (n : nat) (s : string) : string :=
  match n, s with
  | S n', String c s' => String c (take n' s')
  | _, _ => ""
  end.

End PyStr.

(* ------------------------------------------------------------------ *)
(** ** The fragment of Python's [re] used by the parsers

    A backtracking matcher with Python's priorities: a repetition is
    greedy, an alternative tries its left branch first, and the first
    successful path decides the groups. *)

Module Re.

Inductive regex : Type :=
| Eps                                  (* the empty pattern *)
| Chr (p : ascii -> bool)              (* one character of a class *)
| Seq (r1 r2 : regex)                  (* r1r2 *)
| Alt (r1 r2 : regex)                  (* r1|r2 *)
| Star (r : regex)                     (* r*, greedy *)
| Group (n : nat) (r : regex)          (* the n-th capturing group *)
| Eol.                                 (* $ *)

(** [\d] on code points below 256. *)
Definition digit (c : ascii) : bool :=
  (48 <=? PyStr.code c) && (PyStr.code c <=? 57).

(** [\s] on code points below 256: TAB, LF, VT, FF, CR, FS, GS, RS, US,
    space, NEL and the no-break space. *)
Definition space (c : ascii) : bool :=
  ((9 <=? PyStr.code c) && (PyStr.code c <=? 13))
  || ((28 <=? PyStr.code c) && (PyStr.code c <=? 32))
  || (PyStr.code c =? 133) || (PyStr.code c =? 160).

(** [.]: any character but a newline. *)
Definition dot (c : ascii) : bool := negb (PyStr.code c =? 10).

Definition only (a : ascii) (c : ascii) : bool := Ascii.eqb a c.

Definition one_of (cs : list ascii) (c : ascii) : bool :=
  existsb (Ascii.eqb c) cs.

(** A literal string. *)
Fixpoint lit (s : string) : regex :=
  match s with
  | EmptyString => Eps
  | String c s' => Seq (Chr (only c)) (lit s')
  end.

(** The concatenation of several patterns. *)
Fixpoint cat (rs : list regex) : regex :=
  match rs with
  | [] => Eps
  | [r] => r
  | r :: rs' => Seq r (cat rs')
  end.

Definition Plus (r : regex) : regex := Seq r (Star r).   (* r+ *)
Definition Opt (r : regex) : regex := Alt r Eps.         (* r? *)
Fixpoint Rep (n : nat) (r : regex) : regex :=            (* r{n} *)
  match n with
  | 0 => Eps
  | S n' => Seq r (Rep n' r)
  end.

(** The groups captured so far: group number and text. *)
Definition groups := list (nat * string).

(** [matchk r s g k]: match [r] at the front of [s], then continue with
    [k] on the rest; [None] makes the matcher backtrack. *)
Fixpoint matchk (r : regex) (s : string) (g : groups)
         (k : string -> groups -> option groups) {struct r} : option groups :=
  match r with
  | Eps => k s g
  | Chr p =>
      match s with
      | String c s' => if p c then k s' g else None
      | EmptyString => None
      end
  | Seq r1 r2 => matchk r1 s g (fun s1 g1 => matchk r2 s1 g1 k)
  | Alt r1 r2 =>
      match matchk r1 s g k with
      | Some m => Some m
      | None => matchk r2 s g k
      end
  | Star r1 =>
      (fix star (fuel : nat) (s : string) (g : groups) {struct fuel} : option groups :=
         match fuel with
         | 0 => k s g
         | S fuel' =>
             match matchk r1 s g
                     (fun s1 g1 =>
                        if String.length s1 <? String.length s
                        then star fuel' s1 g1 else None) with
             | Some m => Some m
             | None => k s g
             end
         end) (String.length s) s g
  | Group n r1 =>
      matchk r1 s g
        (fun s1 g1 =>
           k s1 ((n, PyStr.take (String.length s - String.length s1) s) :: g1))
  | Eol =>
      match s with
      | EmptyString => k s g
      | String c EmptyString => if PyStr.code c =? 10 then k s g else None
      | _ => None
      end
  end.

(** [re.match(r, s)]: anchored at the start of [s] only. *)
Definition match_ (r : regex) (s : string) : option groups :=
  matchk r s [] (fun _ g => Some g).

(** [m.group(n)] for a group that took part in the match. *)
Fixpoint group (n : nat) (m : groups) : string :=
  match m with
  | [] => ""
  | (i, t) :: m' => if i =? n then t else group n m'
  end.

Definition matches (r : regex) (s : string) : bool :=
  match match_ r s with Some _ => true | None => false end.

End Re.

(* ------------------------------------------------------------------ *)
(** ** Exceptions and the parser monad *)

(** Modelled from the spec: [webvtt/errors.py] is not among the sources.
    The two error kinds of the library, each carrying its message.
    [TypeError] and [IndexError] are the Python run-time errors raised by
    subscripting [None] and by indexing a list out of range. *)
Inductive exn : Type :=
| MalformedFileError (msg : string)
| MalformedCaptionError (msg : string)
| TypeError
| IndexError.

Inductive result (A : Type) : Type :=
| Return (a : A)
| Raise (e : exn).
Arguments Return {A} a.
Arguments Raise {A} e.

(** A method of an instance of type [St]: it runs from the instance's
    state to a new state, and returns or raises.  The state reached when
    an exception is raised is kept: Python does not undo assignments. *)
Definition M (St A : Type) : Type := St -> St * result A.

Definition ret {St A} (a : A) : M St A := fun self => (self, Return a).

Definition raise {St A} (e : exn) : M St A := fun self => (self, Raise e).

Definition bind {St A B} (m : M St A) (f : A -> M St B) : M St B :=
  fun self =>
    match m self with
    | (self', Return a) => f a self'
    | (self', Raise e) => (self', Raise e)
    end.

(** Lifting of a computation that does not touch the instance. *)
Definition lift {St A} (r : result A) : M St A := fun self => (self, r).

(** An assignment to attributes of the instance. *)
Definition modify {St} (f : St -> St) : M St unit := fun self => (f self, Return tt).

Definition get {St} : M St St := fun self => (self, Return self).

Notation "x <- m ;; k" := (bind m (fun x => k))
  (at level 61, m at next level, right associativity).
Notation "m ;;; k" := (bind m (fun _ => k))
  (at level 61, right associativity).

(** [for index, x in enumerate(xs, start): acc = body(index, x, acc)]:
    the loop threads the local variables [acc] the body assigns. *)
Fixpoint for_enumerate {St X A} (body : nat -> X -> A -> M St A)
         (index : nat) (xs : list X) (acc : A) : M St A :=
  match xs with
  | [] => ret acc
  | x :: xs' => acc' <- body index x acc ;; for_enumerate body (S index) xs' acc'
  end.

(** [for x in xs: acc = body(x, acc)]. *)
Fixpoint for_each {St X A} (body : X -> A -> M St A) (xs : list X) (acc : A) : M St A :=
  match xs with
  | [] => ret acc
  | x :: xs' => acc' <- body x acc ;; for_each body xs' acc'
  end.

(* ------------------------------------------------------------------ *)
(** ** The records of [webvtt/structures.py] *)

Module Caption.

(** Modelled from the spec: the class [Caption] of [webvtt/structures.py]
    is not among the sources.  A caption has an optional [identifier],
    the timestamps [start] and [end] as strings, its text [lines] and
    the flag [flagEndSentence]; its [text] is derived: the lines joined
    by a single space. *)
Record t : Type := mk {
  identifier : option string;
  start : string;
  end_ : string;
  lines : list string;
  flagEndSentence : bool
}.

(** [Caption(start, end)]. *)
Definition new (start end_ : string) : t :=
  mk None start end_ [] false.

(** [Caption()]: both timestamps at their default. *)
Definition new0 : t := new "00:00:00.000" "00:00:00.000".

(** [c.add_line(line)]. *)
Definition add_line (line : string) (c : t) : t :=
  mk (identifier c) (start c) (end_ c) (lines c ++ [line]) (flagEndSentence c).

(** [c.text]. *)
Definition text (c : t) : string := PyStr.join " " (lines c).

(** [c.text = value]: the text is replaced; as the text is derived from
    the lines, [value] becomes the caption's only line. *)
Definition set_text (value : string) (c : t) : t :=
  mk (identifier c) (start c) (end_ c) [value] (flagEndSentence c).

Definition set_identifier (i : string) (c : t) : t :=
  mk (Some i) (start c) (end_ c) (lines c) (flagEndSentence c).

Definition set_start (s : string) (c : t) : t :=
  mk (identifier c) s (end_ c) (lines c) (flagEndSentence c).

Definition set_end (e : string) (c : t) : t :=
  mk (identifier c) (start c) e (lines c) (flagEndSentence c).

Definition set_flagEndSentence (b : bool) (c : t) : t :=
  mk (identifier c) (start c) (end_ c) (lines c) b.

End Caption.

Module Block.

(** Modelled from the spec: the class [Block] of [webvtt/structures.py]
    is not among the sources.  A run of lines and the 1-based number of
    the line it starts at. *)
Record t : Type := mk {
  line_number : nat;
  lines : list string
}.

(** [Block(index)]. *)
Definition new (index : nat) : t := mk index [].

End Block.

Module Style.

(** Modelled from the spec: the class [Style] of [webvtt/structures.py]
    is not among the sources.  The raw lines of a style block. *)
Record t : Type := mk {
  lines : list string
}.

End Style.

(** [xs[i:]] is [skipn i xs] and [xs[:i]] is [firstn i xs]; a list is true
    when it is not empty. *)
Definition nonempty {A} (xs : list A) : bool :=
  match xs with
  | [] => false
  | _ :: _ => true
  end.

(* ------------------------------------------------------------------ *)
(** ** [class TextBasedParser]: the generic line-classifying parser *)

Module TextBasedParser.

(** The instance: [self.captions] ([self.parse_options] is never read). *)
Record t : Type := mk {
  captions : list Caption.t
}.

(** [__init__]. *)
Definition __init__ : t := mk [].

(** What a child class provides: the class attributes and the methods
    the generic class leaves to it. *)
Class Child : Type := {
  TIMEFRAME_LINE_PATTERN : Re.regex;
  (* PARSER_OPTIONS.get('ignore_empty_captions', False) *)
  ignore_empty_captions : bool;
  _is_timeframe_line : string -> bool;
  _should_skip_line : string -> nat -> option Caption.t -> bool;
  _validate : list string -> result unit
}.

Definition _validate_timeframe_line (pattern : Re.regex) (line : string)
  : option Re.groups :=
  Re.match_ pattern line.

(** Parse timeframe line and return start and end timestamps. *)
Definition _parse_timeframe_line (pattern : Re.regex) (line : string)
  : result (string * string) :=
  match _validate_timeframe_line pattern line with
  | None => Raise (MalformedCaptionError "Invalid time format")
  | Some tf => Return (Re.group 1 tf, Re.group 2 tf)
  end.

(** [_read_content_lines] once the lines are read and stripped of their
    newline. *)
Definition _read_content_lines (lines : list string) : result (list string) :=
  if negb (nonempty lines)
  then Raise (MalformedFileError "The file is empty.")
  else Return lines.

Section Parse.
Context {child : Child}.

Definition append (c : Caption.t) (self : t) : t :=
  mk (captions self ++ [c]).

(** The body of the loop of [_parse]; the local variable [c] is
    threaded, [continue] returns it as it is. *)
Definition _parse_line (index : nat) (line : string) (c : option Caption.t)
  : M t (option Caption.t) :=
  if _is_timeframe_line line then
    match _parse_timeframe_line TIMEFRAME_LINE_PATTERN line with
    | Return (start, end_) => ret (Some (Caption.new start end_))
    | Raise (MalformedCaptionError e) =>
        raise (MalformedCaptionError
                 (e ++ " in line " ++ PyStr.of_nat (index + 1)))
    | Raise e => raise e
    end
  else if _should_skip_line line index c then
    ret c
  else if PyStr.truthy line then
    match c with
    | None =>
        raise (MalformedCaptionError
                 ("Caption missing timeframe in line "
                    ++ PyStr.of_nat (index + 1) ++ "."))
    | Some c' => ret (Some (Caption.add_line line c'))
    end
  else
    match c with
    | None => ret None
    | Some c' =>
        if negb (nonempty (Caption.lines c')) then
          if ignore_empty_captions then ret None
          else
            raise (MalformedCaptionError
                     ("Caption missing text in line "
                        ++ PyStr.of_nat (index + 1) ++ "."))
        else
          modify (append c') ;;; ret None
    end.

Definition _parse (lines : list string) : M t unit :=
  modify (fun _ => mk []) ;;;
  c <- for_enumerate _parse_line 0 lines None ;;
  match c with
  | Some c' =>
      if nonempty (Caption.lines c') then modify (append c') else ret tt
  | None => ret tt
  end.

(** [read_from_buffer], from the lines the buffer holds. *)
Definition read_from_buffer (buffer : list string) : M t unit :=
  content <- lift (_read_content_lines buffer) ;;
  lift (_validate content) ;;;
  _parse content.

End Parse.

End TextBasedParser.

(* ------------------------------------------------------------------ *)
(** ** [class SRTParser] *)

Module SRTParser.
Import TextBasedParser.

Definition d : Re.regex := Re.Chr Re.digit.
Definition s : Re.regex := Re.Chr Re.space.

(** [(\d+:\d{2}:\d{2},\d{3})] *)
Definition timestamp : Re.regex :=
  Re.cat [Re.Plus d; Re.lit ":"; Re.Rep 2 d; Re.lit ":"; Re.Rep 2 d;
          Re.lit ","; Re.Rep 3 d].

(** ['\s*(\d+:\d{2}:\d{2},\d{3})\s*-->\s*(\d+:\d{2}:\d{2},\d{3})'] *)
Definition pattern : Re.regex :=
  Re.cat [Re.Star s; Re.Group 1 timestamp; Re.Star s; Re.lit "-->";
          Re.Star s; Re.Group 2 timestamp].

Definition validate (lines : list string) : result unit :=
  match lines with
  | line0 :: line1 :: _ =>
      if negb (String.eqb line0 "1") || negb (Re.matches pattern line1)
      then Raise (MalformedFileError "The file does not have a valid format.")
      else Return tt
  | _ => (* len(lines) < 2 *)
      Raise (MalformedFileError "The file does not have a valid format.")
  end.

#[export] Instance child : Child := {|
  TIMEFRAME_LINE_PATTERN := pattern;
  ignore_empty_captions := true;
  _is_timeframe_line := fun line => PyStr.contains "-->" line;
  _should_skip_line := fun line index caption =>
    match caption with
    | None => PyStr.isdigit line
    | Some _ => false
    end;
  _validate := validate
|}.

End SRTParser.

(* ------------------------------------------------------------------ *)
(** ** [class SBVParser] *)

Module SBVParser.
Import TextBasedParser.

Definition d : Re.regex := Re.Chr Re.digit.

(** [(\d+:\d{2}:\d{2}.\d{3})] *)
Definition timestamp : Re.regex :=
  Re.cat [Re.Plus d; Re.lit ":"; Re.Rep 2 d; Re.lit ":"; Re.Rep 2 d;
          Re.Chr Re.dot; Re.Rep 3 d].

(** ['\s*(\d+:\d{2}:\d{2}.\d{3}),(\d+:\d{2}:\d{2}.\d{3})'] *)
Definition pattern : Re.regex :=
  Re.cat [Re.Star (Re.Chr Re.space); Re.Group 1 timestamp; Re.lit ",";
          Re.Group 2 timestamp].

Definition validate (lines : list string) : result unit :=
  match lines with
  | [] => Raise IndexError
  | line0 :: _ =>
      if negb (Re.matches pattern line0)
      then Raise (MalformedFileError "The file does not have a valid format")
      else Return tt
  end.

(** The generic class's [_should_skip_line] is inherited, and so is its
    empty [PARSER_OPTIONS]. *)
#[export] Instance child : Child := {|
  TIMEFRAME_LINE_PATTERN := pattern;
  ignore_empty_captions := false;
  _is_timeframe_line := fun line => Re.matches pattern line;
  _should_skip_line := fun _ _ _ => false;
  _validate := validate
|}.

End SBVParser.

(* ------------------------------------------------------------------ *)
(** ** What [WebVTTParser] and [WebVTTParserCDP] have in common

    The two classes declare the same attributes and carry the same text
    for [_compute_blocks], [_validate], [_is_cue_timings_line],
    [_is_cue_block], [_is_comment_block] and [_is_style_block]. *)

Module BlockParser.

(** The instance: [self.captions], [self.styles] and, once
    [_compute_blocks] has run, [self.blocks]. *)
Record t : Type := mk {
  captions : list Caption.t;
  styles : list Style.t;
  blocks : list Block.t
}.

(** [__init__]: [captions] and [styles] are empty lists. *)
Definition __init__ : t := mk [] [] [].

Definition d : Re.regex := Re.Chr Re.digit.
Definition s : Re.regex := Re.Chr Re.space.

(** [((?:\d+:)?\d{2}:\d{2}.\d{3})] *)
Definition timestamp : Re.regex :=
  Re.cat [Re.Opt (Re.cat [Re.Plus d; Re.lit ":"]);
          Re.Rep 2 d; Re.lit ":"; Re.Rep 2 d; Re.Chr Re.dot; Re.Rep 3 d].

(** ['\s*((?:\d+:)?\d{2}:\d{2}.\d{3})\s*-->\s*((?:\d+:)?\d{2}:\d{2}.\d{3})'] *)
Definition TIMEFRAME_LINE_PATTERN : Re.regex :=
  Re.cat [Re.Star s; Re.Group 1 timestamp; Re.Star s; Re.lit "-->";
          Re.Star s; Re.Group 2 timestamp].

(** ['NOTE(?:\s.+|$)'] *)
Definition COMMENT_PATTERN : Re.regex :=
  Re.cat [Re.lit "NOTE";
          Re.Alt (Re.cat [s; Re.Plus (Re.Chr Re.dot)]) Re.Eol].

(** ['STYLE[ \t]*$'] *)
Definition STYLE_PATTERN : Re.regex :=
  Re.cat [Re.lit "STYLE";
          Re.Star (Re.Chr (Re.one_of [" "%char; "009"%char]));
          Re.Eol].

(** [blocks[-1] = f(blocks[-1])]: an update of the last block in place. *)
Fixpoint update_last (f : Block.t -> Block.t) (blocks : list Block.t)
  : list Block.t :=
  match blocks with
  | [] => []
  | [b] => [f b]
  | b :: blocks' => b :: update_last f blocks'
  end.

Definition set_line_number (index : nat) (b : Block.t) : Block.t :=
  Block.mk index (Block.lines b).

Definition append_line (line : string) (b : Block.t) : Block.t :=
  Block.mk (Block.line_number b) (Block.lines b ++ [line]).

(** The body of the loop of [_compute_blocks] on the local [blocks];
    [blocks[-1]] is read when [blocks] is not empty only. *)
Definition _compute_blocks_line (index : nat) (line : string)
           (blocks : list Block.t) : list Block.t :=
  if PyStr.truthy line then
    let blocks1 :=
      if negb (nonempty blocks) then blocks ++ [Block.new index] else blocks in
    let blocks2 :=
      if negb (nonempty (Block.lines (last blocks1 (Block.new index))))
      then update_last (set_line_number index) blocks1 else blocks1 in
    update_last (append_line line) blocks2
  else
    blocks ++ [Block.new index].

Fixpoint _compute_blocks_loop (index : nat) (lines : list string)
         (blocks : list Block.t) : list Block.t :=
  match lines with
  | [] => blocks
  | line :: lines' =>
      _compute_blocks_loop (S index) lines'
        (_compute_blocks_line index line blocks)
  end.

(** The value [_compute_blocks] assigns to [self.blocks]: the blocks
    that have lines, but the first of them (the signature). *)
Definition computed_blocks (lines : list string) : list Block.t :=
  skipn 1 (filter (fun x => nonempty (Block.lines x))
                  (_compute_blocks_loop 1 lines [])).

Definition _compute_blocks (lines : list string) : M t unit :=
  modify (fun self => mk (captions self) (styles self) (computed_blocks lines)).

Definition _validate (lines : list string) : result unit :=
  match lines with
  | [] => Raise IndexError
  | line0 :: _ =>
      if negb (Re.matches (Re.lit "WEBVTT") line0)
      then Raise (MalformedFileError "The file does not have a valid format")
      else Return tt
  end.

Definition _is_cue_timings_line (line : string) : bool :=
  PyStr.contains "-->" line.

(** Returns True if it is a cue block (one of the two first lines being
    a cue timing line). *)
Definition _is_cue_block (block : Block.t) : bool :=
  existsb _is_cue_timings_line (firstn 2 (Block.lines block)).

(** [re.match(pattern, block.lines[0])], as a truth value. *)
Definition match_first_line (pattern : Re.regex) (block : Block.t)
  : result bool :=
  match Block.lines block with
  | [] => Raise IndexError
  | line0 :: _ => Return (Re.matches pattern line0)
  end.

(** Returns True if it is a comment block. *)
Definition _is_comment_block (block : Block.t) : result bool :=
  match_first_line COMMENT_PATTERN block.

(** Returns True if it is a style block. *)
Definition _is_style_block (block : Block.t) : result bool :=
  match_first_line STYLE_PATTERN block.

Definition append (c : Caption.t) (self : t) : t :=
  mk (captions self ++ [c]) (styles self) (blocks self).

Definition append_style (st : Style.t) (self : t) : t :=
  mk (captions self) (styles self ++ [st]) (blocks self).

Definition reset_captions (self : t) : t :=
  mk [] (styles self) (blocks self).

(** The branches of [_parse] for a block that is not a cue block; they
    read the same in both classes. *)
Definition _parse_other_block (block : Block.t) : M t unit :=
  is_comment <- lift (_is_comment_block block) ;;
  if is_comment then ret tt
  else
    is_style <- lift (_is_style_block block) ;;
    if is_style then
      self <- get ;;
      if nonempty (captions self) then
        raise (MalformedFileError
                 ("Style block defined after the first cue in line "
                    ++ PyStr.of_nat (Block.line_number block) ++ "."))
      else
        modify (append_style (Style.mk (skipn 1 (Block.lines block))))
    else if List.length (Block.lines block) =? 1 then
      raise (MalformedCaptionError
               ("Standalone cue identifier in line "
                  ++ PyStr.of_nat (Block.line_number block) ++ "."))
    else
      raise (MalformedCaptionError
               ("Missing timing cue in line "
                  ++ PyStr.of_nat (Block.line_number block + 1) ++ ".")).

End BlockParser.

(* ------------------------------------------------------------------ *)
(** ** [class WebVTTParser] *)

Module WebVTTParser.
Import BlockParser.

(** The body of the loop of [_parse_cue_block], on the locals [caption]
    and [cue_timings]. *)
Definition _parse_cue_line (block : Block.t) (line_number : nat)
           (line : string) (acc : Caption.t * option (string * string))
  : result (Caption.t * option (string * string)) :=
  let (caption, cue_timings) := acc in
  if _is_cue_timings_line line then
    match cue_timings with
    | None =>
        match TextBasedParser._parse_timeframe_line
                TIMEFRAME_LINE_PATTERN line with
        | Return tf => Return (caption, Some tf)
        | Raise (MalformedCaptionError e) =>
            Raise (MalformedCaptionError
                     (e ++ " in line "
                        ++ PyStr.of_nat (Block.line_number block + line_number)))
        | Raise e => Raise e
        end
    | Some _ =>
        Raise (MalformedCaptionError
                 ("--> found in line "
                    ++ PyStr.of_nat (Block.line_number block + line_number)))
    end
  else if line_number =? 0 then
    Return (Caption.set_identifier line caption, cue_timings)
  else
    Return (Caption.add_line line caption, cue_timings).

Fixpoint _parse_cue_lines (block : Block.t) (line_number : nat)
         (lines : list string) (acc : Caption.t * option (string * string))
  : result (Caption.t * option (string * string)) :=
  match lines with
  | [] => Return acc
  | line :: lines' =>
      match _parse_cue_line block line_number line acc with
      | Return acc' => _parse_cue_lines block (S line_number) lines' acc'
      | Raise e => Raise e
      end
  end.

Definition _parse_cue_block (block : Block.t) : result Caption.t :=
  match _parse_cue_lines block 0 (Block.lines block) (Caption.new0, None) with
  | Raise e => Raise e
  | Return (caption, None) => Raise TypeError   (* cue_timings[0] on None *)
  | Return (caption, Some (start, end_)) =>
      Return (Caption.set_end end_ (Caption.set_start start caption))
  end.

(** The body of the loop of [_parse]. *)
Definition _parse_block (block : Block.t) (_ : unit) : M t unit :=
  if _is_cue_block block then
    caption <- lift (_parse_cue_block block) ;;
    modify (append caption)
  else
    _parse_other_block block.

Definition _parse (lines : list string) : M t unit :=
  modify reset_captions ;;;
  _compute_blocks lines ;;;
  self <- get ;;
  for_each _parse_block (blocks self) tt.

Definition read_from_buffer (buffer : list string) : M t unit :=
  content <- lift (TextBasedParser._read_content_lines buffer) ;;
  lift (_validate content) ;;;
  _parse content.

End WebVTTParser.

(* ------------------------------------------------------------------ *)
(** ** [class WebVTTParserCDP]: the sentence-grouping parser *)

Module WebVTTParserCDP.
Import BlockParser.

(** [r'.*[.!?]'] *)
Definition IDENTIFY_SENTENCE : Re.regex :=
  Re.cat [Re.Star (Re.Chr Re.dot);
          Re.Chr (Re.one_of ["."%char; "!"%char; "?"%char])].

Definition _group_by_sentence (line : string) : bool :=
  Re.matches IDENTIFY_SENTENCE line.

Definition _parse_cue_line (block : Block.t) (line_number : nat)
           (line : string) (acc : Caption.t * option (string * string))
  : result (Caption.t * option (string * string)) :=
  let (caption, cue_timings) := acc in
  if _is_cue_timings_line line then
    match cue_timings with
    | None =>
        match TextBasedParser._parse_timeframe_line
                TIMEFRAME_LINE_PATTERN line with
        | Return tf => Return (caption, Some tf)
        | Raise (MalformedCaptionError e) =>
            Raise (MalformedCaptionError
                     (e ++ " in line "
                        ++ PyStr.of_nat (Block.line_number block + line_number)))
        | Raise e => Raise e
        end
    | Some _ =>
        Raise (MalformedCaptionError
                 ("--> found in line "
                    ++ PyStr.of_nat (Block.line_number block + line_number)))
    end
  else if line_number =? 0 then
    Return (Caption.set_identifier line caption, cue_timings)
  else
    let caption1 :=
      if _group_by_sentence line
      then Caption.set_flagEndSentence true caption else caption in
    Return (Caption.add_line line caption1, cue_timings).

Fixpoint _parse_cue_lines (block : Block.t) (line_number : nat)
         (lines : list string) (acc : Caption.t * option (string * string))
  : result (Caption.t * option (string * string)) :=
  match lines with
  | [] => Return acc
  | line :: lines' =>
      match _parse_cue_line block line_number line acc with
      | Return acc' => _parse_cue_lines block (S line_number) lines' acc'
      | Raise e => Raise e
      end
  end.

Definition _parse_cue_block (block : Block.t) : result Caption.t :=
  match _parse_cue_lines block 0 (Block.lines block) (Caption.new0, None) with
  | Raise e => Raise e
  | Return (caption, None) => Raise TypeError   (* cue_timings[0] on None *)
  | Return (caption, Some (start, end_)) =>
      Return (Caption.set_end end_ (Caption.set_start start caption))
  end.

(** The locals of [_parse] that live across blocks: [group_captions]
    and [start_time] ([caption] is assigned before each use). *)
Record locals : Type := mk_locals {
  group_captions : string;
  start_time : string
}.

(** The body of the loop of [_parse]. *)
Definition _parse_block (block : Block.t) (l : locals) : M t locals :=
  if _is_cue_block block then
    caption <- lift (_parse_cue_block block) ;;
    (* Beginning of sentence so grab start *)
    let start_time1 :=
      if String.eqb (group_captions l) "" then Caption.start caption
      else start_time l in
    let group_captions1 :=
      (group_captions l ++ " " ++ Caption.text caption)%string in
    (* if it is the end of a sentence group *)
    if Caption.flagEndSentence caption then
      let caption1 := Caption.set_text group_captions1 caption in
      let caption2 := Caption.set_start start_time1 caption1 in
      modify (append caption2) ;;;
      ret (mk_locals "" start_time1)
    else
      ret (mk_locals group_captions1 start_time1)
  else
    _parse_other_block block ;;; ret l.

Definition _parse (lines : list string) : M t unit :=
  modify reset_captions ;;;
  _compute_blocks lines ;;;
  self <- get ;;
  for_each _parse_block (blocks self) (mk_locals "" "00:00:00.000") ;;;
  ret tt.

Definition read_from_buffer (buffer : list string) : M t unit :=
  content <- lift (TextBasedParser._read_content_lines buffer) ;;
  lift (_validate content) ;;;
  _parse content.

End WebVTTParserCDP.

(* ------------------------------------------------------------------ *)
(** ** Predicates of the statements *)

(** A caption with at least one line of text. *)
Definition has_text (c : Caption.t) : Prop :=
  1 <= List.length (Caption.lines c).

(** [line_number] is the 1-based number, in [lines], of the first line of
    [block]. *)
Definition starts_at (lines : list string) (block : Block.t) : Prop :=
  1 <= Block.line_number block
  /\ exists first,
       hd_error (Block.lines block) = Some first
       /\ nth_error lines (Block.line_number block - 1) = Some first.

(** Every block that has lines starts at its [line_number]: what the
    loop of [_compute_blocks] keeps true of its local [blocks]. *)
Definition blocks_start_at (all : list string) (blocks : list Block.t) : Prop :=
  forall b, In b blocks -> Block.lines b <> [] -> starts_at all b.

(** A cue block the sentence-grouping parser reads without error and
    none of whose text lines matches the terminal-punctuation pattern. *)
Definition unterminated_cue (block : Block.t) : Prop :=
  BlockParser._is_cue_block block = true
  /\ exists c,
       WebVTTParserCDP._parse_cue_block block = Return c
       /\ Forall (fun line => WebVTTParserCDP._group_by_sentence line = false)
                 (Caption.lines c).

(* ------------------------------------------------------------------ *)
(** ** The line source *)

Module LineSource.

(** [codecs.BOM_UTF8]. *)
Definition BOM_UTF8 : list Byte.byte := [Byte.xef; Byte.xbb; Byte.xbf].

(** [raw.startswith(prefix)] on bytes. *)
Fixpoint bytes_startswith (prefix raw : list Byte.byte) : bool :=
  match prefix, raw with
  | [], _ => true
  | a :: prefix', b :: raw' => Byte.eqb a b && bytes_startswith prefix' raw'
  | _ :: _, [] => false
  end.

(** [_read_file_encoding], from the bytes of the file: [os.path.getsize]
    is their number and [f.read(first_bytes)] the first of them. *)
Definition _read_file_encoding (file : list Byte.byte) : string :=
  let first_bytes := Nat.min 32 (List.length file) in
  let raw := firstn first_bytes file in
  if bytes_startswith BOM_UTF8 raw then "utf-8-sig" else "utf-8".

(** [line.rstrip('\n')]: the line without the newlines it ends with. *)
Fixpoint rstrip_newline (line : string) : string :=
  match line with
  | EmptyString => EmptyString
  | String c line' =>
      match rstrip_newline line' with
      | EmptyString => if PyStr.code c =? 10 then EmptyString else String c EmptyString
      | rest => String c rest
      end
  end.

(** [_read_content_lines], from the list [file_obj.readlines()] returns. *)
Definition _read_content_lines (readlines : list string) : result (list string) :=
  let lines := map rstrip_newline readlines in
  if negb (nonempty lines)
  then Raise (MalformedFileError "The file is empty.")
  else Return lines.

(** [s.endswith('\n')]. *)
Fixpoint ends_with_newline (s : string) : bool :=
  match s with
  | EmptyString => false
  | String c EmptyString => PyStr.code c =? 10
  | String _ s' => ends_with_newline s'
  end.

End LineSource.

(* ------------------------------------------------------------------ *)
(** ** More predicates of the statements *)

(** [rest] is what is left of [s] after some of its first characters. *)
Definition is_suffix (rest s : string) : Prop :=
  exists before, s = (before ++ rest)%string.

(** A cue as the generic parser reads it: the lines it skips before the
    timing line, the timing line with the two timestamps it holds, and
    the lines of text. *)
Record cue : Type := mk_cue {
  cue_skipped : list string;
  cue_timing : string;
  cue_start : string;
  cue_end : string;
  cue_text : list string
}.

(** The lines of a cue up to its last line of text, and with the blank
    line that closes it. *)
Definition cue_lines_open (q : cue) : list string :=
  cue_skipped q ++ cue_timing q :: cue_text q.

Definition cue_lines (q : cue) : list string :=
  cue_lines_open q ++ [""%string].

(** The caption a cue stands for. *)
Definition cue_caption (q : cue) : Caption.t :=
  Caption.mk None (cue_start q) (cue_end q) (cue_text q) false.

(** The cue is written as the child class expects it: the lines before
    the timing line are skipped while no caption is open, the timing line
    is one and parses to the two timestamps, and there is text, no line
    of which is blank or a timing line. *)
Definition well_formed_cue {child : TextBasedParser.Child} (q : cue) : Prop :=
  Forall (fun line =>
            TextBasedParser._is_timeframe_line line = false
            /\ forall index, TextBasedParser._should_skip_line line index None = true)
         (cue_skipped q)
  /\ TextBasedParser._is_timeframe_line (cue_timing q) = true
  /\ TextBasedParser._parse_timeframe_line
       TextBasedParser.TIMEFRAME_LINE_PATTERN (cue_timing q)
     = Return (cue_start q, cue_end q)
  /\ cue_text q <> []
  /\ Forall (fun line =>
               PyStr.truthy line = true
               /\ TextBasedParser._is_timeframe_line line = false)
            (cue_text q).

(** What the generic parser reports, with the 1-based number [n] of the
    line [line] it reports it for. *)
Inductive generic_error {child : TextBasedParser.Child}
          (n : nat) (line : string) : exn -> Prop :=
| invalid_time_format :
    TextBasedParser._is_timeframe_line line = true ->
    Re.matches TextBasedParser.TIMEFRAME_LINE_PATTERN line = false ->
    generic_error n line
      (MalformedCaptionError ("Invalid time format in line " ++ PyStr.of_nat n))
| missing_timeframe :
    TextBasedParser._is_timeframe_line line = false ->
    PyStr.truthy line = true ->
    generic_error n line
      (MalformedCaptionError
         ("Caption missing timeframe in line " ++ PyStr.of_nat n ++ "."))
| missing_text :
    TextBasedParser._is_timeframe_line line = false ->
    line = ""%string ->
    TextBasedParser.ignore_empty_captions = false ->
    generic_error n line
      (MalformedCaptionError
         ("Caption missing text in line " ++ PyStr.of_nat n ++ ".")).

(** [block] is a run of lines of the input, none of them blank, that
    starts at line [line_number] and ends by line [upto]. *)
Definition is_run (lines : list string) (upto : nat) (block : Block.t) : Prop :=
  1 <= Block.line_number block
  /\ Block.line_number block + List.length (Block.lines block) <= S upto
  /\ firstn (List.length (Block.lines block))
            (skipn (Block.line_number block - 1) lines)
     = Block.lines block
  /\ Forall (fun line => PyStr.truthy line = true) (Block.lines block).

(** What the loop of [_compute_blocks] keeps true of its local [blocks]
    before it reads line [index]: the blocks that have lines are runs
    that end before that line, and the last block, when it has lines,
    ends right before it. *)
Definition blocks_are_runs (lines : list string) (index : nat)
           (blocks : list Block.t) : Prop :=
  (forall b, In b blocks -> Block.lines b <> [] -> is_run lines (index - 1) b)
  /\ (forall init b, blocks = init ++ [b] -> Block.lines b <> [] ->
      Block.line_number b + List.length (Block.lines b) = index).

(** A line without the timing marker. *)
Definition no_marker (line : string) : Prop :=
  BlockParser._is_cue_timings_line line = false.

(** [c] with more lines of text. *)
Definition add_lines (text : list string) (c : Caption.t) : Caption.t :=
  Caption.mk (Caption.identifier c) (Caption.start c) (Caption.end_ c)
             (Caption.lines c ++ text) (Caption.flagEndSentence c).

(** The caption the loop of [_parse_cue_block] holds after the lines
    [pre], none of which has the marker, read from line [line_number] of
    the block on: the first line of the block is the identifier, the
    others are text. *)
Definition read_text (line_number : nat) (pre : list string) (c : Caption.t)
  : Caption.t :=
  if line_number =? 0 then
    match pre with
    | [] => c
    | line0 :: pre' => add_lines pre' (Caption.set_identifier line0 c)
    end
  else add_lines pre c.

(** What [_parse_cue_block] of [WebVTTParser] does with a block, by the
    lines of the block that hold the timing marker. *)
Inductive cue_block_outcome (block : Block.t) : result Caption.t -> Prop :=
| cue_read pre timing post start end_ :
    Block.lines block = pre ++ timing :: post ->
    Forall no_marker pre ->
    BlockParser._is_cue_timings_line timing = true ->
    Forall no_marker post ->
    TextBasedParser._parse_timeframe_line
      BlockParser.TIMEFRAME_LINE_PATTERN timing = Return (start, end_) ->
    cue_block_outcome block
      (Return (Caption.mk (hd_error pre) start end_ (skipn 1 pre ++ post) false))
| cue_invalid_time pre timing post :
    Block.lines block = pre ++ timing :: post ->
    Forall no_marker pre ->
    BlockParser._is_cue_timings_line timing = true ->
    Re.matches BlockParser.TIMEFRAME_LINE_PATTERN timing = false ->
    cue_block_outcome block
      (Raise (MalformedCaptionError
                ("Invalid time format in line "
                   ++ PyStr.of_nat (Block.line_number block + List.length pre))))
| cue_second_marker pre timing mid second post :
    Block.lines block = pre ++ timing :: mid ++ second :: post ->
    Forall no_marker pre ->
    BlockParser._is_cue_timings_line timing = true ->
    Re.matches BlockParser.TIMEFRAME_LINE_PATTERN timing = true ->
    Forall no_marker mid ->
    BlockParser._is_cue_timings_line second = true ->
    cue_block_outcome block
      (Raise (MalformedCaptionError
                ("--> found in line "
                   ++ PyStr.of_nat (Block.line_number block
                                    + (List.length pre + 1 + List.length mid)))))
| cue_no_marker :
    Forall no_marker (Block.lines block) ->
    cue_block_outcome block (Raise TypeError).

(** One of the two errors of the library. *)
Definition library_error (e : exn) : Prop :=
  exists msg, e = MalformedFileError msg \/ e = MalformedCaptionError msg.

(** The first line of the block matches the pattern. *)
Definition first_line_matches (pattern : Re.regex) (block : Block.t) : bool :=
  match Block.lines block with
  | [] => false
  | line0 :: _ => Re.matches pattern line0
  end.

(** The block is one [_parse] takes for a style block: no cue block, no
    comment block, and headed by the style header. *)
Definition taken_for_style (block : Block.t) : bool :=
  negb (BlockParser._is_cue_block block)
  && negb (first_line_matches BlockParser.COMMENT_PATTERN block)
  && first_line_matches BlockParser.STYLE_PATTERN block.

(** The style record [_parse] makes of a style block. *)
Definition style_of (block : Block.t) : Style.t :=
  Style.mk (skipn 1 (Block.lines block)).

(** The accumulator of the sentence-grouping parser after the captions
    [cs], from the accumulator [g]: each caption adds a space and its
    text. *)
Definition group_text_from (g : string) (cs : list Caption.t) : string :=
  fold_left (fun acc c => (acc ++ " " ++ Caption.text c)%string) cs g.

(** The sentence-grouping parser reads the cue block [fst p] as the
    caption [snd p]. *)
Definition reads_cue (p : Block.t * Caption.t) : Prop :=
  BlockParser._is_cue_block (fst p) = true
  /\ WebVTTParserCDP._parse_cue_block (fst p) = Return (snd p).

(** A sentence: cue blocks with their captions, the last of which alone
    has the flag. *)
Definition sentence : Type :=
  (list (Block.t * Caption.t) * (Block.t * Caption.t))%type.

Definition sentence_blocks (s : sentence) : list Block.t :=
  map fst (fst s) ++ [fst (snd s)].

Definition sentence_captions (s : sentence) : list Caption.t :=
  map snd (fst s) ++ [snd (snd s)].

Definition well_formed_sentence (s : sentence) : Prop :=
  Forall (fun p => reads_cue p /\ Caption.flagEndSentence (snd p) = false) (fst s)
  /\ reads_cue (snd s)
  /\ Caption.flagEndSentence (snd (snd s)) = true.

(** The caption of a sentence: the last cue's caption, with the text of
    all the cues and the start of the first. *)
Definition sentence_caption (s : sentence) : Caption.t :=
  Caption.set_start
    (Caption.start (hd (snd (snd s)) (sentence_captions s)))
    (Caption.set_text (group_text_from "" (sentence_captions s)) (snd (snd s))).

(** A caption as the sentence-grouping parser appends it. *)
Definition grouped_caption (c : Caption.t) : Prop :=
  Caption.flagEndSentence c = true
  /\ exists rest, Caption.text c = String " " rest.

(** The accumulator is empty or starts with a space. *)
Definition group_accumulator (g : string) : Prop :=
  g = ""%string \/ exists rest, g = String " " rest.

(** One of the three marks that end a sentence. *)
Definition is_terminator (c : ascii) : bool :=
  Re.one_of ["."%char; "!"%char; "?"%char] c.

(** A sentence mark occurs in the line, before any newline. *)
Fixpoint has_terminator (line : string) : bool :=
  match line with
  | EmptyString => false
  | String c line' => is_terminator c || (Re.dot c && has_terminator line')
  end.

(** Some character of the string is in the class. *)
Fixpoint any_char (p : ascii -> bool) (s : string) : bool :=
  match s with
  | EmptyString => false
  | String c s' => p c || any_char p s'
  end.

(** A space or a tab. *)
Definition is_blank_char (c : ascii) : bool :=
  Re.one_of [" "%char; "009"%char] c.

(** The end of the line, or the newline that ends it. *)
Definition at_line_end (s : string) : bool :=
  match s with
  | EmptyString => true
  | String c EmptyString => PyStr.code c =? 10
  | _ => false
  end.

(** Spaces and tabs up to the end of the line. *)
Fixpoint blank_to_line_end (s : string) : bool :=
  at_line_end s ||
  match s with
  | EmptyString => false
  | String c s' => is_blank_char c && blank_to_line_end s'
  end.

(** What may follow [NOTE] in the header of a comment block: nothing, or
    a whitespace character and at least one more character that is no
    newline. *)
Definition comment_header_rest (s : string) : bool :=
  match s with
  | String c (String c2 _) => (Re.space c && Re.dot c2) || at_line_end s
  | _ => at_line_end s
  end.

(** [s[n:]]. *)
Definition drop (n : nat) (s : string) : string :=
  String.substring n (String.length s - n) s.

(** [n] newlines. *)
Fixpoint newlines (n : nat) : string :=
  match n with
  | 0 => EmptyString
  | S n' => String "010"%char (newlines n')
  end.

(** [line] is [raw] without the newlines it ends with. *)
Definition stripped_of (raw line : string) : Prop :=
  LineSource.ends_with_newline line = false
  /\ exists n, raw = (line ++ newlines n)%string.

(** The blocks of an input written as runs of lines, each after one
    blank line: the run after the blank line [index] starts at line
    [index + 1], and the next blank line follows its last line. *)
Fixpoint blocks_from (index : nat) (bodies : list (list string)) : list Block.t :=
  match bodies with
  | [] => []
  | body :: bodies' =>
      Block.mk (index + 1) body
        :: blocks_from (index + 1 + List.length body) bodies'
  end.

(** The lines of such an input after its first line. *)
Definition body_lines (bodies : list (list string)) : list string :=
  flat_map (fun body => ""%string :: body) bodies.

(** A run of lines with at least one line and no blank line. *)
Definition is_body (body : list string) : Prop :=
  body <> [] /\ Forall (fun line => PyStr.truthy line = true) body.

(* ================================================================== *)
(** * Properties *)

(** ** Loops *)

Ltac run := unfold bind, ret, raise, lift, modify, get in *; cbn [fst snd] in *.

Section Loops.
Context {St X A : Type}.

(** A property of the instance that every run of the body keeps is
    kept by the loop, whether it returns or raises. *)
Lemma for_enumerate_invariant (P : St -> Prop) (body : nat -> X -> A -> M St A) :
  (forall i x a self self' r, P self -> body i x a self = (self', r) -> P self') ->
  forall xs i a self self' r,
    P self -> for_enumerate body i xs a self = (self', r) -> P self'.
Proof.
  intros Hbody xs; induction xs as [|x xs IH]; intros i a self self' r HP Hrun.
  - cbn in Hrun. run. now inversion Hrun; subst.
  - cbn in Hrun. unfold bind in Hrun.
    destruct (body i x a self) as [self1 [a1|e]] eqn:Hb.
    + eapply IH; [eapply Hbody; eauto | exact Hrun].
    + inversion Hrun; subst. eapply Hbody; eauto.
Qed.

Lemma for_each_invariant (P : St -> Prop) (body : X -> A -> M St A) :
  (forall x a self self' r, P self -> body x a self = (self', r) -> P self') ->
  forall xs a self self' r,
    P self -> for_each body xs a self = (self', r) -> P self'.
Proof.
  intros Hbody xs; induction xs as [|x xs IH]; intros a self self' r HP Hrun.
  - cbn in Hrun. run. now inversion Hrun; subst.
  - cbn in Hrun. unfold bind in Hrun.
    destruct (body x a self) as [self1 [a1|e]] eqn:Hb.
    + eapply IH; [eapply Hbody; eauto | exact Hrun].
    + inversion Hrun; subst. eapply Hbody; eauto.
Qed.

(** A loop over [pre ++ post] runs [pre], then [post] from where [pre]
    ended. *)
Lemma for_each_app (body : X -> A -> M St A) pre post a self :
  for_each body (pre ++ post) a self =
  match for_each body pre a self with
  | (self1, Return a1) => for_each body post a1 self1
  | (self1, Raise e) => (self1, Raise e)
  end.
Proof.
  revert a self; induction pre as [|x pre IH]; intros a self.
  - reflexivity.
  - cbn. unfold bind. destruct (body x a self) as [self1 [a1|e]]; auto.
Qed.

Lemma for_enumerate_app (body : nat -> X -> A -> M St A) pre post i a self :
  for_enumerate body i (pre ++ post) a self =
  match for_enumerate body i pre a self with
  | (self1, Return a1) => for_enumerate body (i + List.length pre) post a1 self1
  | (self1, Raise e) => (self1, Raise e)
  end.
Proof.
  revert i a self; induction pre as [|x pre IH]; intros i a self.
  - cbn. now rewrite Nat.add_0_r.
  - cbn. unfold bind. destruct (body i x a self) as [self1 [a1|e]]; auto.
    rewrite IH. now replace (S i + List.length pre) with (i + S (List.length pre)) by lia.
Qed.

End Loops.

(* ------------------------------------------------------------------ *)
(** ** The generic line-classifying parser *)

Section Generic.
Import TextBasedParser.
Context {child : Child}.

Lemma nonempty_has_text c :
  nonempty (Caption.lines c) = true -> has_text c.
Proof.
  unfold has_text. destruct (Caption.lines c); cbn; [discriminate | lia].
Qed.

Lemma append_has_text c self :
  has_text c -> Forall has_text (captions self) ->
  Forall has_text (captions (append c self)).
Proof.
  intros Hc Hs. unfold append; cbn. apply Forall_app; split; auto.
Qed.

(** One line of the loop appends nothing but a caption with text. *)
Lemma _parse_line_has_text index line c self self' r :
  Forall has_text (captions self) ->
  _parse_line index line c self = (self', r) ->
  Forall has_text (captions self').
Proof.
  intros Hs. unfold _parse_line.
  destruct (_is_timeframe_line line).
  { destruct (_parse_timeframe_line TIMEFRAME_LINE_PATTERN line) as [[st en]|[]];
      run; intros H; inversion H; subst; auto. }
  destruct (_should_skip_line line index c).
  { run; intros H; inversion H; subst; auto. }
  destruct (PyStr.truthy line).
  { destruct c; run; intros H; inversion H; subst; auto. }
  destruct c as [c'|]; [|run; intros H; inversion H; subst; auto].
  destruct (nonempty (Caption.lines c')) eqn:Hne; cbn [negb].
  - run. intros H; inversion H; subst.
    apply append_has_text; auto using nonempty_has_text.
  - destruct ignore_empty_captions; run; intros H; inversion H; subst; auto.
Qed.

Lemma _parse_has_text lines self :
  Forall has_text (captions (fst (_parse lines self))).
Proof.
  unfold _parse. unfold bind at 1. unfold modify at 1. unfold bind at 1.
  destruct (for_enumerate _parse_line 0 lines None (mk [])) as [self1 [c|e]] eqn:Hloop.
  - assert (Hinv : Forall has_text (captions self1)).
    { eapply (for_enumerate_invariant (fun s => Forall has_text (captions s)));
        [ | | exact Hloop]; [intros; eapply _parse_line_has_text; eauto | constructor]. }
    destruct c as [c'|]; [|exact Hinv].
    destruct (nonempty (Caption.lines c')) eqn:Hne; run; auto.
    apply append_has_text; auto using nonempty_has_text.
  - cbn. eapply (for_enumerate_invariant (fun s => Forall has_text (captions s)));
      [ | | exact Hloop]; [intros; eapply _parse_line_has_text; eauto | constructor].
Qed.

End Generic.

Section GenericParser.
Import TextBasedParser.
Context {child : Child}.

(** A line that is a timing line and parses as one replaces the open
    caption, whatever it holds, and leaves the instance as it is. *)
Lemma _parse_line_timing index line c start end_ self :
  _is_timeframe_line line = true ->
  _parse_timeframe_line TIMEFRAME_LINE_PATTERN line = Return (start, end_) ->
  _parse_line index line c self = (self, Return (Some (Caption.new start end_))).
Proof.
  intros Htf Hparse. unfold _parse_line. now rewrite Htf, Hparse.
Qed.

(** C9. In the generic line-classifying parser, a timing line met while
    a caption [c] is open, with or without text lines, replaces [c] by
    the new caption: nothing is appended to [self.captions], nothing is
    raised, and the rest of the parse runs as it would from the new
    caption alone, so [c] is lost. *)
Theorem open_caption_lost_at_timing_line index line rest c start end_ self :
  _is_timeframe_line line = true ->
  _parse_timeframe_line TIMEFRAME_LINE_PATTERN line = Return (start, end_) ->
  _parse_line index line (Some c) self
    = (self, Return (Some (Caption.new start end_)))
  /\ for_enumerate _parse_line index (line :: rest) (Some c) self
     = for_enumerate _parse_line (S index) rest
         (Some (Caption.new start end_)) self.
Proof.
  intros Htf Hparse. split.
  - now apply _parse_line_timing.
  - cbn [for_enumerate]. unfold bind at 1.
    now rewrite (_parse_line_timing index line (Some c) start end_ self Htf Hparse).
Qed.

(** C10. In the generic line-classifying parser, when the loop ends
    with a caption [c] open that has no text line, [_parse] returns
    normally with the captions appended so far, and [c] is not among
    them; the option [ignore_empty_captions] plays no part. *)
Theorem open_empty_caption_dropped_at_end lines self self1 c :
  for_enumerate _parse_line 0 lines None (mk []) = (self1, Return (Some c)) ->
  Caption.lines c = [] ->
  _parse lines self = (self1, Return tt) /\ ~ In c (captions self1).
Proof.
  intros Hloop Hempty. split.
  - unfold _parse. unfold bind at 1. unfold modify at 1. unfold bind at 1.
    rewrite Hloop, Hempty. reflexivity.
  - intros Hin.
    assert (Hinv : Forall has_text (captions self1)).
    { eapply (for_enumerate_invariant (fun s => Forall has_text (captions s)));
        [ | | exact Hloop]; [intros; eapply _parse_line_has_text; eauto | constructor]. }
    rewrite Forall_forall in Hinv. specialize (Hinv c Hin).
    unfold has_text in Hinv. rewrite Hempty in Hinv. cbn in Hinv. lia.
Qed.

End GenericParser.

(** The comma-timing format does not set [ignore_empty_captions]; its
    input below ends on a timing line. *)
Lemma open_empty_caption_dropped_at_end_witness :
  @TextBasedParser.ignore_empty_captions SBVParser.child = false
  /\ @TextBasedParser._parse SBVParser.child
       ["0:00:00.000,0:00:02.500"; "Hi"; ""; "0:00:03.000,0:00:04.500"]
       TextBasedParser.__init__
     = (TextBasedParser.mk
          [Caption.mk None "0:00:00.000" "0:00:02.500" ["Hi"] false],
        Return tt)
  /\ ~ In (Caption.new "0:00:03.000" "0:00:04.500")
          [Caption.mk None "0:00:00.000" "0:00:02.500" ["Hi"] false].
Proof.
  split; [reflexivity|].
  apply (@open_empty_caption_dropped_at_end SBVParser.child
           ["0:00:00.000,0:00:02.500"; "Hi"; ""; "0:00:03.000,0:00:04.500"]
           TextBasedParser.__init__
           (TextBasedParser.mk
              [Caption.mk None "0:00:00.000" "0:00:02.500" ["Hi"] false])
           (Caption.new "0:00:03.000" "0:00:04.500")).
  - vm_compute. reflexivity.
  - reflexivity.
Defined.

Lemma open_caption_lost_at_timing_line_witness :
  @TextBasedParser._parse_line SRTParser.child 4
     "1:00:03,000 --> 1:00:04,500"
     (Some (Caption.mk None "1:00:00,000" "1:00:02,500" ["Hi there"] false))
     TextBasedParser.__init__
   = (TextBasedParser.__init__,
      Return (Some (Caption.new "1:00:03,000" "1:00:04,500")))
  /\ @for_enumerate _ _ _ (@TextBasedParser._parse_line SRTParser.child) 4
       ["1:00:03,000 --> 1:00:04,500"; "Bye"; ""]
       (Some (Caption.mk None "1:00:00,000" "1:00:02,500" ["Hi there"] false))
       TextBasedParser.__init__
     = @for_enumerate _ _ _ (@TextBasedParser._parse_line SRTParser.child) 5
         ["Bye"; ""]
         (Some (Caption.new "1:00:03,000" "1:00:04,500"))
         TextBasedParser.__init__.
Proof.
  apply (@open_caption_lost_at_timing_line SRTParser.child 4
           "1:00:03,000 --> 1:00:04,500" ["Bye"; ""]
           (Caption.mk None "1:00:00,000" "1:00:02,500" ["Hi there"] false)
           "1:00:03,000" "1:00:04,500" TextBasedParser.__init__).
  - reflexivity.
  - vm_compute. reflexivity.
Defined.

(* ------------------------------------------------------------------ *)
(** ** The numbered-cue format *)

Section SRT.
Import TextBasedParser.

Lemma char_isdigit_not_dash c :
  PyStr.char_isdigit c = true -> Ascii.eqb "-" c = false.
Proof.
  intros Hd. destruct (Ascii.eqb_spec "-" c) as [<-|]; [|reflexivity].
  vm_compute in Hd. discriminate.
Qed.

(** A line made of digits holds no timing marker. *)
Lemma all_digits_no_arrow line :
  PyStr.all_chars PyStr.char_isdigit line = true ->
  PyStr.contains "-->" line = false.
Proof.
  induction line as [|c line IH]; intros Hall; [reflexivity|].
  cbn in Hall. apply andb_prop in Hall as [Hc Hrest].
  cbn [PyStr.contains PyStr.startswith].
  rewrite (char_isdigit_not_dash c Hc), (IH Hrest). reflexivity.
Qed.

Lemma isdigit_no_arrow line :
  PyStr.isdigit line = true -> PyStr.contains "-->" line = false.
Proof.
  unfold PyStr.isdigit. intros H. apply andb_prop in H as [_ H].
  now apply all_digits_no_arrow.
Qed.

(** A bare index is skipped while no caption is open. *)
Lemma srt_index_line index line self :
  PyStr.isdigit line = true ->
  @_parse_line SRTParser.child index line None self = (self, Return None).
Proof.
  intros Hd. unfold _parse_line. cbn [_is_timeframe_line _should_skip_line SRTParser.child].
  now rewrite (isdigit_no_arrow line Hd), Hd.
Qed.

(** A line of text joins the open caption. *)
Lemma srt_text_line index line c self :
  PyStr.contains "-->" line = false ->
  PyStr.truthy line = true ->
  @_parse_line SRTParser.child index line (Some c) self
    = (self, Return (Some (Caption.add_line line c))).
Proof.
  intros Harrow Hne. unfold _parse_line.
  cbn [_is_timeframe_line _should_skip_line SRTParser.child].
  now rewrite Harrow, Hne.
Qed.

(** The blank line after a caption with text closes it. *)
Lemma srt_blank_line_closes index c self :
  nonempty (Caption.lines c) = true ->
  @_parse_line SRTParser.child index "" (Some c) self
    = (append c self, Return None).
Proof.
  intros Hne. unfold _parse_line.
  cbn [_is_timeframe_line _should_skip_line SRTParser.child PyStr.contains
       PyStr.startswith PyStr.truthy orb].
  rewrite Hne. reflexivity.
Qed.

(** The blank line after a caption with no text discards it: the
    format sets [ignore_empty_captions]. *)
Lemma srt_blank_line_discards index c self :
  Caption.lines c = [] ->
  @_parse_line SRTParser.child index "" (Some c) self = (self, Return None).
Proof.
  intros Hempty. unfold _parse_line.
  cbn [_is_timeframe_line _should_skip_line SRTParser.child PyStr.contains
       PyStr.startswith PyStr.truthy orb].
  rewrite Hempty. reflexivity.
Qed.

(** C8. In the numbered-cue format, the lines: a bare index, a valid
    timing line, a line of text, a blank line, a second bare index, a
    valid timing line and a blank line, give exactly one caption, that
    of the first cue; the second cue, which has no text, is left out
    and nothing is raised. *)
Theorem srt_empty_second_cue_omitted
        index1 timing1 text1 index2 timing2 start1 end1 start2 end2 self :
  PyStr.isdigit index1 = true ->
  PyStr.isdigit index2 = true ->
  PyStr.contains "-->" timing1 = true ->
  PyStr.contains "-->" timing2 = true ->
  _parse_timeframe_line SRTParser.pattern timing1 = Return (start1, end1) ->
  _parse_timeframe_line SRTParser.pattern timing2 = Return (start2, end2) ->
  PyStr.truthy text1 = true ->
  PyStr.contains "-->" text1 = false ->
  @_parse SRTParser.child
     [index1; timing1; text1; ""; index2; timing2; ""] self
  = (mk [Caption.mk None start1 end1 [text1] false], Return tt).
Proof.
  intros Hi1 Hi2 Ha1 Ha2 Hp1 Hp2 Hne Hna.
  unfold _parse. unfold bind at 1. unfold modify at 1.
  unfold bind at 1. cbn [for_enumerate].
  unfold bind at 1. rewrite (srt_index_line 0 index1 _ Hi1).
  unfold bind at 1.
  rewrite (@_parse_line_timing SRTParser.child 1 timing1 None start1 end1 _ Ha1 Hp1).
  unfold bind at 1. rewrite (srt_text_line 2 text1 _ _ Hna Hne).
  unfold bind at 1. rewrite srt_blank_line_closes by reflexivity.
  unfold bind at 1. rewrite (srt_index_line 4 index2 _ Hi2).
  unfold bind at 1.
  rewrite (@_parse_line_timing SRTParser.child 5 timing2 None start2 end2 _ Ha2 Hp2).
  unfold bind at 1. rewrite srt_blank_line_discards by reflexivity.
  reflexivity.
Qed.

End SRT.

(** The scenario of the format's description, read through
    [read_from_buffer]. *)
Lemma srt_empty_second_cue_omitted_witness :
  @TextBasedParser._parse SRTParser.child
     ["1"; "1:00:00,000 --> 1:00:02,500"; "Hi there"; "";
      "2"; "1:00:03,000 --> 1:00:05,000"; ""]
     TextBasedParser.__init__
  = (TextBasedParser.mk
       [Caption.mk None "1:00:00,000" "1:00:02,500" ["Hi there"] false],
     Return tt)
  /\ @TextBasedParser.read_from_buffer SRTParser.child
       ["1"; "1:00:00,000 --> 1:00:02,500"; "Hi there"; "";
        "2"; "1:00:03,000 --> 1:00:05,000"; ""]
       TextBasedParser.__init__
     = (TextBasedParser.mk
          [Caption.mk None "1:00:00,000" "1:00:02,500" ["Hi there"] false],
        Return tt).
Proof.
  split.
  - apply (srt_empty_second_cue_omitted
             "1" "1:00:00,000 --> 1:00:02,500" "Hi there"
             "2" "1:00:03,000 --> 1:00:05,000"
             "1:00:00,000" "1:00:02,500" "1:00:03,000" "1:00:05,000"
             TextBasedParser.__init__);
      vm_compute; reflexivity.
  - vm_compute. reflexivity.
Defined.

(* ------------------------------------------------------------------ *)
(** ** Block decomposition *)

Section Blocks.
Import BlockParser.

Lemma update_last_snoc f init b :
  update_last f (init ++ [b]) = init ++ [f b].
Proof.
  induction init as [|a init IH]; [reflexivity|].
  rewrite <- !app_comm_cons. revert IH.
  destruct (init ++ [b]) as [|x l] eqn:E; intros IH.
  - now destruct init.
  - change (update_last f (a :: x :: l)) with (a :: update_last f (x :: l)).
    now rewrite IH.
Qed.

Lemma blocks_start_at_snoc_new all blocks index :
  blocks_start_at all blocks ->
  blocks_start_at all (blocks ++ [Block.new index]).
Proof.
  intros Hinv b Hin Hne. apply in_app_or in Hin as [Hin|[<-|[]]]; auto.
  now cbn in Hne.
Qed.

Lemma _compute_blocks_line_start all index line blocks :
  1 <= index ->
  nth_error all (index - 1) = Some line ->
  blocks_start_at all blocks ->
  blocks_start_at all (_compute_blocks_line index line blocks).
Proof.
  intros Hidx Hnth Hinv. unfold _compute_blocks_line.
  destruct (PyStr.truthy line); [|now apply blocks_start_at_snoc_new].
  set (blocks1 := if negb (nonempty blocks) then blocks ++ [Block.new index] else blocks).
  assert (Hinv1 : blocks_start_at all blocks1).
  { subst blocks1. destruct (nonempty blocks); cbn [negb]; auto.
    now apply blocks_start_at_snoc_new. }
  assert (Hne1 : blocks1 <> []).
  { subst blocks1. destruct blocks; cbn; discriminate. }
  destruct (exists_last Hne1) as [init [b0 Eq]].
  rewrite Eq in *. clearbody blocks1. clear Hne1 Eq.
  rewrite last_last.
  assert (Hlast : forall b, In b init -> Block.lines b <> [] -> starts_at all b).
  { intros b Hin. apply Hinv1, in_or_app. now left. }
  destruct (nonempty (Block.lines b0)) eqn:Hb0; cbn [negb].
  - rewrite update_last_snoc. intros b Hin Hne.
    apply in_app_or in Hin as [Hin|[<-|[]]]; auto.
    assert (Hs : starts_at all b0).
    { apply Hinv1; [apply in_or_app; right; now left|].
      destruct (Block.lines b0); [discriminate|congruence]. }
    destruct Hs as [H1 [first [Hhd Hn]]].
    split; [exact H1|]. exists first. cbn. split; [|exact Hn].
    destruct (Block.lines b0); [discriminate|exact Hhd].
  - rewrite !update_last_snoc. intros b Hin Hne.
    apply in_app_or in Hin as [Hin|[<-|[]]]; auto.
    split; [exact Hidx|]. exists line. cbn. split; [|exact Hnth].
    now destruct (Block.lines b0).
Qed.

Lemma _compute_blocks_loop_start rest : forall pre blocks,
  blocks_start_at (pre ++ rest) blocks ->
  blocks_start_at (pre ++ rest)
    (_compute_blocks_loop (S (List.length pre)) rest blocks).
Proof.
  induction rest as [|line rest IH]; intros pre blocks Hinv; [exact Hinv|].
  cbn [_compute_blocks_loop].
  specialize (IH (pre ++ [line])).
  rewrite <- app_assoc, length_app in IH. cbn [app List.length] in IH.
  replace (S (List.length pre + 1)) with (S (S (List.length pre))) in IH by lia.
  apply IH. apply _compute_blocks_line_start; auto; [lia|].
  cbn. rewrite Nat.sub_0_r, nth_error_app2, Nat.sub_diag by lia. reflexivity.
Qed.

Lemma in_skipn_1 {A} (x : A) l : In x (skipn 1 l) -> In x l.
Proof. destruct l; cbn; auto. Qed.

(** The blocks [_compute_blocks] retains have lines, and their
    [line_number] is the number of their first line in the input. *)
Lemma computed_blocks_start_at lines b :
  In b (computed_blocks lines) -> starts_at lines b.
Proof.
  unfold computed_blocks. intros Hin.
  apply in_skipn_1, filter_In in Hin as [Hin Hne].
  apply (_compute_blocks_loop_start lines [] []); auto.
  - intros ? [].
  - destruct (Block.lines b); [discriminate|congruence].
Qed.

End Blocks.

(* ------------------------------------------------------------------ *)
(** ** The block-structured parsers *)

Section MalformedBlocks.
Import BlockParser.

(** The state in which the loop over the blocks starts. *)
Lemma webvtt_parse_unfold lines self :
  WebVTTParser._parse lines self
  = for_each WebVTTParser._parse_block (computed_blocks lines) tt
      (mk [] (styles self) (computed_blocks lines)).
Proof. reflexivity. Qed.

Lemma cdp_parse_unfold lines self :
  WebVTTParserCDP._parse lines self
  = match for_each WebVTTParserCDP._parse_block (computed_blocks lines)
            (WebVTTParserCDP.mk_locals "" "00:00:00.000")
            (mk [] (styles self) (computed_blocks lines)) with
    | (self1, Return _) => (self1, Return tt)
    | (self1, Raise e) => (self1, Raise e)
    end.
Proof.
  unfold WebVTTParserCDP._parse. run. cbn.
  now destruct (for_each _ _ _ _) as [self1 [l|e]].
Qed.

(** A block that is no comment and no style block is malformed: an
    identifier on its own when it has one line, a cue that lacks its
    timing line, expected on the second line, otherwise. *)
Lemma _parse_other_block_malformed block self :
  _is_comment_block block = Return false ->
  _is_style_block block = Return false ->
  _parse_other_block block self
  = (self,
     Raise (MalformedCaptionError
              (if List.length (Block.lines block) =? 1
               then "Standalone cue identifier in line "
                      ++ PyStr.of_nat (Block.line_number block) ++ "."
               else "Missing timing cue in line "
                      ++ PyStr.of_nat (Block.line_number block + 1) ++ "."))).
Proof.
  intros Hc Hs. unfold _parse_other_block. run. rewrite Hc, Hs.
  now destruct (List.length (Block.lines block) =? 1).
Qed.

Lemma webvtt_malformed_block lines pre b post self self1 :
  computed_blocks lines = pre ++ b :: post ->
  for_each WebVTTParser._parse_block pre tt
    (mk [] (styles self) (computed_blocks lines)) = (self1, Return tt) ->
  _is_cue_block b = false ->
  _is_comment_block b = Return false ->
  _is_style_block b = Return false ->
  WebVTTParser._parse lines self
  = (self1,
     Raise (MalformedCaptionError
              (if List.length (Block.lines b) =? 1
               then "Standalone cue identifier in line "
                      ++ PyStr.of_nat (Block.line_number b) ++ "."
               else "Missing timing cue in line "
                      ++ PyStr.of_nat (Block.line_number b + 1) ++ "."))).
Proof.
  intros Hblocks Hpre Hcue Hc Hs.
  rewrite webvtt_parse_unfold. rewrite Hblocks at 1.
  rewrite for_each_app, Hpre. cbn [for_each]. unfold bind at 1.
  unfold WebVTTParser._parse_block. rewrite Hcue.
  now rewrite (_parse_other_block_malformed b self1 Hc Hs).
Qed.

Lemma cdp_malformed_block lines pre b post self self1 l1 :
  computed_blocks lines = pre ++ b :: post ->
  for_each WebVTTParserCDP._parse_block pre
    (WebVTTParserCDP.mk_locals "" "00:00:00.000")
    (mk [] (styles self) (computed_blocks lines)) = (self1, Return l1) ->
  _is_cue_block b = false ->
  _is_comment_block b = Return false ->
  _is_style_block b = Return false ->
  WebVTTParserCDP._parse lines self
  = (self1,
     Raise (MalformedCaptionError
              (if List.length (Block.lines b) =? 1
               then "Standalone cue identifier in line "
                      ++ PyStr.of_nat (Block.line_number b) ++ "."
               else "Missing timing cue in line "
                      ++ PyStr.of_nat (Block.line_number b + 1) ++ "."))).
Proof.
  intros Hblocks Hpre Hcue Hc Hs.
  rewrite cdp_parse_unfold. rewrite Hblocks at 1.
  rewrite for_each_app, Hpre. cbn [for_each]. unfold bind at 1.
  unfold WebVTTParserCDP._parse_block. rewrite Hcue. unfold bind at 1.
  now rewrite (_parse_other_block_malformed b self1 Hc Hs).
Qed.

(** C3, as the code has it. When the loop of either block-structured
    parser reaches a block [b] with no timing marker in its first two
    lines and whose first line matches neither the comment nor the
    style header, the parse raises [MalformedCaptionError]; [b] starts
    at line [line_number b] of the input; the message is "Standalone cue
    identifier" with that number when [b] has exactly one line, and
    "Missing timing cue" with that number plus one, the line where the
    timing was expected, when it has more. *)
Theorem malformed_block_error lines pre b post self :
  computed_blocks lines = pre ++ b :: post ->
  _is_cue_block b = false ->
  _is_comment_block b = Return false ->
  _is_style_block b = Return false ->
  starts_at lines b
  /\ (forall self1,
        for_each WebVTTParser._parse_block pre tt
          (mk [] (styles self) (computed_blocks lines)) = (self1, Return tt) ->
        WebVTTParser._parse lines self
        = (self1,
           Raise (MalformedCaptionError
                    (if List.length (Block.lines b) =? 1
                     then "Standalone cue identifier in line "
                            ++ PyStr.of_nat (Block.line_number b) ++ "."
                     else "Missing timing cue in line "
                            ++ PyStr.of_nat (Block.line_number b + 1) ++ "."))))
  /\ (forall self1 l1,
        for_each WebVTTParserCDP._parse_block pre
          (WebVTTParserCDP.mk_locals "" "00:00:00.000")
          (mk [] (styles self) (computed_blocks lines)) = (self1, Return l1) ->
        WebVTTParserCDP._parse lines self
        = (self1,
           Raise (MalformedCaptionError
                    (if List.length (Block.lines b) =? 1
                     then "Standalone cue identifier in line "
                            ++ PyStr.of_nat (Block.line_number b) ++ "."
                     else "Missing timing cue in line "
                            ++ PyStr.of_nat (Block.line_number b + 1) ++ ".")))).
Proof.
  intros Hblocks Hcue Hc Hs. split; [|split].
  - apply computed_blocks_start_at. rewrite Hblocks.
    apply in_or_app. right. now left.
  - intros self1 Hpre. eapply webvtt_malformed_block; eauto.
  - intros self1 l1 Hpre. eapply cdp_malformed_block; eauto.
Qed.

End MalformedBlocks.

(** A block of two lines of text that starts at line 3: the error names
    line 4. *)
Lemma malformed_block_line_number_counterexample :
  BlockParser.computed_blocks ["WEBVTT"; ""; "Hello"; "world"]
    = [Block.mk 3 ["Hello"; "world"]]
  /\ nth_error ["WEBVTT"; ""; "Hello"; "world"] (3 - 1) = Some "Hello"
  /\ WebVTTParser._parse ["WEBVTT"; ""; "Hello"; "world"] BlockParser.__init__
     = (BlockParser.mk [] [] [Block.mk 3 ["Hello"; "world"]],
        Raise (MalformedCaptionError "Missing timing cue in line 4."))
  /\ WebVTTParserCDP._parse ["WEBVTT"; ""; "Hello"; "world"] BlockParser.__init__
     = (BlockParser.mk [] [] [Block.mk 3 ["Hello"; "world"]],
        Raise (MalformedCaptionError "Missing timing cue in line 4."))
  /\ snd (WebVTTParser._parse ["WEBVTT"; ""; "Hello"; "world"]
            BlockParser.__init__)
     <> Raise (MalformedCaptionError
                 ("Missing timing cue in line " ++ PyStr.of_nat 3 ++ ".")).
Proof.
  repeat split; try reflexivity. vm_compute. discriminate.
Qed.

Lemma malformed_block_error_witness :
  starts_at ["WEBVTT"; ""; "NOTE a comment"; ""; ""; "intro"]
            (Block.mk 6 ["intro"])
  /\ WebVTTParser._parse ["WEBVTT"; ""; "NOTE a comment"; ""; ""; "intro"]
       BlockParser.__init__
     = (BlockParser.mk [] []
          [Block.mk 3 ["NOTE a comment"]; Block.mk 6 ["intro"]],
        Raise (MalformedCaptionError "Standalone cue identifier in line 6.")).
Proof.
  destruct (malformed_block_error
              ["WEBVTT"; ""; "NOTE a comment"; ""; ""; "intro"]
              [Block.mk 3 ["NOTE a comment"]] (Block.mk 6 ["intro"]) []
              BlockParser.__init__)
    as [Hstart [Hvtt _]]; try reflexivity.
  split; [exact Hstart|].
  apply (Hvtt (BlockParser.mk [] []
                 [Block.mk 3 ["NOTE a comment"]; Block.mk 6 ["intro"]])).
  reflexivity.
Defined.

Section StyleBlocks.
Import BlockParser.

(** A line that matches the style header starts with an S and so does
    not match the comment header. *)
Lemma style_line_not_comment line :
  Re.matches STYLE_PATTERN line = true ->
  Re.matches COMMENT_PATTERN line = false.
Proof.
  destruct line as [|c line]; [intros H; vm_compute in H; discriminate|].
  intros H. destruct (Ascii.eqb_spec "S" c) as [<-|Hne]; [reflexivity|].
  exfalso. revert H.
  unfold Re.matches, Re.match_, STYLE_PATTERN.
  cbn [Re.cat Re.lit Re.matchk]. unfold Re.only at 1.
  destruct (Ascii.eqb_spec "S" c); [contradiction|discriminate].
Qed.

(** The captions never shrink during the loop, and a block met when the
    captions are not empty leaves the styles as they are. *)
Lemma _parse_other_block_styles block self self' r :
  nonempty (captions self) = true ->
  _parse_other_block block self = (self', r) ->
  self' = self.
Proof.
  intros Hcaps. unfold _parse_other_block. run.
  destruct (_is_comment_block block) as [[|]|e];
    [intros H; inversion H; auto | | intros H; inversion H; auto].
  destruct (_is_style_block block) as [[|]|e];
    [ | | intros H; inversion H; auto].
  - rewrite Hcaps. intros H; inversion H; auto.
  - destruct (List.length (Block.lines block) =? 1);
      intros H; inversion H; auto.
Qed.

Lemma nonempty_app_l {A} (xs ys : list A) :
  nonempty xs = true -> nonempty (xs ++ ys) = true.
Proof. now destruct xs. Qed.

Lemma webvtt_parse_block_styles block acc self self' r :
  nonempty (captions self) = true ->
  WebVTTParser._parse_block block acc self = (self', r) ->
  nonempty (captions self') = true /\ styles self' = styles self.
Proof.
  intros Hcaps. unfold WebVTTParser._parse_block.
  destruct (_is_cue_block block).
  - run. destruct (WebVTTParser._parse_cue_block block) as [c|e];
      intros H; inversion H; subst; cbn; auto using nonempty_app_l.
  - intros H. apply _parse_other_block_styles in H; subst; auto.
Qed.

Lemma cdp_parse_block_styles block acc self self' r :
  nonempty (captions self) = true ->
  WebVTTParserCDP._parse_block block acc self = (self', r) ->
  nonempty (captions self') = true /\ styles self' = styles self.
Proof.
  intros Hcaps. unfold WebVTTParserCDP._parse_block.
  destruct (_is_cue_block block).
  - run. destruct (WebVTTParserCDP._parse_cue_block block) as [c|e];
      [|intros H; inversion H; subst; auto].
    destruct (Caption.flagEndSentence c);
      intros H; inversion H; subst; cbn; auto using nonempty_app_l.
  - unfold bind.
    destruct (_parse_other_block block self) as [self1 [[]|e]] eqn:Ho;
      apply _parse_other_block_styles in Ho; auto; subst;
      run; intros H; inversion H; subst; auto.
Qed.

Lemma webvtt_loop_styles bs acc self self' r :
  nonempty (captions self) = true ->
  for_each WebVTTParser._parse_block bs acc self = (self', r) ->
  styles self' = styles self.
Proof.
  intros Hcaps Hrun.
  apply (for_each_invariant
           (fun s => nonempty (captions s) = true /\ styles s = styles self)
           WebVTTParser._parse_block) in Hrun; [tauto| |auto].
  intros x a s s' r' [Hc Hs] Hb.
  apply webvtt_parse_block_styles in Hb as [? ?]; auto. split; congruence.
Qed.

Lemma cdp_loop_styles bs acc self self' r :
  nonempty (captions self) = true ->
  for_each WebVTTParserCDP._parse_block bs acc self = (self', r) ->
  styles self' = styles self.
Proof.
  intros Hcaps Hrun.
  apply (for_each_invariant
           (fun s => nonempty (captions s) = true /\ styles s = styles self)
           WebVTTParserCDP._parse_block) in Hrun; [tauto| |auto].
  intros x a s s' r' [Hc Hs] Hb.
  apply cdp_parse_block_styles in Hb as [? ?]; auto. split; congruence.
Qed.

(** A style block met once a caption is in the output. *)
Lemma _parse_other_block_style_after_cue block line0 rest self :
  Block.lines block = line0 :: rest ->
  Re.matches STYLE_PATTERN line0 = true ->
  nonempty (captions self) = true ->
  _parse_other_block block self
  = (self,
     Raise (MalformedFileError
              ("Style block defined after the first cue in line "
                 ++ PyStr.of_nat (Block.line_number block) ++ "."))).
Proof.
  intros Hlines Hstyle Hcaps. unfold _parse_other_block. run.
  unfold _is_comment_block, _is_style_block, match_first_line.
  rewrite Hlines, (style_line_not_comment line0 Hstyle), Hstyle, Hcaps.
  reflexivity.
Qed.

(** C6, as the code has it. In either block-structured parser, once
    [self.captions] is not empty, however many captions it holds, a
    block whose first line matches the style header and neither of
    whose first two lines holds the timing marker makes the loop raise
    [MalformedFileError] with the block's line number, the instance
    left as it was; and no run of the loop from such a state changes
    [self.styles]. *)
Theorem style_block_after_first_caption block line0 rest bs self :
  Block.lines block = line0 :: rest ->
  Re.matches STYLE_PATTERN line0 = true ->
  _is_cue_block block = false ->
  nonempty (captions self) = true ->
  (for_each WebVTTParser._parse_block (block :: bs) tt self
   = (self,
      Raise (MalformedFileError
               ("Style block defined after the first cue in line "
                  ++ PyStr.of_nat (Block.line_number block) ++ "."))))
  /\ (forall l,
        for_each WebVTTParserCDP._parse_block (block :: bs) l self
        = (self,
           Raise (MalformedFileError
                    ("Style block defined after the first cue in line "
                       ++ PyStr.of_nat (Block.line_number block) ++ "."))))
  /\ (forall bs' self' r,
        for_each WebVTTParser._parse_block bs' tt self = (self', r) ->
        styles self' = styles self)
  /\ (forall bs' l self' r,
        for_each WebVTTParserCDP._parse_block bs' l self = (self', r) ->
        styles self' = styles self).
Proof.
  intros Hlines Hstyle Hcue Hcaps. repeat split.
  - cbn [for_each]. unfold bind, WebVTTParser._parse_block. rewrite Hcue.
    now rewrite (_parse_other_block_style_after_cue _ _ _ _ Hlines Hstyle Hcaps).
  - intros l. cbn [for_each]. unfold bind, WebVTTParserCDP._parse_block.
    rewrite Hcue. unfold bind.
    now rewrite (_parse_other_block_style_after_cue _ _ _ _ Hlines Hstyle Hcaps).
  - intros bs' self' r. now apply webvtt_loop_styles.
  - intros bs' l self' r. now apply cdp_loop_styles.
Qed.

End StyleBlocks.

(** A block headed by STYLE whose second line is a timing line is a cue
    block: after a first caption it is read as a second one, with STYLE
    as its identifier, and nothing is raised. *)
Lemma style_header_cue_block_counterexample :
  Re.matches BlockParser.STYLE_PATTERN "STYLE" = true
  /\ WebVTTParser._parse
       ["WEBVTT"; "";
        "00:00:01.000 --> 00:00:02.000"; "Hi"; "";
        "STYLE"; "00:00:03.000 --> 00:00:04.000"; "there"]
       BlockParser.__init__
     = (BlockParser.mk
          [Caption.mk None "00:00:01.000" "00:00:02.000" ["Hi"] false;
           Caption.mk (Some "STYLE") "00:00:03.000" "00:00:04.000" ["there"] false]
          []
          [Block.mk 3 ["00:00:01.000 --> 00:00:02.000"; "Hi"];
           Block.mk 6 ["STYLE"; "00:00:03.000 --> 00:00:04.000"; "there"]],
        Return tt).
Proof.
  split; vm_compute; reflexivity.
Qed.

Lemma style_block_after_first_caption_witness :
  for_each WebVTTParser._parse_block
    [Block.mk 6 ["STYLE"; "::cue { color: red }"]] tt
    (BlockParser.mk
       [Caption.mk None "00:00:01.000" "00:00:02.000" ["Hi"] false] [] [])
  = (BlockParser.mk
       [Caption.mk None "00:00:01.000" "00:00:02.000" ["Hi"] false] [] [],
     Raise (MalformedFileError
              "Style block defined after the first cue in line 6.")).
Proof.
  apply (style_block_after_first_caption
           (Block.mk 6 ["STYLE"; "::cue { color: red }"])
           "STYLE" ["::cue { color: red }"] []
           (BlockParser.mk
              [Caption.mk None "00:00:01.000" "00:00:02.000" ["Hi"] false] [] []));
    reflexivity.
Defined.

(* ------------------------------------------------------------------ *)
(** ** Captions and their text lines *)

Section TextLines.
Import BlockParser.

(** A cue block that is a timing line and nothing else gives a caption
    with no line of text, which the block-structured parser appends. *)
Lemma webvtt_timing_only_block timing start end_ line_number self :
  _is_cue_timings_line timing = true ->
  TextBasedParser._parse_timeframe_line TIMEFRAME_LINE_PATTERN timing
    = Return (start, end_) ->
  WebVTTParser._parse_block (Block.mk line_number [timing]) tt self
  = (append (Caption.mk None start end_ [] false) self, Return tt).
Proof.
  intros Hcue Hparse. unfold WebVTTParser._parse_block, _is_cue_block.
  cbn [Block.lines firstn existsb]. rewrite Hcue. cbn [orb].
  unfold WebVTTParser._parse_cue_block.
  cbn [Block.lines WebVTTParser._parse_cue_lines WebVTTParser._parse_cue_line].
  rewrite Hcue, Hparse. reflexivity.
Qed.

(** C1, as the code has it. Every caption the generic line-classifying
    parser holds after [_parse], for any child class, any input and
    either value of [ignore_empty_captions], has at least one line of
    text.  The block-structured parser has no such check: from a cue
    block made of a valid timing line only it appends a caption with no
    line of text. *)
Theorem captions_have_text :
  (forall (child : TextBasedParser.Child) lines self,
      Forall has_text
        (TextBasedParser.captions (fst (TextBasedParser._parse lines self))))
  /\ (forall timing start end_ line_number self,
        _is_cue_timings_line timing = true ->
        TextBasedParser._parse_timeframe_line TIMEFRAME_LINE_PATTERN timing
          = Return (start, end_) ->
        WebVTTParser._parse_block (Block.mk line_number [timing]) tt self
        = (append (Caption.mk None start end_ [] false) self, Return tt)).
Proof.
  split.
  - intros child lines self. apply _parse_has_text.
  - intros. now apply webvtt_timing_only_block.
Qed.

End TextLines.

Lemma captions_have_text_witness :
  Forall has_text
    (TextBasedParser.captions
       (fst (@TextBasedParser._parse SBVParser.child
               ["0:00:00.000,0:00:02.500"; "Hi"; ""; "0:00:03.000,0:00:04.500"]
               TextBasedParser.__init__)))
  /\ WebVTTParser._parse_block
       (Block.mk 3 ["00:00:01.000 --> 00:00:02.000"]) tt BlockParser.__init__
     = (BlockParser.mk
          [Caption.mk None "00:00:01.000" "00:00:02.000" [] false] [] [],
        Return tt).
Proof.
  split.
  - apply (proj1 captions_have_text).
  - apply (proj2 captions_have_text
             "00:00:01.000 --> 00:00:02.000" "00:00:01.000" "00:00:02.000"
             3 BlockParser.__init__); vm_compute; reflexivity.
Defined.

(** A file whose only cue block is a timing line: the caption it gives
    has no line of text. *)
Lemma cue_block_without_text_counterexample :
  WebVTTParser.read_from_buffer
    ["WEBVTT"; ""; "00:00:01.000 --> 00:00:02.000"] BlockParser.__init__
  = (BlockParser.mk
       [Caption.mk None "00:00:01.000" "00:00:02.000" [] false] []
       [Block.mk 3 ["00:00:01.000 --> 00:00:02.000"]],
     Return tt)
  /\ ~ has_text (Caption.mk None "00:00:01.000" "00:00:02.000" [] false).
Proof.
  split; [vm_compute; reflexivity|].
  unfold has_text. cbn. lia.
Qed.

(* ------------------------------------------------------------------ *)
(** ** The timing pattern of the block cue format *)

(** Any character but a newline is accepted before the milliseconds. *)
Lemma webvtt_timing_line_any_separator sep :
  Re.dot sep = true ->
  TextBasedParser._parse_timeframe_line BlockParser.TIMEFRAME_LINE_PATTERN
    ("00:00:01" ++ String sep "000 --> 00:00:02.000")%string
  = Return (("00:00:01" ++ String sep "000")%string, "00:00:02.000").
Proof.
  intros Hdot.
  destruct sep as [[] [] [] [] [] [] [] []];
    vm_compute in Hdot; try discriminate Hdot; vm_compute; reflexivity.
Qed.

(** The hours are optional, on either side. *)
Lemma webvtt_timing_line_hours_optional :
  TextBasedParser._parse_timeframe_line BlockParser.TIMEFRAME_LINE_PATTERN
    "00:01.000 --> 1:00:02.000"
  = Return ("00:01.000", "1:00:02.000")
  /\ TextBasedParser._parse_timeframe_line BlockParser.TIMEFRAME_LINE_PATTERN
       "00:01.00 --> 1:00:02.000"
     = Raise (MalformedCaptionError "Invalid time format").
Proof.
  split; vm_compute; reflexivity.
Qed.

(** C5 at a failing input. The dot before the milliseconds is written
    unescaped in the pattern and stands for any character: a timing line
    with a comma there is accepted, and its cue is parsed.  The pattern of
    the numbered-cue format, which writes its comma as a literal, rejects
    a dot. *)
Theorem webvtt_timing_line_with_comma_accepted :
  TextBasedParser._parse_timeframe_line BlockParser.TIMEFRAME_LINE_PATTERN
    "00:00:01,000 --> 00:00:02,000"
  = Return ("00:00:01,000", "00:00:02,000")
  /\ WebVTTParser.read_from_buffer
       ["WEBVTT"; ""; "00:00:01,000 --> 00:00:02,000"; "Hi"]
       BlockParser.__init__
     = (BlockParser.mk
          [Caption.mk None "00:00:01,000" "00:00:02,000" ["Hi"] false] []
          [Block.mk 3 ["00:00:01,000 --> 00:00:02,000"; "Hi"]],
        Return tt)
  /\ TextBasedParser._parse_timeframe_line BlockParser.TIMEFRAME_LINE_PATTERN
       "00:00:01.000 --> 00:00:02.000"
     = Return ("00:00:01.000", "00:00:02.000")
  /\ TextBasedParser._parse_timeframe_line SRTParser.pattern
       "1:00:00.000 --> 1:00:02.500"
     = Raise (MalformedCaptionError "Invalid time format").
Proof.
  repeat split; vm_compute; reflexivity.
Qed.

(* ------------------------------------------------------------------ *)
(** ** A second parse on the same instance *)

Section SecondParse.
Import BlockParser.

(** What the instance held before a block is met shows in the styles
    only, as a prefix. *)
Lemma _parse_other_block_frame block caps pre sty blks :
  _parse_other_block block (mk caps (pre ++ sty) blks)
  = let (s, r) := _parse_other_block block (mk caps sty blks) in
    (mk (captions s) (pre ++ styles s) (blocks s), r).
Proof.
  unfold _parse_other_block. run.
  destruct (_is_comment_block block) as [[|]|e]; cbn; auto.
  destruct (_is_style_block block) as [[|]|e]; cbn; auto.
  - destruct (nonempty caps); cbn; auto.
    unfold append_style; cbn. now rewrite app_assoc.
  - destruct (List.length (Block.lines block) =? 1); cbn; auto.
Qed.

Lemma webvtt_parse_block_frame block acc caps pre sty blks :
  WebVTTParser._parse_block block acc (mk caps (pre ++ sty) blks)
  = let (s, r) := WebVTTParser._parse_block block acc (mk caps sty blks) in
    (mk (captions s) (pre ++ styles s) (blocks s), r).
Proof.
  unfold WebVTTParser._parse_block. destruct (_is_cue_block block).
  - run. destruct (WebVTTParser._parse_cue_block block); reflexivity.
  - apply _parse_other_block_frame.
Qed.

Lemma webvtt_loop_frame bs : forall acc caps pre sty blks,
  for_each WebVTTParser._parse_block bs acc (mk caps (pre ++ sty) blks)
  = let (s, r) := for_each WebVTTParser._parse_block bs acc (mk caps sty blks) in
    (mk (captions s) (pre ++ styles s) (blocks s), r).
Proof.
  induction bs as [|b bs IH]; intros acc caps pre sty blks; [reflexivity|].
  cbn [for_each]. unfold bind.
  rewrite webvtt_parse_block_frame.
  destruct (WebVTTParser._parse_block b acc (mk caps sty blks))
    as [[caps1 sty1 blks1] [a|e]]; cbn [captions styles blocks]; auto.
Qed.

(** After [_parse] the captions, the blocks and the outcome are those
    a fresh instance gives; the styles are those the instance held
    before, followed by those a fresh instance gives. *)
Lemma webvtt_parse_on_used_instance lines self :
  WebVTTParser._parse lines self
  = let (s, r) := WebVTTParser._parse lines __init__ in
    (mk (captions s) (styles self ++ styles s) (blocks s), r).
Proof.
  rewrite !webvtt_parse_unfold. cbn [styles __init__].
  rewrite <- (app_nil_r (styles self)) at 1.
  apply webvtt_loop_frame.
Qed.

End SecondParse.

(** C7 at a failing input. [_parse] empties [self.captions] and leaves
    [self.styles], which only [__init__] sets: after a second parse the
    instance holds the style of the first file before that of the
    second, where a fresh instance holds the second alone. *)
Theorem styles_kept_by_second_parse :
  let first := ["WEBVTT"; ""; "STYLE"; "::cue { color: red }"] in
  let second := ["WEBVTT"; ""; "STYLE"; "::cue { color: blue }"; "";
                 "00:00:01.000 --> 00:00:02.000"; "Hi"] in
  let used := fst (WebVTTParser.read_from_buffer first BlockParser.__init__) in
  BlockParser.styles (fst (WebVTTParser.read_from_buffer second used))
    = [Style.mk ["::cue { color: red }"]; Style.mk ["::cue { color: blue }"]]
  /\ BlockParser.styles
       (fst (WebVTTParser.read_from_buffer second BlockParser.__init__))
     = [Style.mk ["::cue { color: blue }"]]
  /\ BlockParser.captions (fst (WebVTTParser.read_from_buffer second used))
     = BlockParser.captions
         (fst (WebVTTParser.read_from_buffer second BlockParser.__init__)).
Proof.
  repeat split; vm_compute; reflexivity.
Qed.

(* ------------------------------------------------------------------ *)
(** ** The sentence-grouping parser *)

Section Grouping.
Import BlockParser.
Import WebVTTParserCDP.

Lemma contains_truthy needle line :
  PyStr.truthy needle = true ->
  PyStr.contains needle line = true -> PyStr.truthy line = true.
Proof.
  destruct line; [|reflexivity]. destruct needle; [discriminate|].
  cbn. discriminate.
Qed.

(** The flag of a cue says whether one of its text lines matches the
    terminal-punctuation pattern. *)
Lemma cdp_cue_lines_flag block lines : forall n caption timings caption' timings',
  Caption.flagEndSentence caption
    = existsb _group_by_sentence (Caption.lines caption) ->
  _parse_cue_lines block n lines (caption, timings) = Return (caption', timings') ->
  Caption.flagEndSentence caption'
    = existsb _group_by_sentence (Caption.lines caption').
Proof.
  induction lines as [|line lines IH]; intros n caption timings caption' timings' Hinv.
  - cbn. intros H; inversion H; subst; exact Hinv.
  - cbn [_parse_cue_lines]. unfold _parse_cue_line.
    destruct (_is_cue_timings_line line).
    + destruct timings; [discriminate|].
      destruct (TextBasedParser._parse_timeframe_line TIMEFRAME_LINE_PATTERN line)
        as [tf|[]]; try discriminate.
      apply IH; exact Hinv.
    + destruct (n =? 0).
      * apply IH. exact Hinv.
      * apply IH. cbn. rewrite existsb_app. cbn.
        destruct (_group_by_sentence line); cbn.
        -- now rewrite orb_true_r.
        -- now rewrite orb_false_r.
Qed.

Lemma cdp_cue_block_flag block c :
  _parse_cue_block block = Return c ->
  Caption.flagEndSentence c = existsb _group_by_sentence (Caption.lines c).
Proof.
  unfold _parse_cue_block.
  destruct (_parse_cue_lines block 0 (Block.lines block) (Caption.new0, None))
    as [[caption [[start end_]|]]|e] eqn:Hloop; try discriminate.
  intros H; inversion H; subst; cbn.
  eapply cdp_cue_lines_flag; [|exact Hloop]. reflexivity.
Qed.

Lemma existsb_false_Forall {A} (f : A -> bool) xs :
  Forall (fun x => f x = false) xs -> existsb f xs = false.
Proof.
  induction 1 as [|x xs Hx _ IH]; [reflexivity|]. cbn. now rewrite Hx, IH.
Qed.

(** A cue with no terminal punctuation joins the group: nothing is
    appended and nothing is raised. *)
Lemma cdp_unterminated_cue block l self :
  unterminated_cue block ->
  exists l', _parse_block block l self = (self, Return l').
Proof.
  intros [Hcue [c [Hparse Hlines]]].
  unfold _parse_block. rewrite Hcue. run. rewrite Hparse.
  rewrite (cdp_cue_block_flag block c Hparse).
  rewrite (existsb_false_Forall _ _ Hlines). eauto.
Qed.

Lemma cdp_unterminated_cues bs : forall l self,
  Forall unterminated_cue bs ->
  exists l', for_each _parse_block bs l self = (self, Return l').
Proof.
  induction bs as [|b bs IH]; intros l self Hall.
  - cbn. run. eauto.
  - inversion Hall as [|? ? Hb Hbs]; subst.
    destruct (cdp_unterminated_cue b l self Hb) as [l1 Hl1].
    destruct (IH l1 self Hbs) as [l' Hl'].
    exists l'. cbn [for_each]. unfold bind. now rewrite Hl1.
Qed.

(** C4. In the sentence-grouping parser, when the blocks of the input
    end with cue blocks none of whose text lines matches the
    terminal-punctuation pattern, [_parse] returns normally and the
    instance is as the blocks before them left it: no caption is
    appended for the trailing group, and nothing is raised. *)
Theorem unterminated_group_dropped lines pre trailing self self1 l1 :
  computed_blocks lines = pre ++ trailing ->
  Forall unterminated_cue trailing ->
  for_each _parse_block pre (mk_locals "" "00:00:00.000")
    (mk [] (styles self) (computed_blocks lines)) = (self1, Return l1) ->
  _parse lines self = (self1, Return tt).
Proof.
  intros Hblocks Htrailing Hpre.
  rewrite cdp_parse_unfold. rewrite Hblocks at 1.
  rewrite for_each_app, Hpre.
  destruct (cdp_unterminated_cues trailing l1 self1 Htrailing) as [l' Hl'].
  now rewrite Hl'.
Qed.

(** A cue block of a timing line and one line of text. *)
Lemma cdp_cue_block_one_line timing text line_number start end_ :
  _is_cue_timings_line timing = true ->
  TextBasedParser._parse_timeframe_line TIMEFRAME_LINE_PATTERN timing
    = Return (start, end_) ->
  _is_cue_timings_line text = false ->
  _parse_cue_block (Block.mk line_number [timing; text])
  = Return (Caption.mk None start end_ [text] (_group_by_sentence text)).
Proof.
  intros Hcue Hparse Htext. unfold _parse_cue_block.
  cbn [Block.lines _parse_cue_lines]. unfold _parse_cue_line at 1.
  rewrite Hcue, Hparse. unfold _parse_cue_line. rewrite Htext. cbn.
  now destruct (_group_by_sentence text).
Qed.

(** C2. In the sentence-grouping parser, two cue blocks, each a valid
    timing line and one line of text, the second text alone matching
    the terminal-punctuation pattern, give exactly one caption: its text
    is a space, the first text, a space and the second text, its start
    is the first cue's start and its end the second cue's end. *)
Theorem two_cues_grouped
        timing1 text1 timing2 text2 start1 end1 start2 end2 self :
  _is_cue_timings_line timing1 = true ->
  _is_cue_timings_line timing2 = true ->
  TextBasedParser._parse_timeframe_line TIMEFRAME_LINE_PATTERN timing1
    = Return (start1, end1) ->
  TextBasedParser._parse_timeframe_line TIMEFRAME_LINE_PATTERN timing2
    = Return (start2, end2) ->
  PyStr.truthy text1 = true -> _is_cue_timings_line text1 = false ->
  PyStr.truthy text2 = true -> _is_cue_timings_line text2 = false ->
  _group_by_sentence text1 = false ->
  _group_by_sentence text2 = true ->
  exists c,
    captions (fst (_parse ["WEBVTT"; ""; timing1; text1; ""; timing2; text2] self))
      = [c]
    /\ snd (_parse ["WEBVTT"; ""; timing1; text1; ""; timing2; text2] self)
       = Return tt
    /\ Caption.text c = (" " ++ text1 ++ " " ++ text2)%string
    /\ Caption.start c = start1
    /\ Caption.end_ c = end2.
Proof.
  intros Hc1 Hc2 Hp1 Hp2 Ht1 Hn1 Ht2 Hn2 Hg1 Hg2.
  assert (Hblocks :
            computed_blocks ["WEBVTT"; ""; timing1; text1; ""; timing2; text2]
            = [Block.mk 3 [timing1; text1]; Block.mk 6 [timing2; text2]]).
  { pose proof (contains_truthy "-->" timing1 eq_refl Hc1) as Hy1.
    pose proof (contains_truthy "-->" timing2 eq_refl Hc2) as Hy2.
    destruct timing1, timing2, text1, text2; try discriminate. reflexivity. }
  exists (Caption.mk None start1 end2 [(" " ++ text1 ++ " " ++ text2)%string] true).
  assert (Hrun :
            _parse ["WEBVTT"; ""; timing1; text1; ""; timing2; text2] self
            = (mk [Caption.mk None start1 end2
                     [(" " ++ text1 ++ " " ++ text2)%string] true]
                  (styles self)
                  [Block.mk 3 [timing1; text1]; Block.mk 6 [timing2; text2]],
               Return tt));
    [|rewrite Hrun; cbn; repeat split].
  rewrite cdp_parse_unfold, Hblocks. cbn [for_each].
  unfold bind at 1. unfold _parse_block at 1. unfold _is_cue_block.
  cbn [Block.lines firstn existsb]. rewrite Hc1. cbn [orb].
  unfold bind at 1. unfold lift at 1.
  rewrite (cdp_cue_block_one_line timing1 text1 3 start1 end1 Hc1 Hp1 Hn1), Hg1.
  cbn [Caption.flagEndSentence ret].
  unfold bind at 1. unfold _parse_block at 1. unfold _is_cue_block.
  cbn [Block.lines firstn existsb]. rewrite Hc2. cbn [orb].
  unfold bind at 1. unfold lift at 1.
  rewrite (cdp_cue_block_one_line timing2 text2 6 start2 end2 Hc2 Hp2 Hn2), Hg2.
  reflexivity.
Qed.

End Grouping.

Lemma two_cues_grouped_witness :
  exists c,
    BlockParser.captions
      (fst (WebVTTParserCDP._parse
              ["WEBVTT"; "";
               "00:00:01.000 --> 00:00:02.000"; "Hello"; "";
               "00:00:03.000 --> 00:00:04.000"; "world."]
              BlockParser.__init__))
      = [c]
    /\ snd (WebVTTParserCDP._parse
              ["WEBVTT"; "";
               "00:00:01.000 --> 00:00:02.000"; "Hello"; "";
               "00:00:03.000 --> 00:00:04.000"; "world."]
              BlockParser.__init__)
       = Return tt
    /\ Caption.text c = " Hello world."
    /\ Caption.start c = "00:00:01.000"
    /\ Caption.end_ c = "00:00:04.000".
Proof.
  apply (two_cues_grouped
           "00:00:01.000 --> 00:00:02.000" "Hello"
           "00:00:03.000 --> 00:00:04.000" "world."
           "00:00:01.000" "00:00:02.000" "00:00:03.000" "00:00:04.000"
           BlockParser.__init__); vm_compute; reflexivity.
Defined.

(** A sentence, then two cues that never end one: the parse gives the
    caption of the sentence alone, as it does for the input cut after the
    sentence. *)
Lemma unterminated_group_dropped_witness :
  WebVTTParserCDP._parse
    ["WEBVTT"; "";
     "00:00:01.000 --> 00:00:02.000"; "Hello world."; "";
     "00:00:03.000 --> 00:00:04.000"; "and then"; "";
     "00:00:05.000 --> 00:00:06.000"; "nothing"]
    BlockParser.__init__
  = (BlockParser.mk
       [Caption.mk None "00:00:01.000" "00:00:02.000" [" Hello world."] true]
       []
       [Block.mk 3 ["00:00:01.000 --> 00:00:02.000"; "Hello world."];
        Block.mk 6 ["00:00:03.000 --> 00:00:04.000"; "and then"];
        Block.mk 9 ["00:00:05.000 --> 00:00:06.000"; "nothing"]],
     Return tt)
  /\ BlockParser.captions
       (fst (WebVTTParserCDP._parse
               ["WEBVTT"; "";
                "00:00:01.000 --> 00:00:02.000"; "Hello world."]
               BlockParser.__init__))
     = [Caption.mk None "00:00:01.000" "00:00:02.000" [" Hello world."] true].
Proof.
  split; [|reflexivity].
  apply (unterminated_group_dropped
           ["WEBVTT"; "";
            "00:00:01.000 --> 00:00:02.000"; "Hello world."; "";
            "00:00:03.000 --> 00:00:04.000"; "and then"; "";
            "00:00:05.000 --> 00:00:06.000"; "nothing"]
           [Block.mk 3 ["00:00:01.000 --> 00:00:02.000"; "Hello world."]]
           [Block.mk 6 ["00:00:03.000 --> 00:00:04.000"; "and then"];
            Block.mk 9 ["00:00:05.000 --> 00:00:06.000"; "nothing"]]
           BlockParser.__init__ _
           (WebVTTParserCDP.mk_locals "" "00:00:01.000")).
  - reflexivity.
  - repeat constructor;
      (eexists; split; [vm_compute; reflexivity | repeat constructor]).
  - vm_compute. reflexivity.
Defined.

(* ================================================================== *)
(** * Further properties of the parsers *)

(** ** The matcher *)

Section Matcher.

Lemma is_suffix_refl s : is_suffix s s.
Proof. now exists ""%string. Qed.

Lemma is_suffix_trans s1 s2 s3 :
  is_suffix s1 s2 -> is_suffix s2 s3 -> is_suffix s1 s3.
Proof.
  intros [p1 ->] [p2 ->]. exists (p2 ++ p1)%string.
  induction p2 as [|c p2 IH]; cbn; [reflexivity|]. now rewrite IH.
Qed.

Lemma is_suffix_tail c s : is_suffix s (String c s).
Proof. now exists (String c ""). Qed.

(** A successful match ran its continuation on what was left of the
    input after some of its first characters. *)
Lemma matchk_continues r : forall s g k m,
  Re.matchk r s g k = Some m ->
  exists s' g', is_suffix s' s /\ k s' g' = Some m.
Proof.
  induction r as [|p|r1 IH1 r2 IH2|r1 IH1 r2 IH2|r1 IH1|n r1 IH1|];
    intros s g k m Hm; cbn [Re.matchk] in Hm.
  - exists s, g. split; [apply is_suffix_refl|exact Hm].
  - destruct s as [|c s0]; [discriminate|].
    destruct (p c); [|discriminate].
    exists s0, g. split; [apply is_suffix_tail|exact Hm].
  - apply IH1 in Hm as [s1 [g1 [Hs1 Hm]]].
    apply IH2 in Hm as [s2 [g2 [Hs2 Hm]]].
    exists s2, g2. split; [eapply is_suffix_trans; eauto|exact Hm].
  - destruct (Re.matchk r1 s g k) eqn:H1.
    + inversion Hm; subst. now apply IH1 in H1.
    + now apply IH2 in Hm.
  - revert Hm. generalize (String.length s) as fuel. intros fuel. revert s g.
    induction fuel as [|fuel IHf]; intros s g Hm.
    + exists s, g. split; [apply is_suffix_refl|exact Hm].
    + match type of Hm with
      | match ?x with _ => _ end = _ => destruct x eqn:H1
      end.
      * inversion Hm; subst.
        apply IH1 in H1 as [s1 [g1 [Hs1 H1]]].
        destruct (String.length s1 <? String.length s); [|discriminate].
        apply IHf in H1 as [s2 [g2 [Hs2 H2]]].
        exists s2, g2. split; [eapply is_suffix_trans; eauto|exact H2].
      * exists s, g. split; [apply is_suffix_refl|exact Hm].
  - apply IH1 in Hm as [s1 [g1 [Hs1 Hm]]]. eauto.
  - destruct s as [|c [|c' s0]].
    + exists ""%string, g. split; [apply is_suffix_refl|exact Hm].
    + destruct (PyStr.code c =? 10); [|discriminate].
      exists (String c ""), g. split; [apply is_suffix_refl|exact Hm].
    + discriminate.
Qed.

(** A literal matches at the front of a string that starts with it, and
    then runs its continuation on the rest. *)
Lemma matchk_lit p : forall s g k,
  Re.matchk (Re.lit p) s g k
  = if PyStr.startswith p s
    then k (String.substring (String.length p) (String.length s - String.length p) s) g
    else None.
Proof.
  induction p as [|c p IH]; intros s g k; cbn [Re.lit Re.matchk PyStr.startswith].
  - cbn. rewrite Nat.sub_0_r.
    assert (H : forall t, String.substring 0 (String.length t) t = t).
    { induction t as [|a t IHt]; cbn; [reflexivity|now rewrite IHt]. }
    now rewrite H.
  - destruct s as [|a s]; [reflexivity|]. unfold Re.only.
    destruct (Ascii.eqb c a); cbn [andb]; [|reflexivity].
    rewrite IH. reflexivity.
Qed.

Lemma contains_of_suffix needle rest s :
  is_suffix rest s ->
  PyStr.startswith needle rest = true -> PyStr.contains needle s = true.
Proof.
  intros [before ->] Hstart. induction before as [|c before IH].
  - cbn [append]. destruct rest; cbn [PyStr.contains]; now rewrite Hstart.
  - cbn [append PyStr.contains]. rewrite IH. apply orb_true_r.
Qed.

End Matcher.

(* ------------------------------------------------------------------ *)
(** ** Signature and timing-line checks *)

Section Checks.

Lemma matchk_seq_continues r1 r2 s g k m :
  Re.matchk (Re.Seq r1 r2) s g k = Some m ->
  exists s1 g1, is_suffix s1 s /\ Re.matchk r2 s1 g1 k = Some m.
Proof. cbn [Re.matchk]. apply matchk_continues. Qed.

Lemma matchk_seq_lit p r s g k m :
  Re.matchk (Re.Seq (Re.lit p) r) s g k = Some m ->
  PyStr.startswith p s = true.
Proof.
  cbn [Re.matchk]. rewrite matchk_lit.
  now destruct (PyStr.startswith p s).
Qed.

(** Both arrow patterns have the shape: spaces, a first group, spaces,
    the arrow, and more. *)
Lemma arrow_pattern_contains ts1 rest line :
  Re.matches
    (Re.Seq (Re.Star (Re.Chr Re.space))
       (Re.Seq (Re.Group 1 ts1)
          (Re.Seq (Re.Star (Re.Chr Re.space))
             (Re.Seq (Re.lit "-->") rest)))) line = true ->
  PyStr.contains "-->" line = true.
Proof.
  unfold Re.matches, Re.match_.
  destruct (Re.matchk _ line [] _) as [m|] eqn:Hm; [intros _|discriminate].
  apply matchk_seq_continues in Hm as [s1 [g1 [Hs1 Hm]]].
  apply matchk_seq_continues in Hm as [s2 [g2 [Hs2 Hm]]].
  apply matchk_seq_continues in Hm as [s3 [g3 [Hs3 Hm]]].
  apply matchk_seq_lit in Hm.
  eapply contains_of_suffix; [|exact Hm].
  eapply is_suffix_trans; [exact Hs3|].
  eapply is_suffix_trans; [exact Hs2|exact Hs1].
Qed.

Lemma srt_pattern_contains_arrow line :
  Re.matches SRTParser.pattern line = true -> PyStr.contains "-->" line = true.
Proof. apply arrow_pattern_contains. Qed.

Lemma webvtt_pattern_contains_arrow line :
  Re.matches BlockParser.TIMEFRAME_LINE_PATTERN line = true ->
  PyStr.contains "-->" line = true.
Proof. apply arrow_pattern_contains. Qed.

Lemma _parse_timeframe_line_matches pattern line :
  Re.matches pattern line = true ->
  exists start end_,
    TextBasedParser._parse_timeframe_line pattern line = Return (start, end_).
Proof.
  unfold Re.matches, TextBasedParser._parse_timeframe_line,
    TextBasedParser._validate_timeframe_line.
  destruct (Re.match_ pattern line); [eauto|discriminate].
Qed.

Lemma _parse_timeframe_line_returns pattern line start end_ :
  TextBasedParser._parse_timeframe_line pattern line = Return (start, end_) ->
  Re.matches pattern line = true.
Proof.
  unfold Re.matches, TextBasedParser._parse_timeframe_line,
    TextBasedParser._validate_timeframe_line.
  destruct (Re.match_ pattern line); [reflexivity|discriminate].
Qed.

(** X1. A line that matches the timing pattern of the numbered-cue
    format or of the block cue format holds the marker [-->]: what
    [_validate_timeframe_line] accepts, [_is_timeframe_line] and
    [_is_cue_timings_line] take for a timing line. *)
Theorem timing_pattern_line_holds_marker line :
  Re.matches SRTParser.pattern line = true
  \/ Re.matches BlockParser.TIMEFRAME_LINE_PATTERN line = true ->
  @TextBasedParser._is_timeframe_line SRTParser.child line = true
  /\ BlockParser._is_cue_timings_line line = true.
Proof.
  intros [H|H].
  - apply srt_pattern_contains_arrow in H. now split.
  - apply webvtt_pattern_contains_arrow in H. now split.
Qed.

(** X2. When [_validate] of the numbered-cue format accepts the lines,
    they start with the line [1] and a timing line that parses, and the
    loop of [_parse] gets through these two without raising and with
    nothing appended: it holds the first caption open. *)
Theorem srt_validated_lines_open_a_caption lines :
  SRTParser.validate lines = Return tt ->
  exists timing rest start end_,
    lines = "1"%string :: timing :: rest
    /\ TextBasedParser._parse_timeframe_line SRTParser.pattern timing
       = Return (start, end_)
    /\ forall self,
         for_enumerate (@TextBasedParser._parse_line SRTParser.child) 0
           ["1"%string; timing] None self
         = (self, Return (Some (Caption.new start end_))).
Proof.
  unfold SRTParser.validate.
  destruct lines as [|line0 [|line1 rest]]; try discriminate.
  destruct (String.eqb line0 "1") eqn:H0; cbn [negb orb]; [|discriminate].
  destruct (Re.matches SRTParser.pattern line1) eqn:H1; cbn [negb]; [|discriminate].
  intros _. apply String.eqb_eq in H0. subst line0.
  destruct (_parse_timeframe_line_matches _ _ H1) as [start [end_ Hparse]].
  exists line1, rest, start, end_. repeat split; auto.
  intros self. cbn [for_enumerate]. unfold bind at 1.
  rewrite (srt_index_line 0 "1" self eq_refl).
  unfold bind at 1.
  rewrite (@_parse_line_timing SRTParser.child 1 line1 None start end_ self
             (srt_pattern_contains_arrow _ H1) Hparse).
  reflexivity.
Qed.

(** X3. [_validate] of the block cue format accepts the lines exactly
    when the first one starts with [WEBVTT]: the pattern is matched at
    the start of the line and whatever follows the six letters on that
    line is not looked at. *)
Theorem webvtt_signature_is_prefix_check line0 rest :
  BlockParser._validate (line0 :: rest) = Return tt
  <-> PyStr.startswith "WEBVTT" line0 = true.
Proof.
  unfold BlockParser._validate, Re.matches, Re.match_.
  rewrite matchk_lit.
  destruct (PyStr.startswith "WEBVTT" line0); cbn; split; intros H;
    reflexivity || discriminate.
Qed.

End Checks.

Lemma timing_pattern_line_holds_marker_witness :
  @TextBasedParser._is_timeframe_line SRTParser.child
     "  1:00:00,000-->1:00:02,500 trailing" = true
  /\ BlockParser._is_cue_timings_line "  1:00:00,000-->1:00:02,500 trailing" = true.
Proof.
  apply (timing_pattern_line_holds_marker "  1:00:00,000-->1:00:02,500 trailing").
  left. vm_compute. reflexivity.
Defined.

Lemma srt_validated_lines_open_a_caption_witness :
  exists timing rest start end_,
    ["1"; "0:00:01,000 --> 0:00:02,000"; "Hi"]%string
      = "1"%string :: timing :: rest
    /\ TextBasedParser._parse_timeframe_line SRTParser.pattern timing
       = Return (start, end_)
    /\ forall self,
         for_enumerate (@TextBasedParser._parse_line SRTParser.child) 0
           ["1"%string; timing] None self
         = (self, Return (Some (Caption.new start end_))).
Proof.
  apply (srt_validated_lines_open_a_caption
           ["1"; "0:00:01,000 --> 0:00:02,000"; "Hi"]%string).
  vm_compute. reflexivity.
Defined.

(* ------------------------------------------------------------------ *)
(** ** The generic parser: what it reports *)

Section GenericErrors.
Import TextBasedParser.
Context {child : Child}.

Lemma _parse_line_raises index line c self self' e :
  _parse_line index line c self = (self', Raise e) ->
  generic_error (index + 1) line e.
Proof.
  unfold _parse_line.
  destruct (_is_timeframe_line line) eqn:Htf.
  { unfold _parse_timeframe_line, _validate_timeframe_line.
    destruct (Re.match_ TIMEFRAME_LINE_PATTERN line) as [tf|] eqn:Hm; run.
    - discriminate.
    - intros H; inversion H; subst.
      apply invalid_time_format; auto. unfold Re.matches. now rewrite Hm. }
  destruct (_should_skip_line line index c); [run; discriminate|].
  destruct (PyStr.truthy line) eqn:Hne.
  { destruct c; run; intros H; inversion H; subst.
    now apply missing_timeframe. }
  destruct c as [c'|]; [|run; discriminate].
  destruct (nonempty (Caption.lines c')); cbn [negb]; [run; discriminate|].
  destruct ignore_empty_captions eqn:Hopt; run; intros H; inversion H; subst.
  apply missing_text; auto. now destruct line.
Qed.

Lemma for_enumerate_raises lines : forall index c self self' e,
  for_enumerate _parse_line index lines c self = (self', Raise e) ->
  exists j line,
    nth_error lines j = Some line /\ generic_error (index + j + 1) line e.
Proof.
  induction lines as [|line lines IH]; intros index c self self' e Hrun.
  - cbn in Hrun. run. discriminate.
  - cbn [for_enumerate] in Hrun. unfold bind in Hrun.
    destruct (_parse_line index line c self) as [self1 [c1|e1]] eqn:Hline.
    + apply IH in Hrun as [j [l [Hnth Herr]]].
      exists (S j), l. split; [exact Hnth|].
      now replace (index + S j + 1) with (S index + j + 1) by lia.
    + inversion Hrun; subst. exists 0, line. split; [reflexivity|].
      rewrite Nat.add_0_r. eapply _parse_line_raises; eauto.
Qed.

Lemma _parse_raises lines self e :
  snd (_parse lines self) = Raise e ->
  exists n line,
    nth_error lines (n - 1) = Some line /\ 1 <= n <= List.length lines
    /\ generic_error n line e.
Proof.
  unfold _parse. unfold bind at 1. unfold modify at 1. unfold bind at 1.
  destruct (for_enumerate _parse_line 0 lines None (mk [])) as [self1 [c|e1]] eqn:Hloop.
  - destruct c as [c'|]; [destruct (nonempty (Caption.lines c'))|]; run; discriminate.
  - cbn. intros H; inversion H; subst.
    apply for_enumerate_raises in Hloop as [j [line [Hnth Herr]]].
    exists (j + 1), line. replace (j + 1 - 1) with j by lia.
    split; [exact Hnth|]. split; [|exact Herr].
    assert (j < List.length lines) by (apply nth_error_Some; congruence). lia.
Qed.

End GenericErrors.





(* ------------------------------------------------------------------ *)
(** ** The generic parser: well-formed input *)

Section GenericWellFormed.
Import TextBasedParser.
Context {child : Child}.

(** Once a caption is open no line is skipped, and a blank line is no
    timing line: so it is in both child classes. *)
Hypothesis open_caption_skips_nothing :
  forall line index c, _should_skip_line line index (Some c) = false.
Hypothesis blank_is_no_timing_line : _is_timeframe_line "" = false.

Lemma skipped_lines_loop skipped : forall index self,
  Forall (fun line =>
            _is_timeframe_line line = false
            /\ forall index, _should_skip_line line index None = true) skipped ->
  for_enumerate _parse_line index skipped None self = (self, Return None).
Proof.
  induction skipped as [|line skipped IH]; intros index self Hall; [reflexivity|].
  inversion Hall as [|? ? [Htf Hskip] Hrest]; subst.
  cbn [for_enumerate]. unfold bind, _parse_line. rewrite Htf, Hskip.
  cbn [ret]. now apply IH.
Qed.

Lemma text_lines_loop text : forall index c self,
  Forall (fun line =>
            PyStr.truthy line = true /\ _is_timeframe_line line = false) text ->
  for_enumerate _parse_line index text (Some c) self
  = (self,
     Return (Some (Caption.mk (Caption.identifier c) (Caption.start c)
                     (Caption.end_ c) (Caption.lines c ++ text)
                     (Caption.flagEndSentence c)))).
Proof.
  induction text as [|line text IH]; intros index c self Hall.
  - cbn. run. rewrite app_nil_r. now destruct c.
  - inversion Hall as [|? ? [Hne Htf] Hrest]; subst.
    cbn [for_enumerate]. unfold bind, _parse_line.
    rewrite Htf, open_caption_skips_nothing, Hne. cbn [ret].
    rewrite (IH _ _ _ Hrest). cbn. now rewrite <- app_assoc.
Qed.

(** The loop over a cue without its closing blank line ends with the
    cue's caption open. *)
Lemma cue_lines_open_loop q index self :
  well_formed_cue q ->
  for_enumerate _parse_line index (cue_lines_open q) None self
  = (self, Return (Some (cue_caption q))).
Proof.
  intros [Hskipped [Htf [Hparse [_ Htext]]]]. unfold cue_lines_open.
  rewrite for_enumerate_app, (skipped_lines_loop _ _ _ Hskipped).
  cbn [for_enumerate]. unfold bind.
  rewrite (_parse_line_timing _ _ None _ _ _ Htf Hparse).
  rewrite (text_lines_loop _ _ _ _ Htext). reflexivity.
Qed.

Lemma blank_line_closes index c self :
  Caption.lines c <> [] ->
  _parse_line index "" (Some c) self = (append c self, Return None).
Proof.
  intros Hne. unfold _parse_line.
  rewrite blank_is_no_timing_line, open_caption_skips_nothing.
  cbn [PyStr.truthy]. destruct (Caption.lines c); [contradiction|reflexivity].
Qed.

Lemma cue_lines_loop q index self :
  well_formed_cue q ->
  for_enumerate _parse_line index (cue_lines q) None self
  = (append (cue_caption q) self, Return None).
Proof.
  intros Hwf. unfold cue_lines.
  rewrite for_enumerate_app, (cue_lines_open_loop q index self Hwf).
  cbn [for_enumerate]. unfold bind.
  rewrite blank_line_closes; [reflexivity|].
  destruct Hwf as [_ [_ [_ [Hne _]]]]. exact Hne.
Qed.

Lemma cues_loop cues : forall index self,
  Forall well_formed_cue cues ->
  for_enumerate _parse_line index (flat_map cue_lines cues) None self
  = (mk (captions self ++ map cue_caption cues), Return None).
Proof.
  induction cues as [|q cues IH]; intros index self Hall.
  - cbn. run. rewrite app_nil_r. now destruct self.
  - inversion Hall as [|? ? Hq Hrest]; subst. cbn [flat_map map].
    rewrite for_enumerate_app, (cue_lines_loop q index self Hq).
    rewrite (IH _ _ Hrest). unfold append. cbn [captions].
    now rewrite <- app_assoc.
Qed.

(** X6. The generic parser reads well-formed cues back: from the lines
    of a sequence of cues, each closed by a blank line, [_parse] returns
    with exactly the cues' captions, in the order of the file, on any
    instance; the blank line after the last cue may be left out. *)
Theorem generic_parse_reads_cues_back cues q self :
  Forall well_formed_cue (cues ++ [q]) ->
  _parse (flat_map cue_lines (cues ++ [q])) self
    = (mk (map cue_caption (cues ++ [q])), Return tt)
  /\ _parse (flat_map cue_lines cues ++ cue_lines_open q) self
     = (mk (map cue_caption (cues ++ [q])), Return tt).
Proof.
  intros Hall. split.
  - unfold _parse. unfold bind at 1. unfold modify at 1. unfold bind at 1.
    now rewrite (cues_loop _ 0 (mk []) Hall).
  - apply Forall_app in Hall as [Hcues Hq].
    inversion Hq as [|? ? Hq' _]; subst.
    unfold _parse. unfold bind at 1. unfold modify at 1. unfold bind at 1.
    rewrite for_enumerate_app, (cues_loop _ 0 (mk []) Hcues).
    rewrite (cue_lines_open_loop q _ _ Hq').
    destruct Hq' as [_ [_ [_ [Hne _]]]].
    cbn [cue_caption Caption.lines]. destruct (cue_text q) eqn:Ht; [contradiction|].
    cbn. unfold append. cbn. rewrite map_app. reflexivity.
Qed.

Lemma generic_parse_unfold lines self :
  _parse lines self
  = match for_enumerate _parse_line 0 lines None (mk []) with
    | (self1, Return (Some c)) =>
        if nonempty (Caption.lines c)
        then (append c self1, Return tt) else (self1, Return tt)
    | (self1, Return None) => (self1, Return tt)
    | (self1, Raise e) => (self1, Raise e)
    end.
Proof.
  unfold _parse. unfold bind at 1. unfold modify at 1. unfold bind at 1.
  destruct (for_enumerate _parse_line 0 lines None (mk [])) as [self1 [[c|]|e]];
    try reflexivity.
  now destruct (nonempty (Caption.lines c)).
Qed.

(** The loop over one more blank line, for a child class that sets
    [ignore_empty_captions] and does not skip a blank line. *)
Lemma trailing_blank_line lines self :
  ignore_empty_captions = true ->
  (forall index, _should_skip_line "" index None = false) ->
  _parse (lines ++ [""%string]) self = _parse lines self.
Proof.
  intros Hopt Hskip.
  rewrite !generic_parse_unfold, for_enumerate_app.
  destruct (for_enumerate _parse_line 0 lines None (mk [])) as [self1 [c|e]];
    [|reflexivity].
  cbn [for_enumerate]. unfold bind. unfold _parse_line at 1.
  rewrite blank_is_no_timing_line. destruct c as [c'|].
  - rewrite open_caption_skips_nothing. cbn [PyStr.truthy].
    destruct (nonempty (Caption.lines c')); cbn [negb].
    + reflexivity.
    + rewrite Hopt. reflexivity.
  - rewrite Hskip. reflexivity.
Qed.

(** X7. For a child class that sets [ignore_empty_captions], as the
    numbered-cue format does, blank lines at the end of the input change
    nothing: [_parse] leaves the same captions and the same outcome as
    without them. *)
Theorem trailing_blank_lines_change_nothing lines n self :
  ignore_empty_captions = true ->
  (forall index, _should_skip_line "" index None = false) ->
  _parse (lines ++ repeat ""%string n) self = _parse lines self.
Proof.
  intros Hopt Hskip. induction n as [|n IH].
  - cbn. now rewrite app_nil_r.
  - cbn [repeat]. rewrite repeat_cons, app_assoc.
    rewrite trailing_blank_line; auto.
Qed.

End GenericWellFormed.

Lemma generic_parse_reads_cues_back_witness :
  @TextBasedParser._parse SRTParser.child
     ["1"; "0:00:01,000 --> 0:00:02,000"; "Hi"; "there"; "";
      "2"; "0:00:03,000 --> 0:00:04,000"; "Bye"; ""]%string
     TextBasedParser.__init__
  = (TextBasedParser.mk
       [Caption.mk None "0:00:01,000" "0:00:02,000" ["Hi"; "there"]%string false;
        Caption.mk None "0:00:03,000" "0:00:04,000" ["Bye"]%string false],
     Return tt)
  /\ @TextBasedParser._parse SRTParser.child
       ["1"; "0:00:01,000 --> 0:00:02,000"; "Hi"; "there"; "";
        "2"; "0:00:03,000 --> 0:00:04,000"; "Bye"]%string
       TextBasedParser.__init__
     = (TextBasedParser.mk
          [Caption.mk None "0:00:01,000" "0:00:02,000" ["Hi"; "there"]%string false;
           Caption.mk None "0:00:03,000" "0:00:04,000" ["Bye"]%string false],
        Return tt).
Proof.
  apply (@generic_parse_reads_cues_back SRTParser.child
           (fun _ _ _ => eq_refl) eq_refl
           [mk_cue ["1"%string] "0:00:01,000 --> 0:00:02,000"
                   "0:00:01,000" "0:00:02,000" ["Hi"; "there"]%string]
           (mk_cue ["2"%string] "0:00:03,000 --> 0:00:04,000"
                   "0:00:03,000" "0:00:04,000" ["Bye"]%string)
           TextBasedParser.__init__).
  repeat constructor; try discriminate; vm_compute; reflexivity.
Defined.

Lemma trailing_blank_lines_change_nothing_witness :
  @TextBasedParser._parse SRTParser.child
     (["1"; "0:00:01,000 --> 0:00:02,000"; "Hi"; ""; "2";
       "0:00:03,000 --> 0:00:04,000"] ++ repeat ""%string 3)%list
     TextBasedParser.__init__
  = @TextBasedParser._parse SRTParser.child
      ["1"; "0:00:01,000 --> 0:00:02,000"; "Hi"; ""; "2";
       "0:00:03,000 --> 0:00:04,000"]%string
      TextBasedParser.__init__.
Proof.
  apply (@trailing_blank_lines_change_nothing SRTParser.child
           (fun _ _ _ => eq_refl) eq_refl); reflexivity.
Defined.

(* ------------------------------------------------------------------ *)
(** ** Block decomposition, further *)

Section BlockRuns.
Import BlockParser.

Lemma update_last_nonempty f blocks :
  blocks <> [] ->
  exists init b, blocks = init ++ [b] /\ update_last f blocks = init ++ [f b].
Proof.
  intros Hne. destruct (exists_last Hne) as [init [b ->]].
  exists init, b. split; [reflexivity|apply update_last_snoc].
Qed.

Lemma flat_map_snoc {A B} (f : A -> list B) xs x :
  flat_map f (xs ++ [x]) = flat_map f xs ++ f x.
Proof. rewrite flat_map_app. cbn. now rewrite app_nil_r. Qed.

(** One line of the loop adds the line to the blocks when it is not
    blank, and nothing otherwise. *)
Lemma _compute_blocks_line_lines index line blocks :
  flat_map Block.lines (_compute_blocks_line index line blocks)
  = flat_map Block.lines blocks ++ (if PyStr.truthy line then [line] else []).
Proof.
  unfold _compute_blocks_line. destruct (PyStr.truthy line).
  - set (blocks1 := if negb (nonempty blocks) then blocks ++ [Block.new index] else blocks).
    assert (H1 : flat_map Block.lines blocks1 = flat_map Block.lines blocks).
    { subst blocks1. destruct (nonempty blocks); cbn [negb]; auto.
      rewrite flat_map_snoc. cbn. now rewrite app_nil_r. }
    assert (Hne1 : blocks1 <> []).
    { subst blocks1. destruct blocks; cbn; discriminate. }
    rewrite <- H1. clearbody blocks1. clear H1.
    destruct (exists_last Hne1) as [init [b0 ->]]. rewrite last_last.
    destruct (nonempty (Block.lines b0)) eqn:Hb0; cbn [negb].
    + rewrite update_last_snoc, !flat_map_snoc. cbn. now rewrite app_assoc.
    + rewrite !update_last_snoc, !flat_map_snoc. cbn.
      destruct (Block.lines b0); [|discriminate]. now rewrite app_assoc.
  - rewrite flat_map_snoc. cbn. reflexivity.
Qed.

Lemma _compute_blocks_loop_lines lines : forall index blocks,
  flat_map Block.lines (_compute_blocks_loop index lines blocks)
  = flat_map Block.lines blocks ++ filter PyStr.truthy lines.
Proof.
  induction lines as [|line lines IH]; intros index blocks.
  - cbn. now rewrite app_nil_r.
  - cbn [_compute_blocks_loop filter]. rewrite IH, _compute_blocks_line_lines.
    rewrite <- app_assoc. now destruct (PyStr.truthy line).
Qed.

Lemma flat_map_filter_nonempty blocks :
  flat_map Block.lines (filter (fun x => nonempty (Block.lines x)) blocks)
  = flat_map Block.lines blocks.
Proof.
  induction blocks as [|b blocks IH]; [reflexivity|].
  cbn [filter flat_map]. destruct (Block.lines b) eqn:Hb; cbn [nonempty].
  - exact IH.
  - cbn [flat_map]. now rewrite Hb, IH.
Qed.

(** X8. The block decomposition loses no line but the blank ones and
    those of the first block: the lines of the first block that has
    lines, followed by the lines of the blocks [_compute_blocks] keeps,
    are the non-blank lines of the input, in order. *)
Theorem blocks_hold_the_non_blank_lines lines :
  flat_map Block.lines
    (firstn 1 (filter (fun x => nonempty (Block.lines x))
                      (_compute_blocks_loop 1 lines [])))
  ++ flat_map Block.lines (computed_blocks lines)
  = filter PyStr.truthy lines.
Proof.
  unfold computed_blocks. rewrite <- flat_map_app, firstn_skipn.
  now rewrite flat_map_filter_nonempty, _compute_blocks_loop_lines.
Qed.

End BlockRuns.

Section BlockRunsInvariant.
Import BlockParser.

Lemma is_run_later lines upto upto' b :
  upto <= upto' -> is_run lines upto b -> is_run lines upto' b.
Proof. intros Hle [H1 [H2 [H3 H4]]]. repeat split; auto. lia. Qed.

Lemma firstn_succ_nth {A} (l : list A) n x :
  nth_error l n = Some x -> firstn (S n) l = firstn n l ++ [x].
Proof.
  revert l; induction n as [|n IH]; intros [|a l] Hnth; try discriminate.
  - cbn in Hnth. inversion Hnth; subst. now destruct l.
  - cbn in Hnth.
    change (firstn (S (S n)) (a :: l)) with (a :: firstn (S n) l).
    change (firstn (S n) (a :: l)) with (a :: firstn n l).
    now rewrite (IH l Hnth).
Qed.

Lemma blocks_are_runs_snoc_new all index blocks index' :
  blocks_are_runs all index blocks ->
  blocks_are_runs all index (blocks ++ [Block.new index']).
Proof.
  intros [Hruns Hlast]. split.
  - intros b Hin Hne. apply in_app_or in Hin as [Hin|[<-|[]]]; auto.
    now cbn in Hne.
  - intros init b Heq Hne. apply app_inj_tail in Heq as [_ <-]. now cbn in Hne.
Qed.

Lemma _compute_blocks_line_runs all index line blocks :
  1 <= index ->
  nth_error all (index - 1) = Some line ->
  blocks_are_runs all index blocks ->
  blocks_are_runs all (S index) (_compute_blocks_line index line blocks).
Proof.
  intros Hidx Hnth Hinv. unfold _compute_blocks_line.
  destruct (PyStr.truthy line) eqn:Hline.
  2:{ destruct (blocks_are_runs_snoc_new all index blocks index Hinv) as [Hruns Hlast].
      split.
      - intros b Hin Hne. apply (is_run_later all (index - 1)); [lia|auto].
      - intros init b Heq Hne. apply app_inj_tail in Heq as [_ <-]. now cbn in Hne. }
  set (blocks1 := if negb (nonempty blocks) then blocks ++ [Block.new index] else blocks).
  assert (Hinv1 : blocks_are_runs all index blocks1).
  { subst blocks1. destruct (nonempty blocks); cbn [negb]; auto.
    now apply blocks_are_runs_snoc_new. }
  assert (Hne1 : blocks1 <> []).
  { subst blocks1. destruct blocks; cbn; discriminate. }
  clearbody blocks1. destruct (exists_last Hne1) as [init [b0 ->]].
  rewrite last_last. destruct Hinv1 as [Hruns Hlast].
  assert (Hinit : forall b, In b init -> Block.lines b <> [] ->
                            is_run all (S index - 1) b).
  { intros b Hin Hne. apply (is_run_later all (index - 1)); [lia|].
    apply Hruns; auto. apply in_or_app. now left. }
  destruct (nonempty (Block.lines b0)) eqn:Hb0; cbn [negb].
  - assert (Hne0 : Block.lines b0 <> []) by (destruct (Block.lines b0); [discriminate|congruence]).
    pose proof (Hlast init b0 eq_refl Hne0) as Hend.
    assert (Hin0 : In b0 (init ++ [b0])) by (apply in_or_app; right; now left).
    destruct (Hruns b0 Hin0 Hne0) as [H1 [H2 [H3 H4]]].
    assert (Hnew : is_run all (S index - 1) (append_line line b0)).
    { unfold is_run, append_line. cbn [Block.line_number Block.lines].
      rewrite length_app. cbn [List.length]. repeat split; [exact H1|lia| |].
      - rewrite Nat.add_1_r.
        rewrite (firstn_succ_nth _ _ line); [now rewrite H3|].
        rewrite nth_error_skipn.
        now replace (Block.line_number b0 - 1 + List.length (Block.lines b0))
          with (index - 1) by lia.
      - apply Forall_app. split; [exact H4|]. now constructor. }
    rewrite update_last_snoc. split.
    + intros b Hin Hne. apply in_app_or in Hin as [Hin|[<-|[]]]; auto.
    + intros init' b Heq Hne. apply app_inj_tail in Heq as [_ <-].
      unfold append_line. cbn [Block.line_number Block.lines].
      rewrite length_app. cbn [List.length]. lia.
  - assert (Hb : Block.lines b0 = []) by (destruct (Block.lines b0); [reflexivity|discriminate]).
    assert (Hnew : is_run all (S index - 1)
                     (append_line line (set_line_number index b0))).
    { unfold is_run, append_line, set_line_number.
      cbn [Block.line_number Block.lines]. rewrite Hb. cbn [app List.length].
      rewrite !app_nil_l. cbn [List.length].
      repeat split; [exact Hidx|lia| |now repeat constructor].
      rewrite (firstn_succ_nth _ 0 line); [reflexivity|].
      rewrite nth_error_skipn. now rewrite Nat.add_0_r. }
    rewrite !update_last_snoc. split.
    + intros b Hin Hne. apply in_app_or in Hin as [Hin|[<-|[]]]; auto.
    + intros init' b Heq Hne. apply app_inj_tail in Heq as [_ <-].
      unfold append_line, set_line_number. cbn [Block.line_number Block.lines].
      rewrite Hb, app_nil_l. cbn [List.length]. lia.
Qed.

Lemma _compute_blocks_loop_runs rest : forall pre blocks,
  blocks_are_runs (pre ++ rest) (S (List.length pre)) blocks ->
  blocks_are_runs (pre ++ rest) (S (List.length (pre ++ rest)))
    (_compute_blocks_loop (S (List.length pre)) rest blocks).
Proof.
  induction rest as [|line rest IH]; intros pre blocks Hinv.
  - cbn [_compute_blocks_loop]. now rewrite app_nil_r in *.
  - cbn [_compute_blocks_loop].
    specialize (IH (pre ++ [line])).
    rewrite <- app_assoc, length_app in IH. cbn [app List.length] in IH.
    replace (S (List.length pre + 1)) with (S (S (List.length pre))) in IH by lia.
    apply IH. apply _compute_blocks_line_runs; auto; [lia|].
    cbn. rewrite Nat.sub_0_r, nth_error_app2, Nat.sub_diag by lia. reflexivity.
Qed.

Lemma computed_blocks_in lines b :
  In b (computed_blocks lines) ->
  In b (_compute_blocks_loop 1 lines []) /\ Block.lines b <> [].
Proof.
  unfold computed_blocks. intros Hin.
  apply in_skipn_1, filter_In in Hin as [Hin Hne]. split; [exact Hin|].
  destruct (Block.lines b); [discriminate|congruence].
Qed.

(** X9. Every block [_compute_blocks] keeps has at least one line and
    no blank line, and is a run of consecutive lines of the input: its
    lines are those of the input from line [line_number] on. *)
Theorem computed_block_is_run_of_input lines b :
  In b (computed_blocks lines) ->
  Block.lines b <> [] /\ is_run lines (List.length lines) b.
Proof.
  intros Hin. apply computed_blocks_in in Hin as [Hin Hne].
  split; [exact Hne|].
  assert (Hstart : blocks_are_runs ([] ++ lines) (S (@List.length string [])) []).
  { split; [intros ? []|]. intros [|? ?] ? Heq; discriminate. }
  apply _compute_blocks_loop_runs in Hstart as [Hruns _].
  rewrite app_nil_l in Hruns. cbn [List.length] in Hruns.
  replace (S (List.length lines) - 1) with (List.length lines) in Hruns by lia.
  auto.
Qed.

End BlockRunsInvariant.

Lemma computed_block_is_run_of_input_witness :
  Block.lines (Block.mk 5 ["1"; "00:01.000 --> 00:02.000"; "Hi"]%string) <> []
  /\ is_run ["WEBVTT"; "header"; ""; ""; "1"; "00:01.000 --> 00:02.000"; "Hi"; ""]%string
            8 (Block.mk 5 ["1"; "00:01.000 --> 00:02.000"; "Hi"]%string).
Proof.
  apply (computed_block_is_run_of_input
           ["WEBVTT"; "header"; ""; ""; "1"; "00:01.000 --> 00:02.000"; "Hi"; ""]%string
           (Block.mk 5 ["1"; "00:01.000 --> 00:02.000"; "Hi"]%string)).
  vm_compute. left. reflexivity.
Defined.

Section BlockEdges.
Import BlockParser.

Lemma update_last_length f blocks :
  List.length (update_last f blocks) = List.length blocks.
Proof.
  destruct blocks as [|b blocks]; [reflexivity|].
  destruct (update_last_nonempty f (b :: blocks)) as [init [b0 [Heq ->]]];
    [discriminate|].
  rewrite Heq, !length_app. reflexivity.
Qed.

Lemma _compute_blocks_line_single index line blocks :
  PyStr.truthy line = true ->
  List.length blocks <= 1 ->
  List.length (_compute_blocks_line index line blocks) = 1.
Proof.
  intros Hline Hlen. unfold _compute_blocks_line. rewrite Hline.
  rewrite update_last_length.
  destruct blocks as [|b [|b' blocks]]; cbn [nonempty negb app] in *.
  - now destruct (negb _); rewrite ?update_last_length.
  - now destruct (negb _); rewrite ?update_last_length.
  - cbn in Hlen. lia.
Qed.

Lemma _compute_blocks_loop_single lines : forall index blocks,
  Forall (fun line => PyStr.truthy line = true) lines ->
  List.length blocks <= 1 ->
  List.length (_compute_blocks_loop index lines blocks) <= 1.
Proof.
  induction lines as [|line lines IH]; intros index blocks Hall Hlen; [exact Hlen|].
  inversion Hall as [|? ? Hline Hrest]; subst. cbn [_compute_blocks_loop].
  apply IH; [exact Hrest|].
  now rewrite (_compute_blocks_line_single index line blocks Hline Hlen).
Qed.

Lemma filter_length_le {A} (f : A -> bool) l :
  List.length (filter f l) <= List.length l.
Proof.
  induction l as [|a l IH]; cbn; [lia|]. destruct (f a); cbn; lia.
Qed.

Lemma no_blank_line_no_block lines :
  Forall (fun line => PyStr.truthy line = true) lines ->
  computed_blocks lines = [].
Proof.
  intros Hall. unfold computed_blocks.
  pose proof (_compute_blocks_loop_single lines 1 [] Hall (Nat.le_0_l 1)) as Hlen.
  pose proof (filter_length_le (fun x => nonempty (Block.lines x))
                (_compute_blocks_loop 1 lines [])) as Hf.
  destruct (filter _ _) as [|b [|b' l]]; cbn in *; try reflexivity. lia.
Qed.

(** X10. An input without a blank line is one block, the first, which
    is dropped with all its lines: both block-structured parsers return
    from [_parse] with no caption and no new style, whatever the lines
    after the first hold, a cue included. *)
Theorem input_without_blank_line_gives_nothing lines self :
  Forall (fun line => PyStr.truthy line = true) lines ->
  WebVTTParser._parse lines self = (mk [] (styles self) [], Return tt)
  /\ WebVTTParserCDP._parse lines self = (mk [] (styles self) [], Return tt).
Proof.
  intros Hall. rewrite webvtt_parse_unfold, cdp_parse_unfold.
  rewrite (no_blank_line_no_block lines Hall). split; reflexivity.
Qed.

Lemma _compute_blocks_loop_app lines1 : forall lines2 index blocks,
  _compute_blocks_loop index (lines1 ++ lines2) blocks
  = _compute_blocks_loop (index + List.length lines1) lines2
      (_compute_blocks_loop index lines1 blocks).
Proof.
  induction lines1 as [|line lines1 IH]; intros lines2 index blocks.
  - cbn. now rewrite Nat.add_0_r.
  - cbn [app _compute_blocks_loop List.length]. rewrite <- app_comm_cons.
    cbn [_compute_blocks_loop]. rewrite IH.
    now replace (S index + List.length lines1)
      with (index + S (List.length lines1)) by lia.
Qed.

Lemma _compute_blocks_loop_blank n : forall index blocks,
  filter (fun x => nonempty (Block.lines x))
         (_compute_blocks_loop index (repeat ""%string n) blocks)
  = filter (fun x => nonempty (Block.lines x)) blocks.
Proof.
  induction n as [|n IH]; intros index blocks; [reflexivity|].
  cbn [repeat _compute_blocks_loop]. rewrite IH.
  unfold _compute_blocks_line. cbn [PyStr.truthy].
  rewrite filter_app. cbn. apply app_nil_r.
Qed.

(** X11. Blank lines at the end of the input change nothing for the
    block-structured parsers: [_parse] ends in the same state and with
    the same outcome as without them. *)
Theorem block_parsers_ignore_trailing_blank_lines lines n self :
  WebVTTParser._parse (lines ++ repeat ""%string n) self
    = WebVTTParser._parse lines self
  /\ WebVTTParserCDP._parse (lines ++ repeat ""%string n) self
     = WebVTTParserCDP._parse lines self.
Proof.
  assert (H : computed_blocks (lines ++ repeat ""%string n) = computed_blocks lines).
  { unfold computed_blocks.
    now rewrite _compute_blocks_loop_app, _compute_blocks_loop_blank. }
  rewrite !webvtt_parse_unfold, !cdp_parse_unfold, H. split; reflexivity.
Qed.

End BlockEdges.

Lemma input_without_blank_line_gives_nothing_witness :
  WebVTTParser._parse ["WEBVTT"; "00:00:01.000 --> 00:00:02.000"; "Hi"]%string
    BlockParser.__init__
  = (BlockParser.mk [] [] [], Return tt)
  /\ WebVTTParserCDP._parse
       ["WEBVTT"; "00:00:01.000 --> 00:00:02.000"; "Hi"]%string
       BlockParser.__init__
     = (BlockParser.mk [] [] [], Return tt).
Proof.
  apply (input_without_blank_line_gives_nothing
           ["WEBVTT"; "00:00:01.000 --> 00:00:02.000"; "Hi"]%string
           BlockParser.__init__).
  repeat constructor.
Defined.

(* ------------------------------------------------------------------ *)
(** ** Cue blocks *)

Section CueBlocks.
Import BlockParser.

Lemma add_lines_nil c : add_lines [] c = c.
Proof. unfold add_lines. rewrite app_nil_r. now destruct c. Qed.

Lemma add_lines_cons line text c :
  add_lines text (Caption.add_line line c) = add_lines (line :: text) c.
Proof. unfold add_lines, Caption.add_line. cbn. now rewrite <- app_assoc. Qed.

(** Lines without the marker, before or after the timing line. *)
Lemma webvtt_cue_lines_text block pre : forall n rest c timings,
  Forall no_marker pre ->
  WebVTTParser._parse_cue_lines block n (pre ++ rest) (c, timings)
  = WebVTTParser._parse_cue_lines block (n + List.length pre) rest
      (read_text n pre c, timings).
Proof.
  induction pre as [|line pre IH]; intros n rest c timings Hall.
  - cbn [app List.length]. rewrite Nat.add_0_r. unfold read_text.
    destruct (n =? 0); now rewrite ?add_lines_nil.
  - inversion Hall as [|? ? Hline Hrest]; subst. unfold no_marker in Hline.
    rewrite <- app_comm_cons. cbn [WebVTTParser._parse_cue_lines].
    unfold WebVTTParser._parse_cue_line at 1. rewrite Hline.
    cbn [List.length].
    replace (n + S (List.length pre)) with (S n + List.length pre) by lia.
    destruct (n =? 0) eqn:Hn.
    + rewrite (IH (S n) rest _ timings Hrest). unfold read_text. rewrite Hn.
      reflexivity.
    + rewrite (IH (S n) rest _ timings Hrest). unfold read_text. rewrite Hn.
      cbn [Nat.eqb]. now rewrite add_lines_cons.
Qed.

(** The lines split at the first one that has the marker. *)
Lemma split_at_marker lines :
  Forall no_marker lines
  \/ exists pre timing post,
       lines = pre ++ timing :: post
       /\ Forall no_marker pre /\ _is_cue_timings_line timing = true.
Proof.
  induction lines as [|line lines IH]; [left; constructor|].
  destruct (_is_cue_timings_line line) eqn:Hline.
  - right. exists [], line, lines. repeat split; auto.
  - destruct IH as [Hall|[pre [timing [post [-> [Hpre Ht]]]]]].
    + left. now constructor.
    + right. exists (line :: pre), timing, post. repeat split; auto.
Qed.

Lemma webvtt_cue_lines_end block n c timings :
  WebVTTParser._parse_cue_lines block n [] (c, timings) = Return (c, timings).
Proof. reflexivity. Qed.

Lemma _parse_cue_block_outcome block :
  cue_block_outcome block (WebVTTParser._parse_cue_block block).
Proof.
  unfold WebVTTParser._parse_cue_block.
  destruct (split_at_marker (Block.lines block))
    as [Hnone|[pre [timing [post [Hlines [Hpre Htiming]]]]]].
  - rewrite <- (app_nil_r (Block.lines block)) at 1.
    rewrite (webvtt_cue_lines_text block _ 0 [] _ None Hnone).
    rewrite webvtt_cue_lines_end. now apply cue_no_marker.
  - rewrite Hlines at 1.
    rewrite (webvtt_cue_lines_text block pre 0 _ _ None Hpre).
    cbn [WebVTTParser._parse_cue_lines].
    unfold WebVTTParser._parse_cue_line at 1. rewrite Htiming.
    unfold TextBasedParser._parse_timeframe_line,
      TextBasedParser._validate_timeframe_line.
    destruct (Re.match_ TIMEFRAME_LINE_PATTERN timing) as [tf|] eqn:Hm.
    2:{ eapply cue_invalid_time; eauto. unfold Re.matches. now rewrite Hm. }
    assert (Hmatch : Re.matches TIMEFRAME_LINE_PATTERN timing = true)
      by (unfold Re.matches; now rewrite Hm).
    assert (Hparse : TextBasedParser._parse_timeframe_line
                       TIMEFRAME_LINE_PATTERN timing
                     = Return (Re.group 1 tf, Re.group 2 tf)).
    { unfold TextBasedParser._parse_timeframe_line,
        TextBasedParser._validate_timeframe_line. now rewrite Hm. }
    destruct (split_at_marker post)
      as [Hnone|[mid [second [post2 [Hpost [Hmid Hsecond]]]]]].
    + rewrite <- (app_nil_r post) at 1.
      rewrite (webvtt_cue_lines_text block post _ [] _ _ Hnone).
      rewrite webvtt_cue_lines_end.
      replace (Caption.set_end _ _)
        with (Caption.mk (hd_error pre) (Re.group 1 tf) (Re.group 2 tf)
                (skipn 1 pre ++ post) false).
      * eapply cue_read; eauto.
      * unfold read_text. cbn [Nat.add Nat.eqb].
        destruct pre as [|line0 pre']; reflexivity.
    + rewrite Hpost.
      rewrite (webvtt_cue_lines_text block mid _ _ _ _ Hmid).
      cbn [WebVTTParser._parse_cue_lines].
      unfold WebVTTParser._parse_cue_line at 1. rewrite Hsecond.
      replace (S (0 + List.length pre) + List.length mid)
        with (List.length pre + 1 + List.length mid) by lia.
      rewrite Hpost in Hlines.
      eapply cue_second_marker; eauto.
Qed.


(** The sentence-grouping parser reads the lines of a cue block as the
    plain one does, but for the flag. *)
Lemma cdp_cue_lines_as_webvtt block lines : forall n c timings f,
  match WebVTTParser._parse_cue_lines block n lines (c, timings) with
  | Return (c', timings') =>
      exists f',
        WebVTTParserCDP._parse_cue_lines block n lines
          (Caption.set_flagEndSentence f c, timings)
        = Return (Caption.set_flagEndSentence f' c', timings')
  | Raise e =>
      WebVTTParserCDP._parse_cue_lines block n lines
        (Caption.set_flagEndSentence f c, timings) = Raise e
  end.
Proof.
  induction lines as [|line lines IH]; intros n c timings f.
  - cbn. eauto.
  - cbn [WebVTTParser._parse_cue_lines WebVTTParserCDP._parse_cue_lines].
    unfold WebVTTParser._parse_cue_line at 1.
    unfold WebVTTParserCDP._parse_cue_line at 1.
    unfold WebVTTParserCDP._parse_cue_line at 1.
    destruct (_is_cue_timings_line line).
    + destruct timings as [tf0|]; [reflexivity|].
      destruct (TextBasedParser._parse_timeframe_line TIMEFRAME_LINE_PATTERN line)
        as [tf|[]]; try reflexivity.
      apply IH.
    + destruct (n =? 0).
      * apply (IH (S n) (Caption.set_identifier line c) timings f).
      * destruct (WebVTTParserCDP._group_by_sentence line).
        -- apply (IH (S n) (Caption.add_line line c) timings true).
        -- apply (IH (S n) (Caption.add_line line c) timings f).
Qed.

Lemma cdp_cue_block_as_webvtt block :
  WebVTTParserCDP._parse_cue_block block
  = match WebVTTParser._parse_cue_block block with
    | Return c =>
        Return (Caption.set_flagEndSentence
                  (existsb WebVTTParserCDP._group_by_sentence (Caption.lines c)) c)
    | Raise e => Raise e
    end.
Proof.
  destruct (WebVTTParserCDP._parse_cue_block block) as [cc|e] eqn:Hcdp.
  - pose proof (cdp_cue_block_flag block cc Hcdp) as Hflag.
    revert Hcdp. unfold WebVTTParserCDP._parse_cue_block, WebVTTParser._parse_cue_block.
    pose proof (cdp_cue_lines_as_webvtt block (Block.lines block) 0
                  Caption.new0 None false) as H.
    change (Caption.set_flagEndSentence false Caption.new0) with Caption.new0 in H.
    destruct (WebVTTParser._parse_cue_lines block 0 (Block.lines block)
                (Caption.new0, None)) as [[c' [[start end_]|]]|e'].
    + destruct H as [f' ->]. intros Heq; inversion Heq; subst.
      cbn in Hflag. rewrite Hflag. reflexivity.
    + destruct H as [f' ->]. discriminate.
    + rewrite H. discriminate.
  - revert Hcdp. unfold WebVTTParserCDP._parse_cue_block, WebVTTParser._parse_cue_block.
    pose proof (cdp_cue_lines_as_webvtt block (Block.lines block) 0
                  Caption.new0 None false) as H.
    change (Caption.set_flagEndSentence false Caption.new0) with Caption.new0 in H.
    destruct (WebVTTParser._parse_cue_lines block 0 (Block.lines block)
                (Caption.new0, None)) as [[c' [[start end_]|]]|e'].
    + destruct H as [f' ->]. discriminate.
    + destruct H as [f' ->]. intros Heq; inversion Heq; reflexivity.
    + rewrite H. intros Heq; inversion Heq; reflexivity.
Qed.

(** X13. [_parse_cue_block] of the sentence-grouping parser raises what
    that of [WebVTTParser] raises on the same block and returns the same
    caption, with [flagEndSentence] set exactly when one of the
    caption's text lines matches the terminal-punctuation pattern. *)
Theorem cdp_cue_block_is_webvtt_cue_block_with_flag block :
  WebVTTParserCDP._parse_cue_block block
  = match WebVTTParser._parse_cue_block block with
    | Return c =>
        Return (Caption.set_flagEndSentence
                  (existsb WebVTTParserCDP._group_by_sentence (Caption.lines c)) c)
    | Raise e => Raise e
    end.
Proof. apply cdp_cue_block_as_webvtt. Qed.

End CueBlocks.

(* ------------------------------------------------------------------ *)
(** ** What leaves [read_from_buffer] *)

Section LibraryErrors.
Import BlockParser.

Lemma for_each_raises {St X A} (body : X -> A -> M St A) xs :
  forall acc self self' e,
    for_each body xs acc self = (self', Raise e) ->
    exists x acc0 self0, In x xs /\ body x acc0 self0 = (self', Raise e).
Proof.
  induction xs as [|x xs IH]; intros acc self self' e Hrun.
  - cbn in Hrun. run. discriminate.
  - cbn [for_each] in Hrun. unfold bind in Hrun.
    destruct (body x acc self) as [self1 [a1|e1]] eqn:Hb.
    + apply IH in Hrun as [x' [acc0 [self0 [Hin Hx]]]].
      exists x', acc0, self0. split; [now right|exact Hx].
    + inversion Hrun; subst. exists x, acc, self. split; [now left|exact Hb].
Qed.

Lemma mce_is_library_error msg : library_error (MalformedCaptionError msg).
Proof. exists msg. now right. Qed.

Lemma mfe_is_library_error msg : library_error (MalformedFileError msg).
Proof. exists msg. now left. Qed.

Lemma cue_block_has_marker block :
  _is_cue_block block = true -> ~ Forall no_marker (Block.lines block).
Proof.
  unfold _is_cue_block. intros Hcue Hall.
  apply existsb_exists in Hcue as [line [Hin Hline]].
  rewrite Forall_forall in Hall.
  assert (Hin' : In line (Block.lines block)).
  { rewrite <- (firstn_skipn 2 (Block.lines block)). apply in_or_app. now left. }
  specialize (Hall line Hin'). unfold no_marker in Hall. congruence.
Qed.

Lemma webvtt_cue_block_raises block e :
  _is_cue_block block = true ->
  WebVTTParser._parse_cue_block block = Raise e -> library_error e.
Proof.
  intros Hcue Hraise. pose proof (_parse_cue_block_outcome block) as Hout.
  rewrite Hraise in Hout. inversion Hout; subst.
  - apply mce_is_library_error.
  - apply mce_is_library_error.
  - now apply cue_block_has_marker in Hcue.
Qed.

Lemma _parse_other_block_raises block self self' e :
  Block.lines block <> [] ->
  _parse_other_block block self = (self', Raise e) -> library_error e.
Proof.
  intros Hne. unfold _parse_other_block, _is_comment_block, _is_style_block,
    match_first_line.
  destruct (Block.lines block) as [|line0 rest] eqn:Hlines; [contradiction|].
  run. destruct (Re.matches COMMENT_PATTERN line0); [discriminate|].
  destruct (Re.matches STYLE_PATTERN line0).
  - destruct (nonempty (captions self)); [|discriminate].
    intros H; inversion H; subst. apply mfe_is_library_error.
  - destruct (List.length (line0 :: rest) =? 1);
      intros H; inversion H; subst; apply mce_is_library_error.
Qed.

Lemma webvtt_parse_block_raises block acc self self' e :
  Block.lines block <> [] ->
  WebVTTParser._parse_block block acc self = (self', Raise e) -> library_error e.
Proof.
  intros Hne. unfold WebVTTParser._parse_block.
  destruct (_is_cue_block block) eqn:Hcue.
  - run. destruct (WebVTTParser._parse_cue_block block) as [c|e0] eqn:Hc;
      [discriminate|].
    intros H; inversion H; subst. eapply webvtt_cue_block_raises; eauto.
  - now apply _parse_other_block_raises.
Qed.

Lemma cdp_parse_block_raises block acc self self' e :
  Block.lines block <> [] ->
  WebVTTParserCDP._parse_block block acc self = (self', Raise e) -> library_error e.
Proof.
  intros Hne. unfold WebVTTParserCDP._parse_block.
  destruct (_is_cue_block block) eqn:Hcue.
  - run. rewrite cdp_cue_block_as_webvtt.
    destruct (WebVTTParser._parse_cue_block block) as [c|e0] eqn:Hc.
    + destruct (Caption.flagEndSentence _); discriminate.
    + intros H; inversion H; subst. eapply webvtt_cue_block_raises; eauto.
  - unfold bind.
    destruct (_parse_other_block block self) as [self1 [[]|e0]] eqn:Ho.
    + run. discriminate.
    + intros H; inversion H; subst. eapply _parse_other_block_raises; eauto.
Qed.

Lemma webvtt_parse_raises lines self e :
  snd (WebVTTParser._parse lines self) = Raise e -> library_error e.
Proof.
  rewrite webvtt_parse_unfold.
  destruct (for_each _ _ _ _) as [self1 [[]|e1]] eqn:Hrun; [discriminate|].
  cbn. intros H; inversion H; subst.
  apply for_each_raises in Hrun as [b [acc0 [self0 [Hin Hb]]]].
  apply computed_blocks_in in Hin as [_ Hne].
  eapply webvtt_parse_block_raises; eauto.
Qed.

Lemma cdp_parse_raises lines self e :
  snd (WebVTTParserCDP._parse lines self) = Raise e -> library_error e.
Proof.
  rewrite cdp_parse_unfold.
  destruct (for_each _ _ _ _) as [self1 [l|e1]] eqn:Hrun; [discriminate|].
  cbn. intros H; inversion H; subst.
  apply for_each_raises in Hrun as [b [acc0 [self0 [Hin Hb]]]].
  apply computed_blocks_in in Hin as [_ Hne].
  eapply cdp_parse_block_raises; eauto.
Qed.

Lemma generic_parse_raises_library_error (child : TextBasedParser.Child) lines self e :
  snd (TextBasedParser._parse lines self) = Raise e -> library_error e.
Proof.
  intros H. apply _parse_raises in H as [n [line [_ [_ Herr]]]].
  destruct Herr; apply mce_is_library_error.
Qed.

Lemma block_read_from_buffer_raises (parse : list string -> M t unit) buffer self e :
  (forall lines self0 e0, snd (parse lines self0) = Raise e0 -> library_error e0) ->
  snd ((content <- lift (TextBasedParser._read_content_lines buffer) ;;
        lift (_validate content) ;;; parse content) self) = Raise e ->
  library_error e.
Proof.
  intros Hparse. unfold TextBasedParser._read_content_lines, _validate. run.
  destruct buffer as [|line0 rest]; cbn.
  - intros H; inversion H; subst. apply mfe_is_library_error.
  - match goal with |- context [negb ?b] => destruct b end; cbn.
    + apply Hparse.
    + intros H; inversion H; subst. apply mfe_is_library_error.
Qed.

Lemma generic_read_from_buffer_raises (child : TextBasedParser.Child) buffer self e :
  (forall content e0,
      content <> [] ->
      TextBasedParser._validate content = Raise e0 -> library_error e0) ->
  snd (TextBasedParser.read_from_buffer buffer self) = Raise e ->
  library_error e.
Proof.
  intros Hval.
  unfold TextBasedParser.read_from_buffer, TextBasedParser._read_content_lines,
    bind, lift.
  destruct buffer as [|line0 rest]; cbn [nonempty negb snd].
  - intros H; inversion H; subst. apply mfe_is_library_error.
  - destruct (TextBasedParser._validate (line0 :: rest)) as [[]|e0] eqn:Hv;
      cbn [snd].
    + apply generic_parse_raises_library_error.
    + intros H; inversion H; subst. eapply Hval; [|exact Hv]. discriminate.
Qed.

(** X14. Whatever leaves [read_from_buffer] of any of the four parsers
    is one of the library's two errors: the lines it subscripts are
    there and the timings it subscripts are set, so that no [IndexError]
    and no [TypeError] is raised, for any buffer. *)
Theorem read_from_buffer_raises_library_errors buffer bself gself e :
  snd (WebVTTParser.read_from_buffer buffer bself) = Raise e
  \/ snd (WebVTTParserCDP.read_from_buffer buffer bself) = Raise e
  \/ snd (@TextBasedParser.read_from_buffer SRTParser.child buffer gself) = Raise e
  \/ snd (@TextBasedParser.read_from_buffer SBVParser.child buffer gself) = Raise e ->
  library_error e.
Proof.
  intros [H|[H|[H|H]]].
  - eapply (block_read_from_buffer_raises WebVTTParser._parse);
      [apply webvtt_parse_raises|exact H].
  - eapply (block_read_from_buffer_raises WebVTTParserCDP._parse);
      [apply cdp_parse_raises|exact H].
  - eapply (generic_read_from_buffer_raises SRTParser.child); [|exact H].
    intros content e0 _. cbn [TextBasedParser._validate SRTParser.child].
    unfold SRTParser.validate.
    destruct content as [|line0 [|line1 rest]];
      try (intros H0; inversion H0; subst; apply mfe_is_library_error).
    match goal with |- context [if ?b then _ else _] => destruct b end;
      [intros H0; inversion H0; subst; apply mfe_is_library_error|discriminate].
  - eapply (generic_read_from_buffer_raises SBVParser.child); [|exact H].
    intros content e0 Hne. cbn [TextBasedParser._validate SBVParser.child].
    unfold SBVParser.validate.
    destruct content as [|line0 rest]; [contradiction|].
    match goal with |- context [if ?b then _ else _] => destruct b end;
      [intros H0; inversion H0; subst; apply mfe_is_library_error|discriminate].
Qed.

End LibraryErrors.

Lemma read_from_buffer_raises_library_errors_witness :
  library_error (MalformedCaptionError "--> found in line 5").
Proof.
  apply (read_from_buffer_raises_library_errors
           ["WEBVTT"; ""; "id"; "00:01.000 --> 00:02.000"; "a --> b"]%string
           BlockParser.__init__ TextBasedParser.__init__).
  left. vm_compute. reflexivity.
Defined.

(* ------------------------------------------------------------------ *)
(** ** The output of the block-structured parser *)

Section FileOrder.
Import BlockParser.

(** A block that [_parse] of [WebVTTParser] gets through is a cue block
    whose caption is appended, a style block whose record is appended, or
    a comment block. *)
Lemma webvtt_parse_block_returns block self self' :
  WebVTTParser._parse_block block tt self = (self', Return tt) ->
  (_is_cue_block block = true /\ taken_for_style block = false
   /\ exists c, WebVTTParser._parse_cue_block block = Return c
                /\ self' = append c self)
  \/ (_is_cue_block block = false /\ taken_for_style block = true
      /\ self' = append_style (style_of block) self)
  \/ (_is_cue_block block = false /\ taken_for_style block = false
      /\ self' = self).
Proof.
  unfold WebVTTParser._parse_block, taken_for_style.
  destruct (_is_cue_block block) eqn:Hcue; cbn [negb andb].
  - run. destruct (WebVTTParser._parse_cue_block block) as [c|e]; [|discriminate].
    intros H; inversion H; subst. left. eauto.
  - unfold _parse_other_block, _is_comment_block, _is_style_block,
      match_first_line, first_line_matches.
    destruct (Block.lines block) as [|line0 rest] eqn:Hlines; run; [discriminate|].
    destruct (Re.matches COMMENT_PATTERN line0); cbn [negb andb].
    + intros H; inversion H; subst. right. right. auto.
    + destruct (Re.matches STYLE_PATTERN line0).
      * destruct (nonempty (captions self)); [discriminate|].
        intros H; inversion H; subst. right. left.
        unfold style_of. rewrite Hlines. auto.
      * destruct (List.length (line0 :: rest) =? 1); discriminate.
Qed.

Lemma webvtt_loop_returns bs : forall self self',
  for_each WebVTTParser._parse_block bs tt self = (self', Return tt) ->
  exists cs,
    captions self' = captions self ++ cs
    /\ Forall2 (fun b c => WebVTTParser._parse_cue_block b = Return c)
               (filter _is_cue_block bs) cs
    /\ styles self' = styles self ++ map style_of (filter taken_for_style bs)
    /\ blocks self' = blocks self.
Proof.
  induction bs as [|b bs IH]; intros self self' Hrun.
  - cbn in Hrun. run. inversion Hrun; subst. exists [].
    cbn. rewrite !app_nil_r. auto.
  - cbn [for_each] in Hrun. unfold bind in Hrun.
    destruct (WebVTTParser._parse_block b tt self) as [self1 [[]|e]] eqn:Hb;
      [|discriminate].
    apply IH in Hrun as [cs [Hcaps [Hall [Hsty Hblk]]]].
    apply webvtt_parse_block_returns in Hb
      as [[Hcue [Hst [c [Hc ->]]]]|[[Hcue [Hst ->]]|[Hcue [Hst ->]]]];
      cbn [filter]; rewrite Hcue, Hst.
    + exists (c :: cs). cbn [append captions styles blocks] in *.
      rewrite Hcaps, <- app_assoc. repeat split; auto.
    + exists cs. cbn [append_style captions styles blocks map] in *.
      rewrite Hsty, <- app_assoc. repeat split; auto.
    + exists cs. auto.
Qed.

(** X15. When [_parse] of [WebVTTParser] returns, the captions it
    leaves are those of the cue blocks of the input, one for each and in
    the order of the file, and the styles are those the instance held
    followed by one record for each style block, in order. *)
Theorem webvtt_parse_output_in_file_order lines self self' :
  WebVTTParser._parse lines self = (self', Return tt) ->
  Forall2 (fun b c => WebVTTParser._parse_cue_block b = Return c)
          (filter _is_cue_block (computed_blocks lines)) (captions self')
  /\ styles self'
     = styles self ++ map style_of (filter taken_for_style (computed_blocks lines)).
Proof.
  rewrite webvtt_parse_unfold. intros Hrun.
  apply webvtt_loop_returns in Hrun as [cs [Hcaps [Hall [Hsty _]]]].
  cbn [captions styles app] in *. rewrite Hcaps. auto.
Qed.

End FileOrder.

Lemma webvtt_parse_output_in_file_order_witness :
  Forall2 (fun b c => WebVTTParser._parse_cue_block b = Return c)
    (filter BlockParser._is_cue_block
       (BlockParser.computed_blocks
          ["WEBVTT"; ""; "STYLE"; "::cue {}"; ""; "NOTE x"; "";
           "a"; "00:01.000 --> 00:02.000"; "Hi"; "";
           "00:03.000 --> 00:04.000"; "Bye"]%string))
    [Caption.mk (Some "a"%string) "00:01.000" "00:02.000" ["Hi"%string] false;
     Caption.mk None "00:03.000" "00:04.000" ["Bye"%string] false]
  /\ [Style.mk ["::cue {}"%string]]
     = [] ++ map style_of
               (filter taken_for_style
                  (BlockParser.computed_blocks
                     ["WEBVTT"; ""; "STYLE"; "::cue {}"; ""; "NOTE x"; "";
                      "a"; "00:01.000 --> 00:02.000"; "Hi"; "";
                      "00:03.000 --> 00:04.000"; "Bye"]%string)).
Proof.
  apply (webvtt_parse_output_in_file_order
           ["WEBVTT"; ""; "STYLE"; "::cue {}"; ""; "NOTE x"; "";
            "a"; "00:01.000 --> 00:02.000"; "Hi"; "";
            "00:03.000 --> 00:04.000"; "Bye"]%string
           BlockParser.__init__
           (BlockParser.mk
              [Caption.mk (Some "a"%string) "00:01.000" "00:02.000" ["Hi"%string] false;
               Caption.mk None "00:03.000" "00:04.000" ["Bye"%string] false]
              [Style.mk ["::cue {}"%string]]
              (BlockParser.computed_blocks
                 ["WEBVTT"; ""; "STYLE"; "::cue {}"; ""; "NOTE x"; "";
                  "a"; "00:01.000 --> 00:02.000"; "Hi"; "";
                  "00:03.000 --> 00:04.000"; "Bye"]%string))).
  vm_compute. reflexivity.
Defined.

(* ------------------------------------------------------------------ *)
(** ** Sentences *)

Section Sentences.
Import BlockParser.
Import WebVTTParserCDP.

Lemma accumulator_not_empty g t : String.eqb (g ++ " " ++ t) "" = false.
Proof. now destruct g. Qed.

(** A cue without the flag joins the group that is under way. *)
Lemma cdp_cue_joins p g rest st self :
  reads_cue p -> Caption.flagEndSentence (snd p) = false ->
  _parse_block (fst p) (mk_locals (String g rest) st) self
  = (self, Return (mk_locals (String g rest ++ " " ++ Caption.text (snd p)) st)).
Proof.
  intros [Hcue Hparse] Hflag. unfold _parse_block. rewrite Hcue. run.
  rewrite Hparse, Hflag. reflexivity.
Qed.

(** A cue with the flag ends the group that is under way. *)
Lemma cdp_cue_ends p g rest st self :
  reads_cue p -> Caption.flagEndSentence (snd p) = true ->
  _parse_block (fst p) (mk_locals (String g rest) st) self
  = (append (Caption.set_start st
               (Caption.set_text (String g rest ++ " " ++ Caption.text (snd p))
                  (snd p))) self,
     Return (mk_locals "" st)).
Proof.
  intros [Hcue Hparse] Hflag. unfold _parse_block. rewrite Hcue. run.
  rewrite Hparse, Hflag. reflexivity.
Qed.

Lemma cdp_cues_join init : forall g rest st self,
  Forall (fun p => reads_cue p /\ Caption.flagEndSentence (snd p) = false) init ->
  for_each _parse_block (map fst init) (mk_locals (String g rest) st) self
  = (self, Return (mk_locals (group_text_from (String g rest) (map snd init)) st)).
Proof.
  induction init as [|p init IH]; intros g rest st self Hall; [reflexivity|].
  inversion Hall as [|? ? [Hp Hflag] Hinit]; subst.
  cbn [map for_each]. unfold bind.
  rewrite (cdp_cue_joins p g rest st self Hp Hflag).
  cbn [String.append]. rewrite (IH _ _ st self Hinit). reflexivity.
Qed.

(** The rest of a sentence, once its first cue is in the accumulator. *)
Lemma cdp_sentence_rest init last g rest st self :
  Forall (fun p => reads_cue p /\ Caption.flagEndSentence (snd p) = false) init ->
  reads_cue last -> Caption.flagEndSentence (snd last) = true ->
  for_each _parse_block (map fst init ++ [fst last])
    (mk_locals (String g rest) st) self
  = (append (Caption.set_start st
               (Caption.set_text
                  (group_text_from (String g rest) (map snd init ++ [snd last]))
                  (snd last))) self,
     Return (mk_locals "" st)).
Proof.
  intros Hinit Hlast Hflag.
  rewrite for_each_app, (cdp_cues_join init g rest st self Hinit).
  cbn [for_each]. unfold bind.
  unfold group_text_from. rewrite fold_left_app. cbn [fold_left].
  fold (group_text_from (String g rest) (map snd init)).
  destruct (group_text_from (String g rest) (map snd init)) as [|g' rest'] eqn:Hg.
  - exfalso. revert Hg. clear. revert g rest.
    induction (map snd init) as [|c cs IH]; intros g rest; [discriminate|].
    cbn. apply IH.
  - rewrite (cdp_cue_ends last g' rest' st self Hlast Hflag). reflexivity.
Qed.

(** A whole sentence, from an empty accumulator. *)
Lemma cdp_sentence s st self :
  well_formed_sentence s ->
  for_each _parse_block (sentence_blocks s) (mk_locals "" st) self
  = (append (sentence_caption s) self,
     Return (mk_locals ""
               (Caption.start (hd (snd (snd s)) (sentence_captions s))))).
Proof.
  destruct s as [init last]. intros [Hinit [Hlast Hflag]].
  unfold sentence_blocks, sentence_caption, sentence_captions. cbn [fst snd] in *.
  destruct init as [|p init].
  - change (map fst [] ++ [fst last]) with [fst last].
    change (map snd [] ++ [snd last]) with [snd last].
    cbn [for_each hd]. unfold bind.
    destruct Hlast as [Hcue Hparse]. unfold _parse_block. rewrite Hcue. run.
    rewrite Hparse, Hflag. reflexivity.
  - inversion Hinit as [|? ? [[Hcue Hparse] Hpflag] Hinit']; subst.
    change (map fst (p :: init) ++ [fst last])
      with (fst p :: (map fst init ++ [fst last])).
    change (map snd (p :: init) ++ [snd last])
      with (snd p :: (map snd init ++ [snd last])).
    cbn [for_each hd]. unfold bind at 1.
    unfold _parse_block at 1. rewrite Hcue. unfold bind at 1. unfold lift at 1.
    rewrite Hparse, Hpflag. cbn [String.eqb group_captions ret].
    change ("" ++ " " ++ Caption.text (snd p))%string
      with (String " " (Caption.text (snd p))).
    change (for_each _parse_block (map fst init ++ [fst last]))
      with (for_each _parse_block (map fst init ++ [fst last])).
    rewrite (cdp_sentence_rest init last " " (Caption.text (snd p))
               (Caption.start (snd p)) self Hinit' Hlast Hflag).
    reflexivity.
Qed.

Lemma cdp_sentences ss : forall st self,
  Forall well_formed_sentence ss ->
  exists st',
    for_each _parse_block (flat_map sentence_blocks ss) (mk_locals "" st) self
    = (mk (captions self ++ map sentence_caption ss) (styles self) (blocks self),
       Return (mk_locals "" st')).
Proof.
  induction ss as [|s ss IH]; intros st self Hall.
  - exists st. cbn. run. rewrite app_nil_r. now destruct self.
  - inversion Hall as [|? ? Hs Hss]; subst. cbn [flat_map map].
    rewrite for_each_app, (cdp_sentence s st self Hs).
    destruct (IH (Caption.start (hd (snd (snd s)) (sentence_captions s)))
                 (append (sentence_caption s) self) Hss) as [st' ->].
    exists st'. unfold append. cbn [captions styles blocks].
    now rewrite <- app_assoc.
Qed.

(** X16. The sentence-grouping parser on an input of cue blocks: when
    the blocks are sentences, each a run of cue blocks the last of which
    alone has a text line with terminal punctuation, followed by cue
    blocks without any, [_parse] returns with one caption for each
    sentence, in order: the caption of the sentence's last cue, with the
    texts of all its cues, each after a space, as text and the start of
    its first cue as start. *)
Theorem cdp_parse_groups_sentences lines ss trailing self :
  computed_blocks lines = flat_map sentence_blocks ss ++ trailing ->
  Forall well_formed_sentence ss ->
  Forall unterminated_cue trailing ->
  _parse lines self
  = (mk (map sentence_caption ss) (styles self) (computed_blocks lines),
     Return tt).
Proof.
  intros Hblocks Hss Htrailing.
  rewrite cdp_parse_unfold. rewrite Hblocks at 1. rewrite for_each_app.
  destruct (cdp_sentences ss "00:00:00.000"
              (mk [] (styles self) (computed_blocks lines)) Hss) as [st' ->].
  cbn [captions styles blocks]. rewrite app_nil_l.
  destruct (cdp_unterminated_cues trailing (mk_locals "" st')
              (mk (map sentence_caption ss) (styles self) (computed_blocks lines))
              Htrailing) as [l' ->].
  reflexivity.
Qed.

End Sentences.

Lemma cdp_parse_groups_sentences_witness :
  WebVTTParserCDP._parse
    ["WEBVTT"; "";
     "00:01.000 --> 00:02.000"; "Hello"; "";
     "00:03.000 --> 00:04.000"; "big"; "";
     "00:05.000 --> 00:06.000"; "world."; "";
     "00:07.000 --> 00:08.000"; "Bye!"; "";
     "00:09.000 --> 00:10.000"; "and"]%string
    BlockParser.__init__
  = (BlockParser.mk
       [Caption.mk None "00:01.000" "00:06.000" [" Hello big world."%string] true;
        Caption.mk None "00:07.000" "00:08.000" [" Bye!"%string] true]
       []
       (BlockParser.computed_blocks
          ["WEBVTT"; "";
           "00:01.000 --> 00:02.000"; "Hello"; "";
           "00:03.000 --> 00:04.000"; "big"; "";
           "00:05.000 --> 00:06.000"; "world."; "";
           "00:07.000 --> 00:08.000"; "Bye!"; "";
           "00:09.000 --> 00:10.000"; "and"]%string),
     Return tt).
Proof.
  apply (cdp_parse_groups_sentences
           ["WEBVTT"; "";
            "00:01.000 --> 00:02.000"; "Hello"; "";
            "00:03.000 --> 00:04.000"; "big"; "";
            "00:05.000 --> 00:06.000"; "world."; "";
            "00:07.000 --> 00:08.000"; "Bye!"; "";
            "00:09.000 --> 00:10.000"; "and"]%string
           [([(Block.mk 3 ["00:01.000 --> 00:02.000"; "Hello"]%string,
               Caption.mk None "00:01.000" "00:02.000" ["Hello"%string] false);
              (Block.mk 6 ["00:03.000 --> 00:04.000"; "big"]%string,
               Caption.mk None "00:03.000" "00:04.000" ["big"%string] false)],
             (Block.mk 9 ["00:05.000 --> 00:06.000"; "world."]%string,
              Caption.mk None "00:05.000" "00:06.000" ["world."%string] true));
            ([],
             (Block.mk 12 ["00:07.000 --> 00:08.000"; "Bye!"]%string,
              Caption.mk None "00:07.000" "00:08.000" ["Bye!"%string] true))]
           [Block.mk 15 ["00:09.000 --> 00:10.000"; "and"]%string]
           BlockParser.__init__).
  - vm_compute. reflexivity.
  - repeat constructor; vm_compute; reflexivity.
  - repeat constructor;
      (eexists; split; [vm_compute; reflexivity | repeat constructor]).
Defined.

Section GroupedCaptions.
Import BlockParser.
Import WebVTTParserCDP.

(** A property of the locals and the instance that the body keeps when
    it returns gives, wherever the loop stops, what it implies of the
    instance. *)
Lemma for_each_invariant_acc {St X A} (P : A -> St -> Prop) (Q : St -> Prop)
      (body : X -> A -> M St A) :
  (forall acc self, P acc self -> Q self) ->
  (forall x acc self self' acc',
      P acc self -> body x acc self = (self', Return acc') -> P acc' self') ->
  (forall x acc self self' e,
      P acc self -> body x acc self = (self', Raise e) -> Q self') ->
  forall xs acc self self' r,
    P acc self -> for_each body xs acc self = (self', r) -> Q self'.
Proof.
  intros HPQ Hret Hraise xs; induction xs as [|x xs IH];
    intros acc self self' r HP Hrun.
  - cbn in Hrun. run. inversion Hrun; subst. eauto.
  - cbn [for_each] in Hrun. unfold bind in Hrun.
    destruct (body x acc self) as [self1 [a1|e]] eqn:Hb.
    + eapply IH; [eapply Hret; eauto | exact Hrun].
    + inversion Hrun; subst. eapply Hraise; eauto.
Qed.

Lemma group_accumulator_grows g t :
  group_accumulator g -> exists rest, (g ++ " " ++ t)%string = String " " rest.
Proof. intros [->|[rest ->]]; cbn; eauto. Qed.

Lemma _parse_other_block_captions block self self' r :
  _parse_other_block block self = (self', r) -> captions self' = captions self.
Proof.
  unfold _parse_other_block. run.
  destruct (_is_comment_block block) as [[|]|e];
    [intros H; now inversion H| |intros H; now inversion H].
  destruct (_is_style_block block) as [[|]|e0];
    [ | |intros H; now inversion H].
  - destruct (nonempty (captions self)); intros H; now inversion H.
  - destruct (List.length (Block.lines block) =? 1); intros H; now inversion H.
Qed.

Lemma cdp_parse_block_grouped block l self self' r :
  group_accumulator (group_captions l) ->
  Forall grouped_caption (captions self) ->
  _parse_block block l self = (self', r) ->
  Forall grouped_caption (captions self')
  /\ forall l', r = Return l' -> group_accumulator (group_captions l').
Proof.
  intros Hacc Hcaps. unfold _parse_block.
  destruct (_is_cue_block block).
  - run. destruct (_parse_cue_block block) as [c|e];
      [|intros H; inversion H; subst; split; [auto|discriminate]].
    destruct (group_accumulator_grows _ (Caption.text c) Hacc) as [rest Hrest].
    destruct (Caption.flagEndSentence c) eqn:Hflag;
      intros H; inversion H; subst; split.
    + cbn [append captions]. apply Forall_app. split; [exact Hcaps|].
      constructor; [|constructor]. split; [exact Hflag|].
      exists rest. unfold Caption.text. cbn. exact Hrest.
    + intros l' Hl'; inversion Hl'; subst. now left.
    + exact Hcaps.
    + intros l' Hl'; inversion Hl'; subst. right. eauto.
  - unfold bind.
    destruct (_parse_other_block block self) as [self1 [[]|e]] eqn:Ho;
      apply _parse_other_block_captions in Ho;
      run; intros H; inversion H; subst; rewrite Ho; split; auto;
      try discriminate.
    intros l' Hl'; inversion Hl'; subst; exact Hacc.
Qed.

(** X17. Every caption the sentence-grouping parser holds after
    [_parse], whether it returned or raised, has [flagEndSentence] set
    and a text that starts with a space: the accumulator puts a space
    before the text of each cue, the first included. *)
Theorem cdp_captions_are_grouped lines self :
  Forall grouped_caption (captions (fst (_parse lines self))).
Proof.
  rewrite cdp_parse_unfold.
  destruct (for_each _ _ _ _) as [self1 r] eqn:Hrun.
  assert (H : Forall grouped_caption (captions self1)).
  { revert Hrun.
    apply (for_each_invariant_acc
             (fun l s => group_accumulator (group_captions l)
                         /\ Forall grouped_caption (captions s))
             (fun s => Forall grouped_caption (captions s))).
    - tauto.
    - intros x acc s s' acc' [Hacc Hcaps] Hb.
      apply (cdp_parse_block_grouped _ _ _ _ _ Hacc Hcaps) in Hb as [H1 H2].
      split; auto.
    - intros x acc s s' e [Hacc Hcaps] Hb.
      now apply (cdp_parse_block_grouped _ _ _ _ _ Hacc Hcaps) in Hb as [H1 _].
    - split; [now left|constructor]. }
  now destruct r.
Qed.

Lemma taken_for_style_other block self :
  taken_for_style block = true ->
  captions self = [] ->
  _is_cue_block block = false
  /\ _parse_other_block block self = (append_style (style_of block) self, Return tt).
Proof.
  unfold taken_for_style, first_line_matches, _parse_other_block,
    _is_comment_block, _is_style_block, match_first_line, style_of.
  intros Hst Hcaps.
  destruct (_is_cue_block block); [discriminate|]. split; [reflexivity|].
  destruct (Block.lines block) as [|line0 rest]; [discriminate|]. run.
  destruct (Re.matches COMMENT_PATTERN line0); [discriminate|].
  destruct (Re.matches STYLE_PATTERN line0); [|discriminate].
  now rewrite Hcaps.
Qed.

Lemma webvtt_reads_unterminated_cues cues : forall self,
  Forall unterminated_cue cues ->
  exists cs,
    List.length cs = List.length cues
    /\ for_each WebVTTParser._parse_block cues tt self
       = (mk (captions self ++ cs) (styles self) (blocks self), Return tt).
Proof.
  induction cues as [|b cues IH]; intros self Hall.
  - exists []. cbn. run. rewrite app_nil_r. now destruct self.
  - inversion Hall as [|? ? [Hcue [c [Hparse _]]] Hrest]; subst.
    rewrite cdp_cue_block_as_webvtt in Hparse.
    destruct (WebVTTParser._parse_cue_block b) as [c'|e] eqn:Hc; [|discriminate].
    destruct (IH (append c' self) Hrest) as [cs [Hlen Hrun]].
    exists (c' :: cs). split; [cbn; now rewrite Hlen|].
    cbn [for_each]. unfold bind at 1. unfold WebVTTParser._parse_block at 1.
    rewrite Hcue. unfold bind at 1. unfold lift at 1. rewrite Hc.
    unfold modify at 1. rewrite Hrun. unfold append. cbn [captions styles blocks].
    now rewrite <- app_assoc.
Qed.

(** X18. The two block-structured parsers part on a style block that
    comes after cue blocks none of which ends a sentence.  The
    sentence-grouping parser has appended no caption yet: it takes the
    style block and appends its record.  [WebVTTParser] has appended a
    caption for each cue block: it raises [MalformedFileError]. *)
Theorem style_block_after_unterminated_cues cues block l self :
  cues <> [] ->
  Forall unterminated_cue cues ->
  taken_for_style block = true ->
  captions self = [] ->
  (exists l',
      for_each _parse_block (cues ++ [block]) l self
      = (append_style (style_of block) self, Return l'))
  /\ (exists self1,
         for_each WebVTTParser._parse_block (cues ++ [block]) tt self
         = (self1,
            Raise (MalformedFileError
                     ("Style block defined after the first cue in line "
                        ++ PyStr.of_nat (Block.line_number block) ++ ".")))).
Proof.
  intros Hne Hcues Hstyle Hcaps. split.
  - destruct (cdp_unterminated_cues cues l self Hcues) as [l1 Hl1].
    exists l1. rewrite for_each_app, Hl1. cbn [for_each]. unfold bind at 1.
    destruct (taken_for_style_other block self Hstyle Hcaps) as [Hcue Hother].
    unfold _parse_block. rewrite Hcue. unfold bind. now rewrite Hother.
  - destruct (webvtt_reads_unterminated_cues cues self Hcues) as [cs [Hlen Hrun]].
    eexists. rewrite for_each_app, Hrun. cbn [for_each]. unfold bind at 1.
    unfold WebVTTParser._parse_block.
    assert (Hcue : _is_cue_block block = false).
    { unfold taken_for_style in Hstyle. now destruct (_is_cue_block block). }
    rewrite Hcue.
    assert (Hst : exists line0 rest,
               Block.lines block = line0 :: rest
               /\ Re.matches STYLE_PATTERN line0 = true).
    { unfold taken_for_style, first_line_matches in Hstyle.
      destruct (Block.lines block) as [|line0 rest].
      - rewrite !andb_false_r in Hstyle. discriminate.
      - exists line0, rest. split; [reflexivity|].
        apply andb_prop in Hstyle as [_ Hs]. exact Hs. }
    destruct Hst as [line0 [rest [Hlines Hmatch]]].
    rewrite (_parse_other_block_style_after_cue block line0 rest _ Hlines Hmatch).
    + reflexivity.
    + cbn [captions]. rewrite Hcaps. destruct cs as [|c cs]; [|reflexivity].
      destruct cues; [contradiction|discriminate].
Qed.

End GroupedCaptions.

Lemma style_block_after_unterminated_cues_witness :
  (exists l',
      for_each WebVTTParserCDP._parse_block
        ([Block.mk 3 ["00:01.000 --> 00:02.000"; "Hello"]%string]
           ++ [Block.mk 6 ["STYLE"; "::cue {}"]%string])
        (WebVTTParserCDP.mk_locals "" "00:00:00.000") BlockParser.__init__
      = (BlockParser.append_style
           (style_of (Block.mk 6 ["STYLE"; "::cue {}"]%string))
           BlockParser.__init__,
         Return l'))
  /\ (exists self1,
         for_each WebVTTParser._parse_block
           ([Block.mk 3 ["00:01.000 --> 00:02.000"; "Hello"]%string]
              ++ [Block.mk 6 ["STYLE"; "::cue {}"]%string])
           tt BlockParser.__init__
         = (self1,
            Raise (MalformedFileError
                     ("Style block defined after the first cue in line "
                        ++ PyStr.of_nat 6 ++ ".")))).
Proof.
  apply (style_block_after_unterminated_cues
           [Block.mk 3 ["00:01.000 --> 00:02.000"; "Hello"]%string]
           (Block.mk 6 ["STYLE"; "::cue {}"]%string)
           (WebVTTParserCDP.mk_locals "" "00:00:00.000") BlockParser.__init__).
  - discriminate.
  - repeat constructor;
      (eexists; split; [vm_compute; reflexivity | repeat constructor]).
  - vm_compute. reflexivity.
  - reflexivity.
Defined.

(* ------------------------------------------------------------------ *)
(** ** The patterns of the block cue format *)

Section Patterns.
Import BlockParser.

(** A repetition of a character class, one character at a time. *)
Lemma matchk_star_chr p c s g k :
  Re.matchk (Re.Star (Re.Chr p)) (String c s) g k
  = if p c
    then match Re.matchk (Re.Star (Re.Chr p)) s g k with
         | Some m => Some m
         | None => k (String c s) g
         end
    else k (String c s) g.
Proof.
  cbn [Re.matchk String.length]. destruct (p c); [|reflexivity].
  rewrite (proj2 (Nat.ltb_lt _ _) (Nat.lt_succ_diag_r (String.length s))).
  reflexivity.
Qed.

Lemma matchk_star_empty r g k :
  Re.matchk (Re.Star r) "" g k = k ""%string g.
Proof. reflexivity. Qed.

(** A repetition whose continuation always succeeds succeeds. *)
Lemma matchk_star_succeeds r s g k :
  (forall s' g', k s' g' <> None) -> Re.matchk (Re.Star r) s g k <> None.
Proof.
  intros Hk. cbn [Re.matchk]. generalize (String.length s) as fuel.
  intros [|fuel]; [apply Hk|].
  match goal with |- match ?x with _ => _ end <> None => destruct x end;
    [discriminate|apply Hk].
Qed.

Lemma sentence_pattern_matchk line : forall g,
  Re.matchk WebVTTParserCDP.IDENTIFY_SENTENCE line g (fun _ g' => Some g')
  = if has_terminator line then Some g else None.
Proof.
  unfold WebVTTParserCDP.IDENTIFY_SENTENCE. cbn [Re.cat].
  induction line as [|c line IH]; intros g.
  - reflexivity.
  - change (Re.matchk (Re.Seq (Re.Star (Re.Chr Re.dot))
                         (Re.Chr (Re.one_of ["."%char; "!"%char; "?"%char])))
                      (String c line) g (fun _ g' => Some g'))
      with (Re.matchk (Re.Star (Re.Chr Re.dot)) (String c line) g
              (fun s1 g1 =>
                 Re.matchk (Re.Chr (Re.one_of ["."%char; "!"%char; "?"%char]))
                           s1 g1 (fun _ g' => Some g'))).
    rewrite matchk_star_chr.
    change (Re.matchk (Re.Star (Re.Chr Re.dot)) line g
              (fun s1 g1 =>
                 Re.matchk (Re.Chr (Re.one_of ["."%char; "!"%char; "?"%char]))
                           s1 g1 (fun _ g' => Some g')))
      with (Re.matchk (Re.Seq (Re.Star (Re.Chr Re.dot))
                         (Re.Chr (Re.one_of ["."%char; "!"%char; "?"%char])))
                      line g (fun _ g' => Some g')).
    rewrite IH. cbn [Re.matchk has_terminator]. unfold is_terminator.
    destruct (Re.dot c), (has_terminator line),
      (Re.one_of ["."%char; "!"%char; "?"%char] c); reflexivity.
Qed.

Lemma has_terminator_no_newline line :
  PyStr.all_chars Re.dot line = true ->
  has_terminator line = any_char is_terminator line.
Proof.
  induction line as [|c line IH]; [reflexivity|].
  cbn. intros H. apply andb_prop in H as [Hc Hrest].
  now rewrite Hc, (IH Hrest).
Qed.

(** X19. [_group_by_sentence] holds of a line exactly when one of the
    marks [.], [!], [?] occurs in it before any newline, wherever in the
    line: on a line without a newline, as the parser gets them, when
    some character of the line is one of the three. *)
Theorem group_by_sentence_is_any_terminator line :
  PyStr.all_chars Re.dot line = true ->
  WebVTTParserCDP._group_by_sentence line = any_char is_terminator line.
Proof.
  intros Hline. rewrite <- (has_terminator_no_newline line Hline).
  unfold WebVTTParserCDP._group_by_sentence, Re.matches, Re.match_.
  rewrite sentence_pattern_matchk. now destruct (has_terminator line).
Qed.

End Patterns.

Lemma group_by_sentence_is_any_terminator_witness :
  WebVTTParserCDP._group_by_sentence "Dr. Smith said" = true.
Proof.
  apply (group_by_sentence_is_any_terminator "Dr. Smith said").
  reflexivity.
Defined.

Section Headers.
Import BlockParser.

Lemma matchk_seq_lit_eq p r s g k :
  Re.matchk (Re.Seq (Re.lit p) r) s g k
  = if PyStr.startswith p s
    then Re.matchk r (drop (String.length p) s) g k
    else None.
Proof. cbn [Re.matchk]. now rewrite matchk_lit. Qed.

Lemma matchk_eol s g :
  Re.matchk Re.Eol s g (fun _ g' => Some g')
  = if at_line_end s then Some g else None.
Proof.
  destruct s as [|c [|c' s]]; reflexivity.
Qed.

Lemma blank_to_line_end_matchk s : forall g,
  Re.matchk (Re.Star (Re.Chr (Re.one_of [" "%char; "009"%char]))) s g
    (fun s1 g1 => Re.matchk Re.Eol s1 g1 (fun _ g' => Some g'))
  = if blank_to_line_end s then Some g else None.
Proof.
  induction s as [|c s IH]; intros g; [reflexivity|].
  rewrite matchk_star_chr, IH, matchk_eol.
  cbn [blank_to_line_end]. unfold is_blank_char.
  destruct (Re.one_of [" "%char; "009"%char] c), (blank_to_line_end s),
    (at_line_end (String c s)); reflexivity.
Qed.

(** X20. The first line of a block matches the style header exactly
    when it is [STYLE], then spaces and tabs only, up to the end of the
    line: a line that goes on with anything else, such as a selector, is
    no style header. *)
Theorem style_header_is_style_then_blanks line :
  Re.matches STYLE_PATTERN line
  = PyStr.startswith "STYLE" line && blank_to_line_end (drop 5 line).
Proof.
  unfold Re.matches, Re.match_, STYLE_PATTERN. cbn [Re.cat].
  rewrite matchk_seq_lit_eq.
  destruct (PyStr.startswith "STYLE" line); [|reflexivity].
  change (Re.matchk (Re.Seq (Re.Star (Re.Chr (Re.one_of [" "%char; "009"%char]))) Re.Eol)
            (drop (String.length "STYLE") line) [] (fun _ g => Some g))
    with (Re.matchk (Re.Star (Re.Chr (Re.one_of [" "%char; "009"%char])))
            (drop 5 line) []
            (fun s1 g1 => Re.matchk Re.Eol s1 g1 (fun _ g' => Some g'))).
  rewrite blank_to_line_end_matchk. now destruct (blank_to_line_end (drop 5 line)).
Qed.

(** X21. The first line of a block matches the comment header exactly
    when it is [NOTE] alone, or [NOTE], a whitespace character and at
    least one more character: [NOTE] followed by one whitespace character
    and nothing else is no comment header, and neither is a word that
    only starts with [NOTE]. *)
Theorem comment_header_is_note_then_text line :
  Re.matches COMMENT_PATTERN line
  = PyStr.startswith "NOTE" line && comment_header_rest (drop 4 line).
Proof.
  unfold Re.matches, Re.match_, COMMENT_PATTERN, BlockParser.s. cbn [Re.cat].
  rewrite matchk_seq_lit_eq.
  destruct (PyStr.startswith "NOTE" line); [|reflexivity].
  cbn [String.length andb]. generalize (drop 4 line) as rest. intros rest.
  cbn [Re.matchk Re.Plus]. fold (Re.matchk Re.Eol).
  destruct rest as [|c [|c2 rest]].
  - reflexivity.
  - cbn. destruct (Re.space c); now destruct (PyStr.code c =? 10).
  - unfold comment_header_rest. cbn [at_line_end orb].
    destruct (Re.space c); [|reflexivity].
    destruct (Re.dot c2); [|reflexivity]. cbn [andb orb].
    match goal with
    | |- match match ?x with _ => _ end with _ => _ end = _ =>
        destruct x eqn:Hstar
    end; [reflexivity|].
    exfalso. revert Hstar.
    change (Re.matchk (Re.Star (Re.Chr Re.dot)) rest [] (fun _ g => Some g) <> None).
    apply matchk_star_succeeds. discriminate.
Qed.

End Headers.

(* ------------------------------------------------------------------ *)
(** ** The line source *)

Section Lines.
Import LineSource.

Lemma code_10 c : (PyStr.code c =? 10) = true -> c = "010"%char.
Proof.
  intros H. apply Nat.eqb_eq in H. unfold PyStr.code in H.
  rewrite <- (ascii_nat_embedding c), H. reflexivity.
Qed.

Lemma rstrip_newline_strips raw : stripped_of raw (rstrip_newline raw).
Proof.
  induction raw as [|c raw [Hend [n Hraw]]].
  - split; [reflexivity|]. now exists 0.
  - cbn [rstrip_newline]. destruct (rstrip_newline raw) as [|a rest] eqn:Hr.
    + destruct (PyStr.code c =? 10) eqn:Hc.
      * split; [reflexivity|]. exists (S n).
        apply code_10 in Hc. subst c. cbn. now rewrite Hraw.
      * split; [cbn; exact Hc|]. exists n. cbn. now rewrite Hraw.
    + split; [exact Hend|]. exists n. cbn. now rewrite Hraw.
Qed.

(** X22. [_read_content_lines] raises [MalformedFileError] when the
    source has no line; otherwise it returns one line for each line
    read, in order, each without the newlines it ended with and with
    nothing else removed. *)
Theorem read_content_lines_strips_newlines readlines :
  match _read_content_lines readlines with
  | Raise e => readlines = [] /\ e = MalformedFileError "The file is empty."
  | Return lines => lines <> [] /\ Forall2 stripped_of readlines lines
  end.
Proof.
  unfold _read_content_lines. destruct readlines as [|raw readlines].
  - now split.
  - cbn [map nonempty negb]. split; [discriminate|].
    change (Forall2 stripped_of (raw :: readlines)
              (map rstrip_newline (raw :: readlines))).
    induction (raw :: readlines) as [|r rs IH]; cbn; constructor; auto.
    apply rstrip_newline_strips.
Qed.

(** X23. [_read_file_encoding] answers [utf-8-sig] exactly when the
    file starts with the three bytes of the UTF-8 byte order mark: it
    reads up to 32 bytes and decides on the first three; a file of fewer
    than three bytes is [utf-8]. *)
Theorem read_file_encoding_is_bom_check file :
  _read_file_encoding file
  = if bytes_startswith BOM_UTF8 file then "utf-8-sig"%string else "utf-8"%string.
Proof.
  unfold _read_file_encoding.
  destruct file as [|a [|b [|c rest]]]; reflexivity.
Qed.

End Lines.

(* ------------------------------------------------------------------ *)
(** ** A used instance *)

Section UsedInstance.
Import BlockParser.

Lemma cdp_parse_block_frame block acc caps pre sty blks :
  WebVTTParserCDP._parse_block block acc (mk caps (pre ++ sty) blks)
  = let (s, r) := WebVTTParserCDP._parse_block block acc (mk caps sty blks) in
    (mk (captions s) (pre ++ styles s) (blocks s), r).
Proof.
  unfold WebVTTParserCDP._parse_block. destruct (_is_cue_block block).
  - run. destruct (WebVTTParserCDP._parse_cue_block block) as [c|e]; [|reflexivity].
    now destruct (Caption.flagEndSentence c).
  - unfold bind. rewrite _parse_other_block_frame.
    now destruct (_parse_other_block block (mk caps sty blks)) as [s [[]|e]].
Qed.

Lemma cdp_loop_frame bs : forall acc caps pre sty blks,
  for_each WebVTTParserCDP._parse_block bs acc (mk caps (pre ++ sty) blks)
  = let (s, r) := for_each WebVTTParserCDP._parse_block bs acc (mk caps sty blks) in
    (mk (captions s) (pre ++ styles s) (blocks s), r).
Proof.
  induction bs as [|b bs IH]; intros acc caps pre sty blks; [reflexivity|].
  cbn [for_each]. unfold bind.
  rewrite cdp_parse_block_frame.
  destruct (WebVTTParserCDP._parse_block b acc (mk caps sty blks))
    as [[caps1 sty1 blks1] [a|e]]; cbn [captions styles blocks]; auto.
Qed.

(** X24. [_parse] on an instance that has parsed before.  For the
    generic parser the instance is as after a first parse.  For the two
    block-structured parsers the captions, the blocks and the outcome
    are those of a first parse, and the styles are those the instance
    held followed by those of a first parse: [_parse] empties
    [self.captions], not [self.styles]. *)
Theorem parse_on_used_instance lines :
  (forall (child : TextBasedParser.Child) gself,
      TextBasedParser._parse lines gself
      = TextBasedParser._parse lines TextBasedParser.__init__)
  /\ (forall self,
         WebVTTParser._parse lines self
         = let (s, r) := WebVTTParser._parse lines __init__ in
           (mk (captions s) (styles self ++ styles s) (blocks s), r))
  /\ (forall self,
         WebVTTParserCDP._parse lines self
         = let (s, r) := WebVTTParserCDP._parse lines __init__ in
           (mk (captions s) (styles self ++ styles s) (blocks s), r)).
Proof.
  repeat split.
  - intros self. rewrite !webvtt_parse_unfold. cbn [styles __init__].
    rewrite <- (app_nil_r (styles self)) at 1. apply webvtt_loop_frame.
  - intros self. rewrite !cdp_parse_unfold. cbn [styles __init__].
    rewrite <- (app_nil_r (styles self)) at 1. rewrite cdp_loop_frame.
    now destruct (for_each _ _ _ _) as [s [l|e]].
Qed.

End UsedInstance.

(* ------------------------------------------------------------------ *)
(** ** Block decomposition of a well-formed input *)

Section BlocksOfBodies.
Import BlockParser.

Lemma nonempty_snoc {A} (xs : list A) x : nonempty (xs ++ [x]) = true.
Proof. now destruct xs. Qed.

(** A line that is not blank joins the last block when that has lines. *)
Lemma _compute_blocks_line_joins index line blocks ln body :
  PyStr.truthy line = true -> body <> [] ->
  _compute_blocks_line index line (blocks ++ [Block.mk ln body])
  = blocks ++ [Block.mk ln (body ++ [line])].
Proof.
  intros Hline Hbody. unfold _compute_blocks_line.
  rewrite Hline, nonempty_snoc. cbn [negb]. rewrite last_last.
  cbn [Block.lines]. destruct body as [|l body]; [contradiction|].
  cbn [nonempty negb]. now rewrite update_last_snoc.
Qed.

(** A line that is not blank, after a blank line, starts the block. *)
Lemma _compute_blocks_line_starts index line blocks ln :
  PyStr.truthy line = true ->
  _compute_blocks_line index line (blocks ++ [Block.new ln])
  = blocks ++ [Block.mk index [line]].
Proof.
  intros Hline. unfold _compute_blocks_line.
  rewrite Hline, nonempty_snoc. cbn [negb]. rewrite last_last.
  cbn [Block.lines Block.new nonempty negb]. now rewrite !update_last_snoc.
Qed.

Lemma _compute_blocks_loop_joins more : forall index rest blocks ln body,
  Forall (fun line => PyStr.truthy line = true) more -> body <> [] ->
  _compute_blocks_loop index (more ++ rest) (blocks ++ [Block.mk ln body])
  = _compute_blocks_loop (index + List.length more) rest
      (blocks ++ [Block.mk ln (body ++ more)]).
Proof.
  induction more as [|line more IH]; intros index rest blocks ln body Hall Hbody.
  - cbn. now rewrite Nat.add_0_r, app_nil_r.
  - inversion Hall as [|? ? Hline Hmore]; subst.
    rewrite <- app_comm_cons. cbn [_compute_blocks_loop].
    rewrite (_compute_blocks_line_joins index line blocks ln body Hline Hbody).
    rewrite (IH (S index) rest blocks ln (body ++ [line]) Hmore).
    + cbn [List.length]. rewrite <- app_assoc. cbn [app].
      now replace (S index + List.length more)
        with (index + S (List.length more)) by lia.
    + now destruct body.
Qed.

(** A blank line and a body add the body's block. *)
Lemma _compute_blocks_loop_body body index rest blocks :
  is_body body ->
  _compute_blocks_loop index (""%string :: body ++ rest) blocks
  = _compute_blocks_loop (index + 1 + List.length body) rest
      (blocks ++ [Block.mk (index + 1) body]).
Proof.
  intros [Hne Hall]. destruct body as [|line body]; [contradiction|].
  inversion Hall as [|? ? Hline Hbody]; subst.
  rewrite <- app_comm_cons. cbn [_compute_blocks_loop].
  change (_compute_blocks_line index "" blocks) with (blocks ++ [Block.new index]).
  rewrite (_compute_blocks_line_starts (S index) line blocks index Hline).
  rewrite (_compute_blocks_loop_joins body (S (S index)) rest blocks (S index) [line]
             Hbody); [|discriminate].
  cbn [List.length app].
  replace (index + 1) with (S index) by lia.
  now replace (S (S index) + List.length body)
    with (S index + S (List.length body)) by lia.
Qed.

Lemma _compute_blocks_loop_bodies bodies : forall index blocks,
  Forall is_body bodies ->
  _compute_blocks_loop index (body_lines bodies) blocks
  = blocks ++ blocks_from index bodies.
Proof.
  induction bodies as [|body bodies IH]; intros index blocks Hall.
  - cbn. now rewrite app_nil_r.
  - inversion Hall as [|? ? Hbody Hrest]; subst.
    unfold body_lines. cbn [flat_map]. rewrite <- app_comm_cons.
    rewrite (_compute_blocks_loop_body body index _ blocks Hbody).
    fold (body_lines bodies). rewrite (IH _ _ Hrest).
    cbn [blocks_from]. now rewrite <- app_assoc.
Qed.

Lemma blocks_from_nonempty bodies : forall index,
  Forall is_body bodies ->
  filter (fun x => nonempty (Block.lines x)) (blocks_from index bodies)
  = blocks_from index bodies.
Proof.
  induction bodies as [|body bodies IH]; intros index Hall; [reflexivity|].
  inversion Hall as [|? ? [Hne _] Hrest]; subst.
  cbn [blocks_from filter Block.lines].
  destruct body as [|l body]; [contradiction|]. cbn [nonempty].
  now rewrite (IH _ Hrest).
Qed.

Lemma computed_blocks_of_bodies header bodies :
  PyStr.truthy header = true ->
  Forall is_body bodies ->
  computed_blocks (header :: body_lines bodies) = blocks_from 2 bodies.
Proof.
  intros Hheader Hall. unfold computed_blocks. cbn [_compute_blocks_loop].
  unfold _compute_blocks_line at 1. rewrite Hheader.
  cbn [nonempty negb app last Block.new Block.lines update_last].
  change [append_line header (set_line_number 1 (Block.mk 1 []))]
    with ([] ++ [Block.mk 1 [header]]).
  rewrite (_compute_blocks_loop_bodies bodies 2 _ Hall).
  rewrite filter_app, (blocks_from_nonempty bodies 2 Hall). reflexivity.
Qed.

(** X25. The block decomposition reads back an input written as a
    first line and runs of non-blank lines, each after one blank line:
    [_compute_blocks] keeps exactly one block for each run, in order,
    with the run's lines and the number of its first line, and drops the
    first line. *)
Theorem blocks_of_well_formed_input header bodies :
  PyStr.truthy header = true ->
  Forall is_body bodies ->
  computed_blocks (header :: body_lines bodies) = blocks_from 2 bodies.
Proof. apply computed_blocks_of_bodies. Qed.

Lemma webvtt_reads_cue_blocks bs : forall cs self,
  Forall2 (fun b c => _is_cue_block b = true
                      /\ WebVTTParser._parse_cue_block b = Return c) bs cs ->
  for_each WebVTTParser._parse_block bs tt self
  = (mk (captions self ++ cs) (styles self) (blocks self), Return tt).
Proof.
  induction bs as [|b bs IH]; intros cs self Hall.
  - inversion Hall; subst. cbn. run. rewrite app_nil_r. now destruct self.
  - inversion Hall as [|? c ? cs' [Hcue Hc] Hrest]; subst.
    cbn [for_each]. unfold bind at 1. unfold WebVTTParser._parse_block at 1.
    rewrite Hcue. unfold bind at 1. unfold lift at 1. rewrite Hc.
    unfold modify at 1. rewrite (IH cs' _ Hrest).
    unfold append. cbn [captions styles blocks]. now rewrite <- app_assoc.
Qed.

(** X26. [WebVTTParser] reads back an input written as a first line
    and cue blocks, each after one blank line: when [_parse_cue_block]
    reads each block, [_parse] returns with their captions, in order,
    and no new style. *)
Theorem webvtt_parse_reads_cue_blocks_back header bodies cs self :
  PyStr.truthy header = true ->
  Forall is_body bodies ->
  Forall2 (fun b c => _is_cue_block b = true
                      /\ WebVTTParser._parse_cue_block b = Return c)
          (blocks_from 2 bodies) cs ->
  WebVTTParser._parse (header :: body_lines bodies) self
  = (mk cs (styles self) (blocks_from 2 bodies), Return tt).
Proof.
  intros Hheader Hbodies Hcues.
  rewrite webvtt_parse_unfold, (computed_blocks_of_bodies header bodies Hheader Hbodies).
  now rewrite (webvtt_reads_cue_blocks _ cs _ Hcues).
Qed.

End BlocksOfBodies.

Lemma blocks_of_well_formed_input_witness :
  BlockParser.computed_blocks
    ("WEBVTT"%string
       :: body_lines [["NOTE a"]; ["1"; "00:01.000 --> 00:02.000"; "Hi"]]%string)
  = [Block.mk 3 ["NOTE a"%string];
     Block.mk 5 ["1"; "00:01.000 --> 00:02.000"; "Hi"]%string].
Proof.
  apply (blocks_of_well_formed_input "WEBVTT"
           [["NOTE a"]; ["1"; "00:01.000 --> 00:02.000"; "Hi"]]%string).
  - reflexivity.
  - repeat constructor; discriminate.
Defined.

Lemma webvtt_parse_reads_cue_blocks_back_witness :
  WebVTTParser._parse
    ("WEBVTT"%string
       :: body_lines [["1"; "00:01.000 --> 00:02.000"; "Hi"];
                      ["00:03.000 --> 00:04.000"; "Bye"; "now"]]%string)
    BlockParser.__init__
  = (BlockParser.mk
       [Caption.mk (Some "1"%string) "00:01.000" "00:02.000" ["Hi"%string] false;
        Caption.mk None "00:03.000" "00:04.000" ["Bye"; "now"]%string false]
       []
       (blocks_from 2 [["1"; "00:01.000 --> 00:02.000"; "Hi"];
                       ["00:03.000 --> 00:04.000"; "Bye"; "now"]]%string),
     Return tt).
Proof.
  apply (webvtt_parse_reads_cue_blocks_back "WEBVTT"
           [["1"; "00:01.000 --> 00:02.000"; "Hi"];
            ["00:03.000 --> 00:04.000"; "Bye"; "now"]]%string).
  - reflexivity.
  - repeat constructor; discriminate.
  - repeat constructor; vm_compute; reflexivity.
Defined.

(* ------------------------------------------------------------------ *)
(** ** The comma-timing format *)


